(** * The AUTO device plugin of the Inference Engine

    A shallow embedding of
    [inference-engine/src/auto_plugin/auto_plugin.cpp]: the precision
    classifier [GetNetworkPrecision], the configuration store
    ([mergeConfigs], [CheckConfig]), the device selector [SelectDevice],
    the capability query [QueryNetwork] and the dispatcher
    [LoadNetworkImpl], followed by the properties established for them.

    Conventions of the embedding:
    - [std::string] is [string]; [s.find(p)] is [str_find s p], with [None]
      for [npos];
    - [std::vector<T>] is [list T], [push_back] appends at the end;
    - [std::map<std::string, std::string>] is [gmap string string]; a
      range-for over it visits the entries by increasing key
      ([ordered_entries]);
    - [std::unordered_set<std::string>] is [gset string];
    - a C++ exception is a value of [Exception]; code that may throw lives
      in the monad [M], which also logs every call the function makes
      through [GetCore()]: [GetMetric], [QueryNetwork] and
      [GetAvailableDevices]. The [LoadNetwork] calls of lines 87 and 89
      run inside the asynchronous tasks, not in the function that starts
      them; a started task is represented by the device it is given. *)

From Stdlib Require Import String Ascii List Bool Arith Lia.
From stdpp Require Import base option list gmap strings sorting.
Import ListNotations.

Local Open Scope string_scope.
Local Open Scope list_scope.

(** ** Strings *)

(** [s.find(pat)]: position of the first occurrence of [pat] in [s],
    [None] standing for [std::string::npos]. *)
Definition str_find (s pat : string) : option nat := String.index 0 pat s.

(** [s.find(pat) == 0] *)
Definition find_at_0 (s pat : string) : bool :=
  match str_find s pat with
  | Some 0 => true
  | _ => false
  end.

(** [s.find(pat) != std::string::npos] *)
Definition find_not_npos (s pat : string) : bool :=
  match str_find s pat with
  | Some _ => true
  | None => false
  end.

(** [std::find(v.begin(), v.end(), x) != v.end()] *)
Definition std_find_found (v : list string) (x : string) : bool :=
  existsb (String.eqb x) v.

(** ** Exceptions and the call log *)

Definition DeviceName := string.

(** The exceptions of the Inference Engine met in this file: the general
    one thrown by [IE_THROW()], [NotFound] thrown by [IE_THROW(NotFound)],
    and [std::out_of_range]. The payload is the streamed message. *)
Inductive Exception : Type :=
| GeneralError (what : string)
| NotFound (what : string)
| OutOfRange (what : string).

Inductive Result (A : Type) : Type :=
| Ok (a : A)
| Throw (e : Exception).
Arguments Ok {A} a.
Arguments Throw {A} e.

Definition is_Ok {A} (r : Result A) : Prop :=
  match r with Ok _ => True | Throw _ => False end.

(** A call made to the core: [GetCore()->GetMetric(device, metric)],
    [GetCore()->QueryNetwork(network, device, {})] or
    [GetCore()->GetAvailableDevices()]. *)
Inductive Call : Type :=
| CallGetMetric (device : DeviceName) (metric : string)
| CallQueryNetwork (device : DeviceName)
| CallGetAvailableDevices.

(** A computation: the calls made to the core, in order, and either a
    value or the exception that ended it. *)
Definition M (A : Type) : Type := (list Call * Result A)%type.

Definition ret {A} (a : A) : M A := ([], Ok a).
Definition throw {A} (e : Exception) : M A := ([], Throw e).
Definition bind {A B} (m : M A) (f : A -> M B) : M B :=
  match m with
  | (log, Ok a) => let '(log', r) := f a in (log ++ log', r)
  | (log, Throw e) => (log, Throw e)
  end.

Notation "'do' x <- m ; k" := (bind m (fun x => k))
  (at level 10, x name, m at level 100, k at level 200).

(** What a computation hands to its caller, and which calls it made. *)
Definition outcome {A} (m : M A) : Result A := snd m.
Definition calls {A} (m : M A) : list Call := fst m.

(** ** The core collaborator

    [ICore] is declared outside this file; the plugin uses four of its
    services. Each may throw. The answers are taken to be stable during
    one call of the plugin. *)
Record ICore : Type := {
  (** [GetMetric(device, METRIC_KEY(FULL_DEVICE_NAME)).as<std::string>()] *)
  full_device_name : DeviceName -> Result string;
  (** [GetMetric(device, METRIC_KEY(OPTIMIZATION_CAPABILITIES))] *)
  optimization_capabilities : DeviceName -> Result (list string);
  (** [QueryNetwork(network, device, {}).supportedLayersMap] *)
  core_supported_layers : DeviceName -> Result (gmap string string);
  (** [GetAvailableDevices()] *)
  GetAvailableDevices : Result (list DeviceName)
}.

(** Modelled from the spec: [METRIC_KEY(FULL_DEVICE_NAME)], the metric of
    the human-readable identity of a device; the macro is declared outside
    this file. *)
Definition KEY_FULL_DEVICE_NAME : string := "FULL_DEVICE_NAME".

(** Modelled from the spec: [METRIC_KEY(OPTIMIZATION_CAPABILITIES)], the
    metric of the supported precision classes of a device; the macro is
    declared outside this file. *)
Definition KEY_OPTIMIZATION_CAPABILITIES : string := "OPTIMIZATION_CAPABILITIES".

Definition GetMetric_FULL_DEVICE_NAME (core : ICore) (item : DeviceName)
  : M string :=
  ([CallGetMetric item KEY_FULL_DEVICE_NAME], full_device_name core item).

Definition GetMetric_OPTIMIZATION_CAPABILITIES (core : ICore) (item : DeviceName)
  : M (list string) :=
  ([CallGetMetric item KEY_OPTIMIZATION_CAPABILITIES],
   optimization_capabilities core item).

(** The answer of the core to a logged call, when it is a failure. *)
Definition call_failure (core : ICore) (c : Call) : option Exception :=
  match c with
  | CallGetMetric device metric =>
      if String.eqb metric KEY_FULL_DEVICE_NAME then
        match full_device_name core device with
        | Ok _ => None | Throw e => Some e end
      else if String.eqb metric KEY_OPTIMIZATION_CAPABILITIES then
        match optimization_capabilities core device with
        | Ok _ => None | Throw e => Some e end
      else None
  | CallQueryNetwork device =>
      match core_supported_layers core device with
      | Ok _ => None | Throw e => Some e end
  | CallGetAvailableDevices =>
      match GetAvailableDevices core with
      | Ok _ => None | Throw e => Some e end
  end.

(** ** SelectDevice *)

(** The five local vectors of [SelectDevice]. *)
Record Tiers : Type := {
  CPU : list DeviceName;
  dGPU : list DeviceName;
  iGPU : list DeviceName;
  MYRIAD : list DeviceName;
  VPUX : list DeviceName
}.

Definition no_tiers : Tiers :=
  {| CPU := []; dGPU := []; iGPU := []; MYRIAD := []; VPUX := [] |}.

Definition push_CPU (t : Tiers) (item : DeviceName) : Tiers :=
  {| CPU := CPU t ++ [item]; dGPU := dGPU t; iGPU := iGPU t;
     MYRIAD := MYRIAD t; VPUX := VPUX t |}.
Definition push_dGPU (t : Tiers) (item : DeviceName) : Tiers :=
  {| CPU := CPU t; dGPU := dGPU t ++ [item]; iGPU := iGPU t;
     MYRIAD := MYRIAD t; VPUX := VPUX t |}.
Definition push_iGPU (t : Tiers) (item : DeviceName) : Tiers :=
  {| CPU := CPU t; dGPU := dGPU t; iGPU := iGPU t ++ [item];
     MYRIAD := MYRIAD t; VPUX := VPUX t |}.
Definition push_MYRIAD (t : Tiers) (item : DeviceName) : Tiers :=
  {| CPU := CPU t; dGPU := dGPU t; iGPU := iGPU t;
     MYRIAD := MYRIAD t ++ [item]; VPUX := VPUX t |}.
Definition push_VPUX (t : Tiers) (item : DeviceName) : Tiers :=
  {| CPU := CPU t; dGPU := dGPU t; iGPU := iGPU t;
     MYRIAD := MYRIAD t; VPUX := VPUX t ++ [item] |}.

(** [v.empty()] *)
Definition is_empty {A} (v : list A) : bool :=
  match v with [] => true | _ :: _ => false end.

(** One iteration of the loop of lines 282-304. *)
Definition classify_item (core : ICore) (t : Tiers) (item : DeviceName)
  : M Tiers :=
  if find_at_0 item "CPU" then ret (push_CPU t item)
  else if find_at_0 item "MYRIAD" then ret (push_MYRIAD t item)
  else if find_at_0 item "VPUX" then ret (push_VPUX t item)
  else if find_at_0 item "GPU" then
    do gpuFullDeviceName <- GetMetric_FULL_DEVICE_NAME core item;
    if find_not_npos gpuFullDeviceName "iGPU" then ret (push_iGPU t item)
    else if find_not_npos gpuFullDeviceName "dGPU" then ret (push_dGPU t item)
    else ret t
  else ret t.

(** The loop of lines 282-304 over [metaDevices]. *)
Fixpoint classify_devices (core : ICore) (t : Tiers)
  (metaDevices : list DeviceName) : M Tiers :=
  match metaDevices with
  | [] => ret t
  | item :: rest =>
      do t' <- classify_item core t item;
      classify_devices core t' rest
  end.

(** One of the eight inner loops of lines 311-380: the first member of
    [tier] whose capabilities hold [precision]; [None] when the loop ends
    without returning. *)
Fixpoint first_capable (core : ICore) (tier : list DeviceName)
  (precision : string) : M (option DeviceName) :=
  match tier with
  | [] => ret None
  | item :: rest =>
      do capability <- GetMetric_OPTIMIZATION_CAPABILITIES core item;
      if std_find_found capability precision then ret (Some item)
      else first_capable core rest precision
  end.

(** The [if / else if] chain of lines 311-343 (and again 347-379): only
    the first non-empty vector is walked. *)
Definition walk_tiers (core : ICore) (t : Tiers) (precision : string)
  : M (option DeviceName) :=
  if negb (is_empty (dGPU t)) then first_capable core (dGPU t) precision
  else if negb (is_empty (VPUX t)) then first_capable core (VPUX t) precision
  else if negb (is_empty (iGPU t)) then first_capable core (iGPU t) precision
  else if negb (is_empty (MYRIAD t)) then first_capable core (MYRIAD t) precision
  else ret None.

Definition SelectDevice (core : ICore) (metaDevices : list DeviceName)
  (networkPrecision : string) : M DeviceName :=
  match metaDevices with
  | [] => throw (NotFound "No available device to select in AUTO plugin")
  | [only] => ret only
  | _ =>
      do t <- classify_devices core no_tiers metaDevices;
      if is_empty (CPU t) && is_empty (dGPU t) && is_empty (iGPU t)
         && is_empty (MYRIAD t) && is_empty (VPUX t)
      then throw (NotFound "No available device found")
      else
        do exact <- walk_tiers core t networkPrecision;
        match exact with
        | Some item => ret item
        | None =>
            do offload <- (if String.eqb networkPrecision "FP32"
                        then walk_tiers core t "FP16"
                        else ret None);
            match offload with
            | Some item => ret item
            | None =>
                match CPU t with
                | [] => throw (GeneralError "Cannot select any device")
                | cpu0 :: _ => ret cpu0
                end
            end
        end
  end.

(** ** Constants of the Inference Engine headers *)

(** The macros and constants below are declared in headers of the
    Inference Engine that are outside this file. *)

(** Modelled from the spec: [METRIC_VALUE(INT8)], the precision class of
    quantized models. *)
Definition METRIC_VALUE_INT8 : string := "INT8".

(** Modelled from the spec: [METRIC_VALUE(FP16)], the 16-bit floating
    precision class. *)
Definition METRIC_VALUE_FP16 : string := "FP16".

(** Modelled from the spec: [METRIC_VALUE(FP32)], the 32-bit floating
    precision class and the default. *)
Definition METRIC_VALUE_FP32 : string := "FP32".

(** Modelled from the spec: [PluginConfigParams::KEY_PERF_COUNT], the
    boolean toggle key. *)
Definition KEY_PERF_COUNT : string := "PERF_COUNT".

(** Modelled from the spec: [PluginConfigParams::YES], a value of the
    toggle key. *)
Definition YES : string := "YES".

(** Modelled from the spec: [PluginConfigParams::NO], the other value of
    the toggle key. *)
Definition NO : string := "NO".

(** Modelled from the spec: [KEY_AUTO_DEVICE_LIST], the key of the
    reserved namespace that holds the explicit device list. *)
Definition KEY_AUTO_DEVICE_LIST : string := "AUTO_DEVICE_LIST".

(** ** GetNetworkPrecision *)

(** The operator classes [GetNetworkPrecision] tells apart with
    [dynamic_pointer_cast]; every other operator is an [OtherOp]. *)
Inductive OpType : Type :=
| FakeQuantize
| Convolution
| GroupConvolution
| GroupConvolutionBackpropData
| ConvolutionBackpropData
| ConvolutionIE
| DeconvolutionIE
| OtherOp (type_name : string).

(** A node of the graph: its operator class and, for each input port, the
    name of the element type ([get_element_type().get_type_name()]). *)
Record Node : Type := {
  op_type : OpType;
  input_element_types : list string
}.

(** [ngraph::Function], through [get_ordered_ops()]. *)
Record Function : Type := {
  get_ordered_ops : list Node
}.

(** [CNNNetwork]; [getFunction()] may be [nullptr]. *)
Record CNNNetwork : Type := {
  getFunction : option Function
}.

Definition is_FakeQuantize (node : Node) : bool :=
  match op_type node with
  | FakeQuantize => true
  | _ => false
  end.

(** The disjunction of the six casts of lines 31-36. *)
Definition is_convolution_family (node : Node) : bool :=
  match op_type node with
  | Convolution | GroupConvolution | GroupConvolutionBackpropData
  | ConvolutionBackpropData | ConvolutionIE | DeconvolutionIE => true
  | FakeQuantize | OtherOp _ => false
  end.

(** Modelled from the spec: [ngraph::op::util::has_op_with_type<T>] of
    [transformations/utils/utils.hpp], instantiated at [FakeQuantize]: the
    graph contains a quantization-marker operator. *)
Definition has_op_with_type_FakeQuantize (nGraphFunc : Function) : bool :=
  existsb is_FakeQuantize (get_ordered_ops nGraphFunc).

(** [node->input(1).get_element_type().get_type_name()]; [input(i)] throws
    [std::out_of_range] when the node has no port [i]. *)
Definition input_1_type_name (node : Node) : Result string :=
  match nth_error (input_element_types node) 1 with
  | Some name => Ok name
  | None => Throw (OutOfRange "node input index is out of range")
  end.

(** The loop of lines 30-43; [None] when it ends without returning. *)
Fixpoint scan_ops (ops : list Node) : Result (option string) :=
  match ops with
  | [] => Ok None
  | node :: rest =>
      if is_convolution_family node then
        match input_1_type_name node with
        | Throw e => Throw e
        | Ok layerType =>
            if String.eqb layerType "f32" then Ok (Some METRIC_VALUE_FP32)
            else if String.eqb layerType "f16" then Ok (Some METRIC_VALUE_FP16)
            else scan_ops rest
        end
      else scan_ops rest
  end.

Definition GetNetworkPrecision (nGraphFunc : Function) : Result string :=
  let isINTModel := has_op_with_type_FakeQuantize nGraphFunc in
  if isINTModel then Ok METRIC_VALUE_INT8
  else
    match scan_ops (get_ordered_ops nGraphFunc) with
    | Throw e => Throw e
    | Ok (Some precision) => Ok precision
    | Ok None => Ok METRIC_VALUE_FP32
    end.

(** ** The configuration store *)

Abbreviation ConfigType := (gmap string string).

(** The order of [std::map<std::string, ...>]: keys compared as
    [std::string], that is lexicographically, byte by byte. *)
Definition key_le : relation (string * string) :=
  fun x y => String.leb (fst x) (fst y) = true.

#[global] Instance key_le_dec : RelDecision key_le.
Proof. intros x y. unfold key_le. apply bool_eq_dec. Defined.

(** The entries of a map in the order a range-for visits them. *)
Definition ordered_entries (m : ConfigType) : list (string * string) :=
  merge_sort key_le (map_to_list m).

(** [config[kvp.first] = kvp.second] for every entry of [local]. *)
Definition mergeConfigs (config local : ConfigType) : ConfigType :=
  fold_left (fun cfg kvp => <[fst kvp := snd kvp]> cfg)
            (ordered_entries local) config.

(** The plugin object: the fields of [AutoInferencePlugin] and of its base
    class that this file reads. [GetCore()] is [nullptr] when [_core] is
    [None]. *)
Record AutoInferencePlugin : Type := {
  _pluginName : string;
  _config : ConfigType;
  _core : option ICore
}.

Definition GetName (this : AutoInferencePlugin) : string := _pluginName this.
Definition GetCore (this : AutoInferencePlugin) : option ICore := _core this.

(** [GetMetric(METRIC_KEY(SUPPORTED_CONFIG_KEYS), {})] *)
Definition GetMetric_SUPPORTED_CONFIG_KEYS (this : AutoInferencePlugin)
  : list string :=
  [KEY_AUTO_DEVICE_LIST; KEY_PERF_COUNT].

(** The body of the loop of [CheckConfig] for one entry: [Ok] stands for
    [continue]. *)
Definition check_entry (kvp : string * string) : Result unit :=
  if find_at_0 (fst kvp) "AUTO_" then Ok tt
  else if String.eqb (fst kvp) KEY_PERF_COUNT then
    if String.eqb (snd kvp) YES || String.eqb (snd kvp) NO then Ok tt
    else Throw (GeneralError
                  (String.append "Unsupported config value: "
                     (String.append (snd kvp)
                        (String.append " for key: " (fst kvp)))))
  else Throw (GeneralError
                (String.append "Unsupported config key: " (fst kvp))).

Fixpoint check_entries (entries : list (string * string)) : Result unit :=
  match entries with
  | [] => Ok tt
  | kvp :: rest =>
      match check_entry kvp with
      | Ok _ => check_entries rest
      | Throw e => Throw e
      end
  end.

(** [CheckConfig] is a member function that is not [const]: it takes the
    plugin object and gives it back with its verdict. *)
Definition CheckConfig (this : AutoInferencePlugin) (config : ConfigType)
  : AutoInferencePlugin * Result unit :=
  let supportedConfigKeys := GetMetric_SUPPORTED_CONFIG_KEYS this in
  (this, check_entries (ordered_entries config)).

(** ** QueryNetwork and LoadNetworkImpl *)

(** [p == nullptr] *)
Definition is_nullptr {A} (p : option A) : bool :=
  match p with None => true | Some _ => false end.

Definition lift {A} (r : Result A) : M A := ([], r).

(** [try { body } catch (...) { }], the empty handler giving [fallback]. *)
Definition try_catch_all {A} (body : M A) (fallback : A) : M A :=
  match body with
  | (log, Ok a) => (log, Ok a)
  | (log, Throw _) => (log, Ok fallback)
  end.

Definition Core_QueryNetwork (core : ICore) (value : DeviceName)
  : M (gmap string string) :=
  ([CallQueryNetwork value], core_supported_layers core value).

(** [GetCore()->GetAvailableDevices()] *)
Definition Core_GetAvailableDevices (core : ICore) : M (list DeviceName) :=
  ([CallGetAvailableDevices], GetAvailableDevices core).

(** The loop of lines 130-144. The body yields [Some] of the new value of
    [supportedLayers] when it reaches [break], and [None] when the handler
    swallowed an exception. *)
Fixpoint query_devices (core : ICore) (metaDevices : list DeviceName)
  (supportedLayers : gset string) : M (gset string) :=
  match metaDevices with
  | [] => ret supportedLayers
  | value :: rest =>
      do step <- try_catch_all
          (do deviceQr <- Core_QueryNetwork core value;
           let deviceSupportedLayers : gset string := dom deviceQr in
           ret (Some
                  (if decide (supportedLayers = ∅) then deviceSupportedLayers
                   else if decide (deviceSupportedLayers = ∅)
                        then supportedLayers
                        else supportedLayers ∩ deviceSupportedLayers)))
          None;
      match step with
      | Some supportedLayers' => ret supportedLayers'
      | None => query_devices core rest supportedLayers
      end
  end.

(** The compiled workload handle. A [NetworkFuture] is represented by the
    device its asynchronous task loads the network on; [None] is a future
    that was never started. *)
Record AutoExecutableNetwork : Type := {
  cpuFuture : option DeviceName;
  acceleratorFuture : option DeviceName;
  enablePerfCount : bool
}.

Section Plugin.

(** [DeviceIDParser::getHeteroDevices], the parser of the
    comma-delimited device list; it is declared outside this file. *)
Variable getHeteroDevices : string -> list DeviceName.

Definition GetDeviceList (core : ICore) (config : ConfigType)
  : M (list DeviceName) :=
  do deviceList <-
    match config !! KEY_AUTO_DEVICE_LIST with
    | None => Core_GetAvailableDevices core
    | Some deviceListConfig => ret (getHeteroDevices deviceListConfig)
    end;
  if is_empty deviceList
  then throw (GeneralError
         "Please, check environment due to no supported devices can be used")
  else ret deviceList.

Definition QueryNetwork (this : AutoInferencePlugin) (network : CNNNetwork)
  (config : ConfigType) : M (gmap string string) :=
  match GetCore this with
  | None => throw (GeneralError
      "Please, work with AUTO device via InferencEngine::Core object")
  | Some core =>
      match getFunction network with
      | None => throw (GeneralError
          "AUTO device supports just ngraph network representation")
      | Some _ =>
          let fullConfig := mergeConfigs (_config this) config in
          do metaDevices <- GetDeviceList core fullConfig;
          do supportedLayers <- query_devices core metaDevices ∅;
          ret (fold_left
                 (fun supportedLayersMap supportedLayer =>
                    <[supportedLayer := GetName this]> supportedLayersMap)
                 (elements supportedLayers) (∅ : gmap string string))
      end
  end.

Definition LoadNetworkImpl (this : AutoInferencePlugin) (modelPath : string)
  (network : CNNNetwork) (config : ConfigType) (networkPrecision : string)
  : M AutoExecutableNetwork :=
  match GetCore this with
  | None => throw (GeneralError
      "Please, work with AUTO device via InferencEngine::Core object")
  | Some core =>
      if String.eqb modelPath "" && is_nullptr (getFunction network)
      then throw (GeneralError
             "AUTO device supports just ngraph network representation")
      else
        let fullConfig := mergeConfigs (_config this) config in
        do _checked <- lift (snd (CheckConfig this fullConfig));
        do metaDevices <- GetDeviceList core fullConfig;
        let CPUIter :=
          List.find (fun d => find_not_npos d "CPU") metaDevices in
        let cpuFuture' := CPUIter in
        do accelerator <- SelectDevice core metaDevices networkPrecision;
        let isAccelerator := negb (find_not_npos accelerator "CPU") in
        let acceleratorFuture' :=
          if isAccelerator then Some accelerator else None in
        let enablePerfCount' :=
          bool_decide (is_Some (fullConfig !! KEY_PERF_COUNT)) in
        ret {| cpuFuture := cpuFuture';
               acceleratorFuture := acceleratorFuture';
               enablePerfCount := enablePerfCount' |}
  end.

Definition LoadExeNetworkImpl (this : AutoInferencePlugin)
  (network : CNNNetwork) (config : ConfigType) : M AutoExecutableNetwork :=
  match getFunction network with
  | None => throw (GeneralError
      "AUTO device supports just ngraph network representation")
  | Some nGraphFunc =>
      do networkPrecision <- lift (GetNetworkPrecision nGraphFunc);
      LoadNetworkImpl this "" network config networkPrecision
  end.

End Plugin.

(** * Vocabulary of the properties *)

(** ** [GetDeviceList]: the call it makes

    Obtaining the device list costs one call to the core,
    [GetAvailableDevices] (line 212), exactly when the configuration has
    no [AUTO_DEVICE_LIST] entry; with the entry the list is parsed from
    its value and the core is not called. *)

Definition enumeration_calls (config : ConfigType) : list Call :=
  match config !! KEY_AUTO_DEVICE_LIST with
  | Some _ => []
  | None => [CallGetAvailableDevices]
  end.

(** ** [SelectDevice]: tiers as filters of the device list *)

Definition is_CPU (d : DeviceName) : bool := find_at_0 d "CPU".
Definition is_MYRIAD (d : DeviceName) : bool := find_at_0 d "MYRIAD".
Definition is_VPUX (d : DeviceName) : bool := find_at_0 d "VPUX".
Definition is_GPU (d : DeviceName) : bool := find_at_0 d "GPU".

(** A generic accelerator whose full name carries the integrated marker. *)
Definition is_iGPU (core : ICore) (d : DeviceName) : bool :=
  is_GPU d &&
  match full_device_name core d with
  | Ok name => find_not_npos name "iGPU"
  | Throw _ => false
  end.

(** A generic accelerator whose full name carries the discrete marker and
    not the integrated one. *)
Definition is_dGPU (core : ICore) (d : DeviceName) : bool :=
  is_GPU d &&
  match full_device_name core d with
  | Ok name => negb (find_not_npos name "iGPU") && find_not_npos name "dGPU"
  | Throw _ => false
  end.

(** The device reports [precision] among its optimization capabilities. *)
Definition advertises (core : ICore) (precision : string) (d : DeviceName)
  : bool :=
  match optimization_capabilities core d with
  | Ok capability => std_find_found capability precision
  | Throw _ => false
  end.

Definition tiers_of (core : ICore) (devs : list DeviceName) : Tiers :=
  {| CPU := List.filter is_CPU devs;
     dGPU := List.filter (is_dGPU core) devs;
     iGPU := List.filter (is_iGPU core) devs;
     MYRIAD := List.filter is_MYRIAD devs;
     VPUX := List.filter is_VPUX devs |}.

(** The vector walked by the [if / else if] chain. *)
Definition first_nonempty_tier (t : Tiers) : list DeviceName :=
  if negb (is_empty (dGPU t)) then dGPU t
  else if negb (is_empty (VPUX t)) then VPUX t
  else if negb (is_empty (iGPU t)) then iGPU t
  else if negb (is_empty (MYRIAD t)) then MYRIAD t
  else [].

Definition all_tiers_empty (t : Tiers) : bool :=
  is_empty (CPU t) && is_empty (dGPU t) && is_empty (iGPU t)
  && is_empty (MYRIAD t) && is_empty (VPUX t).

(** Every metric query [SelectDevice] can make on [devs] succeeds. *)
Definition queries_succeed (core : ICore) (devs : list DeviceName) : Prop :=
  forall d, In d devs ->
    is_Ok (full_device_name core d) /\ is_Ok (optimization_capabilities core d).


(** Vector-wise concatenation of two partitions. *)
Definition tiers_app (t1 t2 : Tiers) : Tiers :=
  {| CPU := CPU t1 ++ CPU t2;
     dGPU := dGPU t1 ++ dGPU t2;
     iGPU := iGPU t1 ++ iGPU t2;
     MYRIAD := MYRIAD t1 ++ MYRIAD t2;
     VPUX := VPUX t1 ++ VPUX t2 |}.

(** What [SelectDevice] returns on two devices or more when its queries
    succeed, read off the partition. *)
Definition select_from (core : ICore) (t : Tiers) (networkPrecision : string)
  : Result DeviceName :=
  if all_tiers_empty t then Throw (NotFound "No available device found")
  else
    match List.find (advertises core networkPrecision) (first_nonempty_tier t) with
    | Some item => Ok item
    | None =>
        match (if String.eqb networkPrecision "FP32"
               then List.find (advertises core "FP16") (first_nonempty_tier t)
               else None) with
        | Some item => Ok item
        | None =>
            match CPU t with
            | [] => Throw (GeneralError "Cannot select any device")
            | cpu0 :: _ => Ok cpu0
            end
        end
    end.

(** The core answered the logged call without throwing. *)
Definition call_ok (core : ICore) (c : Call) : Prop :=
  call_failure core c = None.

(** A computation is faithful to the core when it hides no failure: every
    call it logged succeeded, except possibly the last one, whose
    exception is then the outcome. *)
Definition faithful {A} (core : ICore) (m : M A) : Prop :=
  match outcome m with
  | Ok _ => Forall (call_ok core) (calls m)
  | Throw e =>
      (exists log c, calls m = log ++ [c] /\ Forall (call_ok core) log
                     /\ call_failure core c = Some e)
      \/ Forall (call_ok core) (calls m)
  end.

(** In how many of the five vectors a device occurs. *)
Definition occurs (d : DeviceName) (v : list DeviceName) : nat :=
  if existsb (String.eqb d) v then 1 else 0.

Definition buckets_holding (t : Tiers) (d : DeviceName) : nat :=
  occurs d (CPU t) + occurs d (dGPU t) + occurs d (iGPU t)
  + occurs d (MYRIAD t) + occurs d (VPUX t).

(** The identifier matches none of the four recognized prefixes. *)
Definition unrecognized (d : DeviceName) : Prop :=
  is_CPU d = false /\ is_MYRIAD d = false /\ is_VPUX d = false
  /\ is_GPU d = false.

(** ** Graphs and configurations *)

(** The element type name of the weights operand, when the node has one. *)
Definition weights_type (node : Node) : option string :=
  nth_error (input_element_types node) 1.

(** A node the scan passes over: not of the convolution family, or with
    weights whose type name is neither "f32" nor "f16". *)
Definition passed_over (node : Node) : Prop :=
  is_convolution_family node = false
  \/ exists ty, weights_type node = Some ty /\ ty <> "f32" /\ ty <> "f16".

(** An entry that [CheckConfig] lets through. *)
Definition entry_accepted (k v : string) : Prop :=
  find_at_0 k "AUTO_" = true
  \/ (k = KEY_PERF_COUNT /\ (v = YES \/ v = NO)).

Definition unsupported_value (k v : string) : Exception :=
  GeneralError (String.append "Unsupported config value: "
                  (String.append v (String.append " for key: " k))).

Definition unsupported_key (k : string) : Exception :=
  GeneralError (String.append "Unsupported config key: " k).

(** * Concrete cores, graphs and plugins *)

Fixpoint assoc {A} (table : list (string * A)) (key : string) : option A :=
  match table with
  | [] => None
  | (k, a) :: rest => if String.eqb k key then Some a else assoc rest key
  end.

(** The answer of a core that knows only the devices of [table]: any
    other query throws. *)
Definition answer {A} (table : list (string * A)) (device : DeviceName)
  : Result A :=
  match assoc table device with
  | Some a => Ok a
  | None => Throw (GeneralError "device query failed")
  end.

Definition table_core (full_names : list (string * string))
  (capabilities : list (string * list string))
  (layers : list (string * gmap string string)) : ICore :=
  {| full_device_name := answer full_names;
     optimization_capabilities := answer capabilities;
     core_supported_layers := answer layers;
     GetAvailableDevices := Ok (List.map fst capabilities) |}.

(** A processor, a discrete GPU and an integrated GPU. *)
Definition demo_core : ICore :=
  table_core
    [("CPU", "Intel(R) Core(TM) i7");
     ("GPU.0", "Intel(R) Iris(R) Xe MAX Graphics (dGPU)");
     ("GPU.1", "Intel(R) UHD Graphics 620 (iGPU)")]
    [("CPU", ["FP32"; "INT8"]);
     ("GPU.0", ["FP32"; "FP16"; "INT8"]);
     ("GPU.1", ["FP16"])]
    [].

(** A discrete GPU limited to INT8 next to an integrated GPU with FP16. *)
Definition int8_dgpu_core : ICore :=
  table_core
    [("GPU.0", "Discrete accelerator (dGPU)");
     ("GPU.1", "Integrated accelerator (iGPU)")]
    [("GPU.0", ["INT8"]);
     ("GPU.1", ["FP16"])]
    [].

(** A processor and a GPU whose full-name query fails. *)
Definition failing_gpu_core : ICore :=
  table_core
    [("CPU", "Intel(R) Core(TM) i7")]
    [("CPU", ["FP32"; "INT8"]);
     ("GPU.0", ["FP32"; "FP16"])]
    [].

(** A processor and a GPU whose full name carries neither marker. *)
Definition unmarked_gpu_core : ICore :=
  table_core
    [("CPU", "Intel(R) Core(TM) i7");
     ("GPU.0", "Intel(R) HD Graphics")]
    [("CPU", ["FP32"; "INT8"]);
     ("GPU.0", ["FP32"; "FP16"])]
    [].

(** Graphs and plugins for examples. *)
Definition conv (ty : string) : Node :=
  {| op_type := Convolution; input_element_types := ["f32"; ty] |}.
Definition fake_quantize : Node :=
  {| op_type := FakeQuantize;
     input_element_types := ["f32"; "f32"; "f32"; "f32"; "f32"] |}.
Definition relu : Node :=
  {| op_type := OtherOp "Relu"; input_element_types := ["f32"] |}.

Definition demo_plugin : AutoInferencePlugin :=
  {| _pluginName := "AUTO"; _config := ∅; _core := Some demo_core |}.

Definition demo_network : CNNNetwork :=
  {| getFunction := Some {| get_ordered_ops := [relu; conv "f32"] |} |}.

(** A core where the processor does not answer the operation-support
    query and the accelerator does. *)
Definition accel_core : ICore :=
  table_core
    [("ACCEL.0", "Accelerator")]
    [("CPU", ["FP32"]); ("ACCEL.0", ["FP32"; "FP16"])]
    [("ACCEL.0", {["opA" := "ACCEL.0"; "opB" := "ACCEL.0"]})].

Definition accel_plugin : AutoInferencePlugin :=
  {| _pluginName := "AUTO"; _config := ∅; _core := Some accel_core |}.

(** A parser for examples: the whole string as one identifier. *)
Definition one_device (deviceListConfig : string) : list DeviceName :=
  [deviceListConfig].

(** A processor and two discrete GPUs, the first listed with FP16 only. *)
Definition two_dgpu_core : ICore :=
  table_core
    [("CPU", "Intel(R) Core(TM) i7");
     ("GPU.0", "Discrete accelerator A (dGPU)");
     ("GPU.1", "Discrete accelerator B (dGPU)")]
    [("CPU", ["FP32"; "INT8"]);
     ("GPU.0", ["FP16"]);
     ("GPU.1", ["FP32"; "FP16"])]
    [].

(** A core whose device enumeration throws. *)
Definition offline_core : ICore :=
  {| full_device_name := answer [];
     optimization_capabilities := answer [];
     core_supported_layers := answer [];
     GetAvailableDevices := Throw (GeneralError "enumeration failed") |}.

Definition offline_plugin : AutoInferencePlugin :=
  {| _pluginName := "AUTO"; _config := ∅; _core := Some offline_core |}.

(** A core that enumerates a single stick. *)
Definition myriad_core : ICore :=
  table_core [] [("MYRIAD", ["FP16"])] [].

Definition myriad_plugin : AutoInferencePlugin :=
  {| _pluginName := "AUTO"; _config := ∅; _core := Some myriad_core |}.


(** * The rest of the plugin: configuration access and metrics *)

(** Modelled from the spec: [METRIC_KEY(SUPPORTED_METRICS)], the metric
    listing the metric names; the macro is declared outside this file. *)
Definition KEY_SUPPORTED_METRICS : string := "SUPPORTED_METRICS".

(** Modelled from the spec: [METRIC_KEY(SUPPORTED_CONFIG_KEYS)], the metric
    listing the configuration keys; the macro is declared outside this
    file. *)
Definition KEY_SUPPORTED_CONFIG_KEYS : string := "SUPPORTED_CONFIG_KEYS".

(** [IE::Parameter], a value of any type: a string, a vector of strings
    (the two this file builds), or a value of another type. *)
Inductive IE_Parameter : Type :=
| Param_string (s : string)
| Param_strings (v : list string)
| Param_other (type_name : string).

(** The constructor: [_pluginName = "AUTO"], nothing stored, no core yet. *)
Definition new_AutoInferencePlugin : AutoInferencePlugin :=
  {| _pluginName := "AUTO"; _config := ∅; _core := None |}.

(** [_config[key] = value] on the plugin object. *)
Definition store_config (this : AutoInferencePlugin) (key value : string)
  : AutoInferencePlugin :=
  {| _pluginName := _pluginName this;
     _config := <[key := value]> (_config this);
     _core := _core this |}.

(** [GetConfig]; the [options] are not read. *)
Definition GetConfig (this : AutoInferencePlugin) (name : string)
  (options : gmap string IE_Parameter) : Result IE_Parameter :=
  match _config this !! name with
  | None => Throw (GeneralError
                     (String.append "Unsupported config key: " name))
  | Some value => Ok (Param_string value)
  end.

(** The body of the loop of [SetConfig] for one entry: the plugin object
    after it, and [Ok] when the loop goes on. *)
Definition set_entry (this : AutoInferencePlugin) (kvp : string * string)
  : AutoInferencePlugin * Result unit :=
  if find_at_0 (fst kvp) "AUTO_" then
    (store_config this (fst kvp) (snd kvp), Ok tt)
  else if String.eqb (fst kvp) KEY_PERF_COUNT then
    if String.eqb (snd kvp) YES || String.eqb (snd kvp) NO then
      (store_config this (fst kvp) (snd kvp), Ok tt)
    else (this, Throw (GeneralError
                  (String.append "Unsupported config value: "
                     (String.append (snd kvp)
                        (String.append " for key: " (fst kvp))))))
  else (this, Throw (GeneralError
                (String.append "Unsupported config key: " (fst kvp)))).

Fixpoint set_entries (this : AutoInferencePlugin)
  (entries : list (string * string)) : AutoInferencePlugin * Result unit :=
  match entries with
  | [] => (this, Ok tt)
  | kvp :: rest =>
      match set_entry this kvp with
      | (this', Ok _) => set_entries this' rest
      | (this', Throw e) => (this', Throw e)
      end
  end.

(** [SetConfig]: the entries are visited by increasing key; what was
    stored before an exception stays stored. *)
Definition SetConfig (this : AutoInferencePlugin) (config : gmap string string)
  : AutoInferencePlugin * Result unit :=
  set_entries this (ordered_entries config).

(** The loop of lines 236-245: the capabilities of every device that
    answers are inserted into the set; a device that throws is passed. *)
Fixpoint collect_capabilities (core : ICore) (queryDeviceLists : list DeviceName)
  (capabilities : gset string) : M (gset string) :=
  match queryDeviceLists with
  | [] => ret capabilities
  | item :: rest =>
      do capabilities' <- try_catch_all
          (do device_cap <- GetMetric_OPTIMIZATION_CAPABILITIES core item;
           ret (fold_left (fun caps cap => {[cap]} ∪ caps) device_cap
                  capabilities))
          capabilities;
      collect_capabilities core rest capabilities'
  end.

Section Metrics.

(** [DeviceIDParser::getHeteroDevices], declared outside this file. *)
Variable getHeteroDevices : string -> list DeviceName.

(** The exception of [Parameter::as<T>()] on a value that is not a [T];
    it is thrown by code outside this file. *)
Variable bad_cast : Exception.

(** [p.as<std::string>()] *)
Definition as_string (p : IE_Parameter) : Result string :=
  match p with
  | Param_string s => Ok s
  | Param_strings _ | Param_other _ => Throw bad_cast
  end.

(** [GetOptimizationCapabilities]. [GetCore()] is dereferenced without a
    check; [core] is the core it points to. The vector built from the
    unordered set lists its elements in an order of the implementation,
    here the one of [elements]. *)
Definition GetOptimizationCapabilities (this : AutoInferencePlugin)
  (core : ICore) (options : gmap string IE_Parameter) : M (list string) :=
  do queryDeviceLists <-
    match options !! KEY_AUTO_DEVICE_LIST with
    | Some p =>
        do deviceListConfig <- lift (as_string p);
        ret (getHeteroDevices deviceListConfig)
    | None =>
        match _config this !! KEY_AUTO_DEVICE_LIST with
        | Some deviceListConfig => ret (getHeteroDevices deviceListConfig)
        | None => ret ["CPU"; "GPU"]
        end
    end;
  do capabilities <- collect_capabilities core queryDeviceLists ∅;
  ret (elements capabilities).

(** [GetMetric] of the plugin. *)
Definition GetMetric (this : AutoInferencePlugin) (core : ICore)
  (name : string) (options : gmap string IE_Parameter) : M IE_Parameter :=
  if String.eqb name KEY_SUPPORTED_METRICS then
    ret (Param_strings [KEY_SUPPORTED_METRICS; KEY_FULL_DEVICE_NAME;
                        KEY_SUPPORTED_CONFIG_KEYS;
                        KEY_OPTIMIZATION_CAPABILITIES])
  else if String.eqb name KEY_FULL_DEVICE_NAME then
    ret (Param_string "Inference Engine AUTO device")
  else if String.eqb name KEY_SUPPORTED_CONFIG_KEYS then
    ret (Param_strings [KEY_AUTO_DEVICE_LIST; KEY_PERF_COUNT])
  else if String.eqb name KEY_OPTIMIZATION_CAPABILITIES then
    do capabilities <- GetOptimizationCapabilities this core options;
    ret (Param_strings capabilities)
  else throw (GeneralError (String.append "Unsupported metric key " name)).

End Metrics.

(** ** Vocabulary of the further properties *)

(** Every entry of the configuration is one [CheckConfig] lets through. *)
Definition valid_config (config : gmap string string) : Prop :=
  forall k v, config !! k = Some v -> entry_accepted k v.

(** A node that can influence [GetNetworkPrecision]. *)
Definition relevant_node (node : Node) : bool :=
  is_FakeQuantize node || is_convolution_family node.

(** A capability query and a full-name query, as logged. *)
Definition capability_query (d : DeviceName) : Call :=
  CallGetMetric d KEY_OPTIMIZATION_CAPABILITIES.
Definition full_name_query (d : DeviceName) : Call :=
  CallGetMetric d KEY_FULL_DEVICE_NAME.

(** A core with a device that does not answer, for examples. *)
Definition partial_core : ICore :=
  table_core
    [("GPU", "Intel(R) UHD Graphics 620 (iGPU)")]
    [("GPU", ["FP16"; "FP32"]); ("MYRIAD", ["FP16"])]
    [].

Definition partial_plugin : AutoInferencePlugin :=
  {| _pluginName := "AUTO"; _config := ∅; _core := Some partial_core |}.

(** The plugin object with another stored configuration. *)
Definition with_config (this : AutoInferencePlugin)
  (config : gmap string string) : AutoInferencePlugin :=
  {| _pluginName := _pluginName this; _config := config; _core := _core this |}.

(** The plugin object after a sequence of calls of [SetConfig], whether
    they succeeded or threw. *)
Definition SetConfig_all (this : AutoInferencePlugin)
  (configs : list (gmap string string)) : AutoInferencePlugin :=
  fold_left (fun plugin config => fst (SetConfig plugin config)) configs this.

(** * The layout conversions of the reorder node

    [MKLDNNReorderNode::optimizedNspc2Ncsp] and [optimizedNcsp2Nspc] of
    [mkldnn_plugin/nodes/mkldnn_reorder_node.cpp]. A [size_t] is an [N]
    below [2^64] and its arithmetic wraps around. A buffer reached through
    a raw pointer is a function from element offsets to elements; the
    source and destination buffers are distinct memories, so the source is
    only read. The elements are copied and never computed on ([float] in
    the first function, [uint8_t] in the second), so their type is left
    open. *)

Definition size_t_modulus : N := (2 ^ 64)%N.

(** The value a [size_t] computation keeps. *)
Definition size_t (x : N) : N := (x mod size_t_modulus)%N.

Definition size_t_add (a b : N) : N := size_t (a + b).
Definition size_t_mul (a b : N) : N := size_t (a * b).

(** [v[i]] on the vector of dimensions; reading past the end is undefined
    in the source and gives 0 here. *)
Definition dim (inDims : list N) (i : nat) : N := nth i inDims 0%N.

(** [DIM0] to [DIM4], as both functions compute them from [inDims]. *)
Definition DIM0 (inDims : list N) : N := dim inDims 0.
Definition DIM1 (inDims : list N) : N := dim inDims 1.
Definition DIM2 (inDims : list N) : N :=
  if Nat.eqb (length inDims) 5 then dim inDims (length inDims - 3) else 1%N.
Definition DIM3 (inDims : list N) : N := dim inDims (length inDims - 2).
Definition DIM4 (inDims : list N) : N := dim inDims (length inDims - 1).

(** [mem[off] = v] *)
Definition store {A} (mem : N -> A) (off : N) (v : A) : N -> A :=
  fun i => if N.eqb i off then v else mem i.

(** The inner loop of both functions, [count] iterations of
    [dst_data[dst_off] = src_data[src_off]; src_off++; dst_off += step]. *)
Fixpoint copy_loop {A} (count : nat) (src_data : N -> A)
  (src_off dst_off step : N) (dst_data : N -> A) : N -> A :=
  match count with
  | O => dst_data
  | S count' =>
      copy_loop count' src_data (size_t_add src_off 1)
        (size_t_add dst_off step) step
        (store dst_data dst_off (src_data src_off))
  end.

(** [parallel_for2d(D0, D1, f)] and [parallel_for3d(D0, D1, D2, f)] are
    declared outside this file: they call [f] once for every index below
    the bounds, the calls being split among threads. Here a scheduler
    gives, for the bounds, the order in which the calls are made. *)
Definition Scheduler2 : Type := N -> N -> list (N * N).
Definition Scheduler3 : Type := N -> N -> N -> list (N * N * N).

Definition parallel_for2d {A} (schedule : Scheduler2) (D0 D1 : N)
  (f : N -> N -> (N -> A) -> (N -> A)) (mem : N -> A) : N -> A :=
  fold_left (fun m idx => f (fst idx) (snd idx) m) (schedule D0 D1) mem.

Definition parallel_for3d {A} (schedule : Scheduler3) (D0 D1 D2 : N)
  (f : N -> N -> N -> (N -> A) -> (N -> A)) (mem : N -> A) : N -> A :=
  fold_left (fun m idx => f (fst (fst idx)) (snd (fst idx)) (snd idx) m)
            (schedule D0 D1 D2) mem.

(** [optimizedNcsp2Nspc]; the result is the destination buffer after the
    call. *)
Definition optimizedNcsp2Nspc {A} (schedule : Scheduler3) (inDims : list N)
  (src_data dst_data : N -> A) : N -> A :=
  let stride0 :=
    size_t_mul (size_t_mul (size_t_mul (DIM1 inDims) (DIM2 inDims))
                  (DIM3 inDims)) (DIM4 inDims) in
  let stride1 :=
    size_t_mul (size_t_mul (DIM2 inDims) (DIM3 inDims)) (DIM4 inDims) in
  let stride2 := size_t_mul (DIM2 inDims) (DIM3 inDims) in
  parallel_for3d schedule (DIM0 inDims) (DIM1 inDims) stride2
    (fun dim0 dim1 j dst =>
       let src_off :=
         size_t_add (size_t_add (size_t_mul dim0 stride0)
                       (size_t_mul j (DIM4 inDims)))
                    (size_t_mul dim1 stride1) in
       let dst_off :=
         size_t_add (size_t_add (size_t_mul dim0 stride0)
                       (size_t_mul (size_t_mul j (DIM4 inDims)) (DIM1 inDims)))
                    dim1 in
       copy_loop (N.to_nat (DIM4 inDims)) src_data src_off dst_off
         (DIM1 inDims) dst)
    dst_data.

(** [optimizedNspc2Ncsp]; the result is the destination buffer after the
    call. *)
Definition optimizedNspc2Ncsp {A} (schedule : Scheduler2) (inDims : list N)
  (src_data dst_data : N -> A) : N -> A :=
  let stride1 :=
    size_t_mul (size_t_mul (DIM2 inDims) (DIM3 inDims)) (DIM4 inDims) in
  let stride0 := size_t_mul stride1 (DIM1 inDims) in
  parallel_for2d schedule (DIM0 inDims) stride1
    (fun b j dst =>
       let src_off :=
         size_t_add (size_t_mul b stride0) (size_t_mul j (DIM1 inDims)) in
       let dst_off := size_t_add (size_t_mul b stride0) j in
       copy_loop (N.to_nat (DIM1 inDims)) src_data src_off dst_off stride1 dst)
    dst_data.

(** ** Vocabulary of the layout properties *)

(** A scheduler is fair when it makes exactly the calls below the bounds. *)
Definition fair2 (schedule : Scheduler2) : Prop :=
  forall D0 D1 i0 i1,
    In (i0, i1) (schedule D0 D1) <-> (i0 < D0 /\ i1 < D1)%N.
Definition fair3 (schedule : Scheduler3) : Prop :=
  forall D0 D1 D2 i0 i1 i2,
    In (i0, i1, i2) (schedule D0 D1 D2) <-> (i0 < D0 /\ i1 < D1 /\ i2 < D2)%N.

(** The indices below [n], in increasing order. *)
Definition below (n : N) : list N := List.map N.of_nat (seq 0 (N.to_nat n)).

(** The calls in the order of the nested sequential loops. *)
Definition sequential2 : Scheduler2 :=
  fun D0 D1 =>
    flat_map (fun i0 => List.map (fun i1 => (i0, i1)) (below D1)) (below D0).
Definition sequential3 : Scheduler3 :=
  fun D0 D1 D2 =>
    flat_map (fun i0 =>
      flat_map (fun i1 => List.map (fun i2 => (i0, i1, i2)) (below D2))
               (below D1)) (below D0).

(** The number of elements at one batch index and one channel: the
    product of the spatial dimensions. *)
Definition spatial (inDims : list N) : N :=
  (DIM2 inDims * DIM3 inDims * DIM4 inDims)%N.

(** Offset of the element of batch [b], channel [c] and spatial position
    [s] in the channels-first layout (ncsp) and in the channels-last
    layout (nspc). *)
Definition ncsp_offset (inDims : list N) (b c s : N) : N :=
  (b * (DIM1 inDims * spatial inDims) + c * spatial inDims + s)%N.
Definition nspc_offset (inDims : list N) (b c s : N) : N :=
  (b * (DIM1 inDims * spatial inDims) + s * DIM1 inDims + c)%N.

(** The number of elements of the tensor. *)
Definition element_count (inDims : list N) : N :=
  (DIM0 inDims * (DIM1 inDims * spatial inDims))%N.

(** A small tensor for examples: the source buffer holds its own
    offsets. *)
Definition offsets_buffer : N -> N := fun i => i.
Definition zero_buffer : N -> N := fun _ => 0%N.

(** The offset held by a [size_t] variable after [k] additions of [step]. *)
Definition nth_off (off step : N) (k : nat) : N :=
  Nat.iter k (fun x => size_t_add x step) off.
(** * Properties *)

(** ** Stepping stones for [SelectDevice] *)

(** *** Strings: [find] at position 0 is the prefix test *)

Lemma find_at_0_prefix (s pat : string) :
  find_at_0 s pat = String.prefix pat s.
Proof.
  unfold find_at_0, str_find.
  destruct s as [|b s']; simpl.
  - destruct pat; reflexivity.
  - destruct pat as [|a pat']; [reflexivity|].
    simpl. destruct (Ascii.ascii_dec a b) as [->|Hne].
    + destruct (String.prefix pat' s'); [reflexivity|].
      destruct (String.index 0 (String b pat') s'); reflexivity.
    + destruct (String.index 0 (String a pat') s'); reflexivity.
Qed.

Lemma prefix_head (a : ascii) (pat s : string) :
  String.prefix (String a pat) s = true ->
  exists s', s = String a s'.
Proof.
  destruct s as [|b s']; simpl; [discriminate|].
  destruct (Ascii.ascii_dec a b) as [->|]; [eauto | discriminate].
Qed.

(** The four identifier prefixes start with different letters, so no
    identifier matches two of them. *)
Lemma prefixes_exclusive (d : DeviceName) :
  (is_CPU d = true -> is_MYRIAD d = false /\ is_VPUX d = false /\ is_GPU d = false)
  /\ (is_MYRIAD d = true -> is_CPU d = false /\ is_VPUX d = false /\ is_GPU d = false)
  /\ (is_VPUX d = true -> is_CPU d = false /\ is_MYRIAD d = false /\ is_GPU d = false)
  /\ (is_GPU d = true -> is_CPU d = false /\ is_MYRIAD d = false /\ is_VPUX d = false).
Proof.
  unfold is_CPU, is_MYRIAD, is_VPUX, is_GPU.
  rewrite !find_at_0_prefix.
  repeat match goal with |- _ /\ _ => split end;
    intros H; apply prefix_head in H as [s' ->]; simpl; auto.
Qed.

(** *** The monad *)

Lemma outcome_bind {A B} (m : M A) (f : A -> M B) :
  outcome (bind m f)
  = match outcome m with
    | Ok a => outcome (f a)
    | Throw e => Throw e
    end.
Proof.
  destruct m as [log [a|e]]; simpl; [|reflexivity].
  destruct (f a); reflexivity.
Qed.

Lemma calls_bind {A B} (m : M A) (f : A -> M B) :
  calls (bind m f)
  = match outcome m with
    | Ok a => calls m ++ calls (f a)
    | Throw e => calls m
    end.
Proof.
  destruct m as [log [a|e]]; simpl; [|reflexivity].
  destruct (f a); reflexivity.
Qed.

(** *** Classification computes the five filters *)

Lemma tiers_app_nil_r (t : Tiers) : tiers_app t no_tiers = t.
Proof.
  destruct t; unfold tiers_app; simpl.
  rewrite !app_nil_r. reflexivity.
Qed.

Lemma tiers_app_nil_l (t : Tiers) : tiers_app no_tiers t = t.
Proof. destruct t; reflexivity. Qed.

Lemma tiers_app_assoc (t1 t2 t3 : Tiers) :
  tiers_app (tiers_app t1 t2) t3 = tiers_app t1 (tiers_app t2 t3).
Proof.
  unfold tiers_app; simpl. rewrite <- !app_assoc. reflexivity.
Qed.

Lemma tiers_of_cons (core : ICore) (d : DeviceName) (devs : list DeviceName) :
  tiers_of core (d :: devs) = tiers_app (tiers_of core [d]) (tiers_of core devs).
Proof.
  unfold tiers_of, tiers_app; simpl.
  destruct (is_CPU d), (is_dGPU core d), (is_iGPU core d),
    (is_MYRIAD d), (is_VPUX d); reflexivity.
Qed.

Ltac tiers_eq :=
  unfold tiers_app, tiers_of, push_CPU, push_dGPU, push_iGPU, push_MYRIAD,
    push_VPUX, is_dGPU, is_iGPU; simpl;
  repeat match goal with
         | H : _ = _ |- _ => rewrite H
         end; simpl;
  rewrite ?app_nil_r; try reflexivity.

Lemma classify_item_outcome (core : ICore) (t : Tiers) (d : DeviceName) :
  (is_GPU d = true -> is_Ok (full_device_name core d)) ->
  outcome (classify_item core t d) = Ok (tiers_app t (tiers_of core [d])).
Proof.
  intros Hq. unfold classify_item.
  fold (is_CPU d) (is_MYRIAD d) (is_VPUX d) (is_GPU d).
  destruct (prefixes_exclusive d) as (HC & HM & HV & HG).
  destruct (is_CPU d) eqn:EC.
  { destruct HC as (EM & EV & EG); [reflexivity|].
    simpl. f_equal. destruct t. tiers_eq. }
  destruct (is_MYRIAD d) eqn:EM.
  { destruct HM as (_ & EV & EG); [reflexivity|].
    simpl. f_equal. destruct t. tiers_eq. }
  destruct (is_VPUX d) eqn:EV.
  { destruct HV as (_ & _ & EG); [reflexivity|].
    simpl. f_equal. destruct t. tiers_eq. }
  destruct (is_GPU d) eqn:EG.
  - specialize (Hq eq_refl).
    rewrite outcome_bind. unfold GetMetric_FULL_DEVICE_NAME, outcome at 1; simpl.
    destruct (full_device_name core d) as [name|e] eqn:EN; [|destruct Hq].
    destruct (find_not_npos name "iGPU") eqn:Ei.
    { simpl. f_equal. destruct t. tiers_eq. }
    destruct (find_not_npos name "dGPU") eqn:Ed.
    { simpl. f_equal. destruct t. tiers_eq. }
    simpl. f_equal. destruct t. tiers_eq.
  - simpl. f_equal. destruct t. tiers_eq.
Qed.

Lemma classify_devices_outcome (core : ICore) (devs : list DeviceName) :
  forall t : Tiers,
  (forall d, In d devs -> is_GPU d = true -> is_Ok (full_device_name core d)) ->
  outcome (classify_devices core t devs) = Ok (tiers_app t (tiers_of core devs)).
Proof.
  induction devs as [|d devs IH]; intros t Hq.
  - simpl. rewrite tiers_app_nil_r. reflexivity.
  - simpl classify_devices. rewrite outcome_bind.
    rewrite classify_item_outcome by (apply Hq; left; reflexivity).
    rewrite IH by (intros d' Hd'; apply Hq; right; exact Hd').
    rewrite tiers_app_assoc, <- tiers_of_cons. reflexivity.
Qed.

(** *** Walking a tier *)

Lemma first_capable_cons (core : ICore) (precision : string)
  (item : DeviceName) (rest : list DeviceName) :
  first_capable core (item :: rest) precision
  = do capability <- GetMetric_OPTIMIZATION_CAPABILITIES core item;
    if std_find_found capability precision then ret (Some item)
    else first_capable core rest precision.
Proof. reflexivity. Qed.

Lemma first_capable_outcome (core : ICore) (precision : string)
  (tier : list DeviceName) :
  (forall d, In d tier -> is_Ok (optimization_capabilities core d)) ->
  outcome (first_capable core tier precision)
  = Ok (List.find (advertises core precision) tier).
Proof.
  induction tier as [|d tier IH]; intros Hq; [reflexivity|].
  rewrite first_capable_cons, outcome_bind.
  unfold GetMetric_OPTIMIZATION_CAPABILITIES, outcome at 1.
  cbn [snd List.find]. unfold advertises at 1.
  pose proof (Hq d (or_introl eq_refl)) as Hd.
  destruct (optimization_capabilities core d) as [capability|e]; [|destruct Hd].
  destruct (std_find_found capability precision); [reflexivity|].
  apply IH. intros d' Hd'. apply Hq. right. exact Hd'.
Qed.

Lemma walk_tiers_first_nonempty (core : ICore) (t : Tiers) (precision : string) :
  walk_tiers core t precision
  = first_capable core (first_nonempty_tier t) precision.
Proof.
  unfold walk_tiers, first_nonempty_tier.
  destruct (is_empty (dGPU t)), (is_empty (VPUX t)), (is_empty (iGPU t)),
    (is_empty (MYRIAD t)); reflexivity.
Qed.

Lemma first_nonempty_tier_cases (t : Tiers) :
  first_nonempty_tier t = dGPU t \/ first_nonempty_tier t = VPUX t
  \/ first_nonempty_tier t = iGPU t \/ first_nonempty_tier t = MYRIAD t.
Proof.
  unfold first_nonempty_tier.
  destruct (MYRIAD t) eqn:E4; destruct (iGPU t); destruct (VPUX t);
    destruct (dGPU t); simpl; auto.
Qed.

Lemma In_first_nonempty_tier (core : ICore) (devs : list DeviceName) (d : DeviceName) :
  In d (first_nonempty_tier (tiers_of core devs)) -> In d devs.
Proof.
  intros H.
  destruct (first_nonempty_tier_cases (tiers_of core devs)) as [E|[E|[E|E]]];
    rewrite E in H; simpl in H; apply filter_In in H; tauto.
Qed.

(** *** The outcome of [SelectDevice] when its queries succeed *)

Lemma SelectDevice_outcome (core : ICore) (devs : list DeviceName)
  (networkPrecision : string) :
  2 <= length devs ->
  (forall d, In d devs -> is_GPU d = true -> is_Ok (full_device_name core d)) ->
  (forall d, In d (first_nonempty_tier (tiers_of core devs)) ->
     is_Ok (optimization_capabilities core d)) ->
  outcome (SelectDevice core devs networkPrecision)
  = select_from core (tiers_of core devs) networkPrecision.
Proof.
  intros Hlen Hfull Hcaps.
  destruct devs as [|d1 [|d2 devs]]; simpl in Hlen; [lia | lia |].
  unfold SelectDevice. cbv beta iota. rewrite outcome_bind.
  rewrite classify_devices_outcome by exact Hfull.
  rewrite tiers_app_nil_l.
  revert Hcaps. generalize (tiers_of core (d1 :: d2 :: devs)).
  intros t Hcaps.
  unfold select_from. fold (all_tiers_empty t).
  destruct (all_tiers_empty t); [reflexivity|].
  rewrite outcome_bind, walk_tiers_first_nonempty.
  rewrite first_capable_outcome by exact Hcaps.
  destruct (List.find (advertises core networkPrecision) (first_nonempty_tier t));
    [reflexivity|].
  rewrite outcome_bind.
  destruct (String.eqb networkPrecision "FP32").
  - rewrite walk_tiers_first_nonempty.
    rewrite first_capable_outcome by exact Hcaps.
    destruct (List.find (advertises core "FP16") (first_nonempty_tier t));
      [reflexivity|].
    destruct (CPU t); reflexivity.
  - simpl. destruct (CPU t); reflexivity.
Qed.

(** *** Failures of the core are not hidden *)

Lemma faithful_ret {A} (core : ICore) (a : A) : faithful core (ret a).
Proof. unfold faithful; simpl. constructor. Qed.

Lemma faithful_throw {A} (core : ICore) (e : Exception) :
  faithful core (@throw A e).
Proof. unfold faithful; simpl. right. constructor. Qed.

Lemma faithful_bind {A B} (core : ICore) (m : M A) (f : A -> M B) :
  faithful core m -> (forall a, faithful core (f a)) ->
  faithful core (bind m f).
Proof.
  intros Hm Hf. destruct m as [log [a|e]]; [|exact Hm].
  specialize (Hf a). unfold faithful in *; simpl in *.
  destruct (f a) as [log' [b|e]]; simpl in *.
  - apply Forall_app; split; assumption.
  - destruct Hf as [(l & c & -> & Hl & Hc)|Hall].
    + left. exists (log ++ l), c. rewrite app_assoc.
      repeat split; [|exact Hc]. apply Forall_app; split; assumption.
    + right. apply Forall_app; split; assumption.
Qed.

Lemma faithful_FULL_DEVICE_NAME (core : ICore) (d : DeviceName) :
  faithful core (GetMetric_FULL_DEVICE_NAME core d).
Proof.
  unfold faithful, GetMetric_FULL_DEVICE_NAME; simpl.
  destruct (full_device_name core d) as [name|e] eqn:E.
  - repeat constructor. unfold call_ok; simpl. rewrite E. reflexivity.
  - left. exists [], (CallGetMetric d KEY_FULL_DEVICE_NAME).
    repeat split; [constructor|]. simpl. rewrite E. reflexivity.
Qed.

Lemma faithful_OPTIMIZATION_CAPABILITIES (core : ICore) (d : DeviceName) :
  faithful core (GetMetric_OPTIMIZATION_CAPABILITIES core d).
Proof.
  unfold faithful, GetMetric_OPTIMIZATION_CAPABILITIES; simpl.
  destruct (optimization_capabilities core d) as [capability|e] eqn:E.
  - repeat constructor. unfold call_ok; simpl. rewrite E. reflexivity.
  - left. exists [], (CallGetMetric d KEY_OPTIMIZATION_CAPABILITIES).
    repeat split; [constructor|]. simpl. rewrite E. reflexivity.
Qed.

Create HintDb faithful.

#[local] Hint Resolve faithful_ret faithful_throw faithful_bind
  faithful_FULL_DEVICE_NAME faithful_OPTIMIZATION_CAPABILITIES : faithful.

Lemma faithful_classify_item (core : ICore) (t : Tiers) (d : DeviceName) :
  faithful core (classify_item core t d).
Proof.
  unfold classify_item.
  repeat match goal with
         | |- faithful _ (if ?b then _ else _) => destruct b
         | |- faithful _ (bind _ _) => apply faithful_bind; [|intros ?]
         end; auto with faithful.
Qed.

Lemma faithful_classify_devices (core : ICore) (devs : list DeviceName) :
  forall t, faithful core (classify_devices core t devs).
Proof.
  induction devs as [|d devs IH]; intros t; simpl.
  - apply faithful_ret.
  - apply faithful_bind; [apply faithful_classify_item | intros t'; apply IH].
Qed.

Lemma faithful_first_capable (core : ICore) (precision : string)
  (tier : list DeviceName) :
  faithful core (first_capable core tier precision).
Proof.
  induction tier as [|d tier IH].
  - apply faithful_ret.
  - rewrite first_capable_cons. apply faithful_bind; [auto with faithful|].
    intros capability.
    destruct (std_find_found capability precision); auto with faithful.
Qed.

Lemma faithful_walk_tiers (core : ICore) (t : Tiers) (precision : string) :
  faithful core (walk_tiers core t precision).
Proof.
  rewrite walk_tiers_first_nonempty. apply faithful_first_capable.
Qed.

Lemma faithful_SelectDevice (core : ICore) (devs : list DeviceName)
  (networkPrecision : string) :
  faithful core (SelectDevice core devs networkPrecision).
Proof.
  unfold SelectDevice.
  destruct devs as [|d1 [|d2 devs]]; auto with faithful.
  apply faithful_bind; [apply faithful_classify_devices|]. intros t.
  match goal with |- faithful _ (if ?b then _ else _) => destruct b end;
    auto with faithful.
  apply faithful_bind; [apply faithful_walk_tiers|]. intros [item|];
    auto with faithful.
  apply faithful_bind.
  - destruct (String.eqb networkPrecision "FP32");
      [apply faithful_walk_tiers | apply faithful_ret].
  - intros [item|]; auto with faithful.
    destruct (CPU t); auto with faithful.
Qed.

Lemma faithful_failure {A} (core : ICore) (m : M A) (c : Call) (e : Exception) :
  faithful core m -> In c (calls m) -> call_failure core c = Some e ->
  outcome m = Throw e.
Proof.
  unfold faithful. intros Hm Hin Hc.
  assert (Hno : forall log, Forall (call_ok core) log -> ~ In c log).
  { intros log Hall Hc'. rewrite Forall_forall in Hall.
    apply list_elem_of_In in Hc'.
    specialize (Hall c Hc'). unfold call_ok in Hall. congruence. }
  destruct (outcome m) as [a|e0].
  - exfalso. exact (Hno _ Hm Hin).
  - destruct Hm as [(log & c0 & Hlog & Hall & Hc0)|Hall].
    + rewrite Hlog in Hin. apply in_app_or in Hin as [Hin|[<-|[]]].
      * exfalso. exact (Hno _ Hall Hin).
      * congruence.
    + exfalso. exact (Hno _ Hall Hin).
Qed.

(** *** The calls made by the two loops *)

Lemma classify_item_calls (core : ICore) (t : Tiers) (d : DeviceName) :
  calls (classify_item core t d)
  = if is_GPU d then [CallGetMetric d KEY_FULL_DEVICE_NAME] else [].
Proof.
  unfold classify_item.
  fold (is_CPU d) (is_MYRIAD d) (is_VPUX d) (is_GPU d).
  destruct (prefixes_exclusive d) as (HC & HM & HV & HG).
  destruct (is_CPU d).
  { destruct HC as (_ & _ & ->); reflexivity. }
  destruct (is_MYRIAD d).
  { destruct HM as (_ & _ & ->); reflexivity. }
  destruct (is_VPUX d).
  { destruct HV as (_ & _ & ->); reflexivity. }
  destruct (is_GPU d); [|reflexivity].
  rewrite calls_bind. unfold GetMetric_FULL_DEVICE_NAME; simpl.
  destruct (full_device_name core d) as [name|e]; [|reflexivity].
  destruct (find_not_npos name "iGPU"); [reflexivity|].
  destruct (find_not_npos name "dGPU"); reflexivity.
Qed.

Lemma classify_devices_calls (core : ICore) (devs : list DeviceName) :
  forall t : Tiers,
  (forall d, In d devs -> is_GPU d = true -> is_Ok (full_device_name core d)) ->
  calls (classify_devices core t devs)
  = List.map (fun d => CallGetMetric d KEY_FULL_DEVICE_NAME)
             (List.filter is_GPU devs).
Proof.
  induction devs as [|d devs IH]; intros t Hq; [reflexivity|].
  simpl classify_devices. rewrite calls_bind.
  rewrite classify_item_outcome by (apply Hq; left; reflexivity).
  rewrite classify_item_calls, IH by (intros d' Hd'; apply Hq; right; exact Hd').
  simpl. destruct (is_GPU d); reflexivity.
Qed.

Lemma first_capable_calls_no_match (core : ICore) (precision : string)
  (tier : list DeviceName) :
  (forall d, In d tier -> is_Ok (optimization_capabilities core d)) ->
  List.find (advertises core precision) tier = None ->
  calls (first_capable core tier precision)
  = List.map (fun d => CallGetMetric d KEY_OPTIMIZATION_CAPABILITIES) tier.
Proof.
  induction tier as [|d tier IH]; intros Hq Hnone; [reflexivity|].
  rewrite first_capable_cons, calls_bind.
  simpl in Hnone. unfold advertises at 1 in Hnone.
  unfold GetMetric_OPTIMIZATION_CAPABILITIES, outcome at 1, calls at 1.
  cbn [fst snd].
  pose proof (Hq d (or_introl eq_refl)) as Hd.
  destruct (optimization_capabilities core d) as [capability|e]; [|destruct Hd].
  destruct (std_find_found capability precision); [discriminate|].
  rewrite IH; [reflexivity | | exact Hnone].
  intros d' Hd'. apply Hq. right. exact Hd'.
Qed.

(** *** First match in a list *)

Lemma find_first {A} (p : A -> bool) (before after : list A) (x : A) :
  p x = true -> (forall y, In y before -> p y = false) ->
  List.find p (before ++ x :: after) = Some x.
Proof.
  intros Hx Hb. induction before as [|y before IH]; simpl.
  - rewrite Hx. reflexivity.
  - rewrite (Hb y (or_introl eq_refl)). apply IH.
    intros z Hz. apply Hb. right. exact Hz.
Qed.

Lemma find_split {A} (p : A -> bool) (l : list A) (x : A) :
  List.find p l = Some x ->
  exists before after, l = before ++ x :: after /\ p x = true
                       /\ forall y, In y before -> p y = false.
Proof.
  induction l as [|y l IH]; simpl; [discriminate|].
  destruct (p y) eqn:Ey.
  - intros [= ->]. exists [], l. repeat split; [exact Ey|]. intros z [].
  - intros H. destruct (IH H) as (before & after & -> & Hx & Hb).
    exists (y :: before), after. repeat split; [exact Hx|].
    intros z [<-|Hz]; [exact Ey | apply Hb, Hz].
Qed.

Lemma find_none_intro {A} (p : A -> bool) (l : list A) :
  (forall y, In y l -> p y = false) -> List.find p l = None.
Proof.
  intros H. induction l as [|y l IH]; simpl; [reflexivity|].
  rewrite (H y (or_introl eq_refl)). apply IH.
  intros z Hz. apply H. right. exact Hz.
Qed.

Lemma find_exists {A} (p : A -> bool) (l : list A) (x : A) :
  In x l -> p x = true -> exists y, List.find p l = Some y.
Proof.
  intros Hin Hx. destruct (List.find p l) as [y|] eqn:E; [eauto|].
  rewrite (List.find_none p l E x Hin) in Hx. discriminate.
Qed.

(** ** Properties of [SelectDevice] *)

Example SelectDevice_demo :
  SelectDevice demo_core ["CPU"; "GPU.1"; "GPU.0"] "FP32"
  = ([CallGetMetric "GPU.1" KEY_FULL_DEVICE_NAME;
      CallGetMetric "GPU.0" KEY_FULL_DEVICE_NAME;
      CallGetMetric "GPU.0" KEY_OPTIMIZATION_CAPABILITIES], Ok "GPU.0").
Proof. reflexivity. Qed.

Lemma first_nonempty_tier_not_all_empty (t : Tiers) :
  first_nonempty_tier t <> [] -> all_tiers_empty t = false.
Proof.
  unfold first_nonempty_tier, all_tiers_empty.
  destruct (dGPU t), (VPUX t), (iGPU t), (MYRIAD t); simpl; intros H;
    try (exfalso; apply H; reflexivity);
    rewrite ?andb_false_r; reflexivity.
Qed.

Lemma queries_succeed_full (core : ICore) (devs : list DeviceName) :
  queries_succeed core devs ->
  forall d, In d devs -> is_GPU d = true -> is_Ok (full_device_name core d).
Proof. intros H d Hd _. apply (H d Hd). Qed.

Lemma queries_succeed_caps (core : ICore) (devs : list DeviceName) :
  queries_succeed core devs ->
  forall d, In d (first_nonempty_tier (tiers_of core devs)) ->
    is_Ok (optimization_capabilities core d).
Proof.
  intros H d Hd. apply In_first_nonempty_tier in Hd. apply (H d Hd).
Qed.

(** With successful queries, the first member of the walked tier that
    advertises the requested precision is the device selected. *)
Lemma SelectDevice_first_match (core : ICore) (devs : list DeviceName)
  (precision : string) (item : DeviceName) :
  2 <= length devs ->
  queries_succeed core devs ->
  List.find (advertises core precision) (first_nonempty_tier (tiers_of core devs))
  = Some item ->
  outcome (SelectDevice core devs precision) = Ok item.
Proof.
  intros Hlen Hq Hfind.
  rewrite SelectDevice_outcome;
    [| exact Hlen | apply queries_succeed_full, Hq
     | apply queries_succeed_caps, Hq].
  unfold select_from.
  rewrite first_nonempty_tier_not_all_empty.
  - rewrite Hfind. reflexivity.
  - intros E. rewrite E in Hfind. discriminate.
Qed.

Lemma is_dGPU_not_other (core : ICore) (d : DeviceName) :
  is_dGPU core d = true ->
  is_CPU d = false /\ is_VPUX d = false /\ is_iGPU core d = false
  /\ is_MYRIAD d = false.
Proof.
  unfold is_dGPU, is_iGPU. intros H.
  apply andb_true_iff in H as [HG Hname]. rewrite HG.
  destruct (prefixes_exclusive d) as (_ & _ & _ & Hx).
  destruct (Hx HG) as (-> & -> & ->).
  repeat split. simpl.
  destruct (full_device_name core d) as [name|]; [|reflexivity].
  apply andb_true_iff in Hname as [Hi _].
  destruct (find_not_npos name "iGPU"); [discriminate | reflexivity].
Qed.

(** C1: on a list of two or more devices whose queries all succeed and
    that holds a discrete-GPU member advertising the requested precision,
    [SelectDevice] returns a member of the dGPU tier, which is then the
    first non-empty tier of the order dGPU, VPUX, iGPU, MYRIAD, and in it
    the first member advertising the precision; the device returned is
    neither of the processor tier nor of a lower-priority tier. *)
Theorem SelectDevice_prefers_dGPU (core : ICore) (devs : list DeviceName)
  (precision : string) :
  2 <= length devs ->
  queries_succeed core devs ->
  (exists d, In d devs /\ is_dGPU core d = true
             /\ advertises core precision d = true) ->
  exists item before after,
    outcome (SelectDevice core devs precision) = Ok item
    /\ first_nonempty_tier (tiers_of core devs) = List.filter (is_dGPU core) devs
    /\ List.filter (is_dGPU core) devs = before ++ item :: after
    /\ advertises core precision item = true
    /\ (forall x, In x before -> advertises core precision x = false)
    /\ In item devs /\ is_dGPU core item = true
    /\ is_CPU item = false /\ is_VPUX item = false
    /\ is_iGPU core item = false /\ is_MYRIAD item = false.
Proof.
  intros Hlen Hq (d & Hd & HdG & Hadv).
  assert (Hin : In d (List.filter (is_dGPU core) devs))
    by (apply filter_In; split; assumption).
  assert (Hfirst : first_nonempty_tier (tiers_of core devs)
                   = List.filter (is_dGPU core) devs).
  { unfold first_nonempty_tier. simpl.
    destruct (List.filter (is_dGPU core) devs); [destruct Hin | reflexivity]. }
  destruct (find_exists (advertises core precision) _ d Hin Hadv) as [item Hfind].
  destruct (find_split _ _ _ Hfind) as (before & after & Hsplit & Hitem & Hbefore).
  assert (Hitem_in : In item (List.filter (is_dGPU core) devs)).
  { rewrite Hsplit. apply in_or_app. right. left. reflexivity. }
  apply filter_In in Hitem_in as [Hitem_devs Hitem_dGPU].
  exists item, before, after.
  split.
  { apply SelectDevice_first_match; try assumption.
    rewrite Hfirst. exact Hfind. }
  pose proof (is_dGPU_not_other core item Hitem_dGPU) as (? & ? & ? & ?).
  repeat split; assumption.
Qed.

Lemma SelectDevice_prefers_dGPU_witness :
  exists item before after,
    outcome (SelectDevice demo_core ["CPU"; "GPU.1"; "GPU.0"] "FP32") = Ok item
    /\ first_nonempty_tier (tiers_of demo_core ["CPU"; "GPU.1"; "GPU.0"])
       = List.filter (is_dGPU demo_core) ["CPU"; "GPU.1"; "GPU.0"]
    /\ List.filter (is_dGPU demo_core) ["CPU"; "GPU.1"; "GPU.0"]
       = before ++ item :: after
    /\ advertises demo_core "FP32" item = true
    /\ (forall x, In x before -> advertises demo_core "FP32" x = false)
    /\ In item ["CPU"; "GPU.1"; "GPU.0"] /\ is_dGPU demo_core item = true
    /\ is_CPU item = false /\ is_VPUX item = false
    /\ is_iGPU demo_core item = false /\ is_MYRIAD item = false.
Proof.
  apply (SelectDevice_prefers_dGPU demo_core ["CPU"; "GPU.1"; "GPU.0"] "FP32").
  - simpl. lia.
  - intros d [<-|[<-|[<-|[]]]]; split; exact I.
  - exists "GPU.0". repeat split.
    right. right. left. reflexivity.
Defined.

(** C2 as stated fails: a device advertising FP16 that sits in a tier
    after the first non-empty one is not considered. Here the discrete
    GPU offers INT8 only and the integrated GPU offers FP16; nobody
    advertises FP32, and the FP32 request ends in an error instead of
    returning the integrated GPU. *)
Lemma SelectDevice_FP16_in_later_tier_ignored :
  queries_succeed int8_dgpu_core ["GPU.0"; "GPU.1"]
  /\ (forall d, In d ["GPU.0"; "GPU.1"] ->
        advertises int8_dgpu_core "FP32" d = false)
  /\ In "GPU.1" ["GPU.0"; "GPU.1"]
  /\ advertises int8_dgpu_core "FP16" "GPU.1" = true
  /\ outcome (SelectDevice int8_dgpu_core ["GPU.0"; "GPU.1"] "FP32")
     = Throw (GeneralError "Cannot select any device")
  /\ outcome (SelectDevice int8_dgpu_core ["GPU.0"; "GPU.1"] "FP32")
     <> Ok "GPU.1".
Proof.
  split; [intros d [<-|[<-|[]]]; split; exact I|].
  split; [intros d [<-|[<-|[]]]; reflexivity|].
  split; [right; left; reflexivity|].
  split; [reflexivity|].
  split; [reflexivity | discriminate].
Qed.

(** The calls of [SelectDevice] when the walked tier has no member for a
    precision other than FP32: one full-name query per GPU-prefixed device,
    then one capability query per member of the walked tier, and nothing
    more. *)
Lemma SelectDevice_calls_single_pass (core : ICore) (devs : list DeviceName)
  (precision : string) :
  2 <= length devs ->
  queries_succeed core devs ->
  first_nonempty_tier (tiers_of core devs) <> [] ->
  List.find (advertises core precision) (first_nonempty_tier (tiers_of core devs))
  = None ->
  precision <> "FP32" ->
  calls (SelectDevice core devs precision)
  = List.map (fun d => CallGetMetric d KEY_FULL_DEVICE_NAME)
      (List.filter is_GPU devs)
    ++ List.map (fun d => CallGetMetric d KEY_OPTIMIZATION_CAPABILITIES)
         (first_nonempty_tier (tiers_of core devs)).
Proof.
  intros Hlen Hq Hne Hfind Hp.
  pose proof (queries_succeed_full core devs Hq) as Hfull.
  pose proof (queries_succeed_caps core devs Hq) as Hcaps.
  apply first_nonempty_tier_not_all_empty in Hne.
  destruct devs as [|d1 [|d2 devs]]; simpl in Hlen; [lia | lia |].
  unfold SelectDevice. cbv beta iota. rewrite calls_bind.
  rewrite classify_devices_outcome, classify_devices_calls by exact Hfull.
  rewrite tiers_app_nil_l.
  revert Hcaps Hne Hfind. generalize (tiers_of core (d1 :: d2 :: devs)).
  intros t Hcaps Hne Hfind. f_equal.
  fold (all_tiers_empty t). rewrite Hne.
  rewrite calls_bind, walk_tiers_first_nonempty.
  rewrite first_capable_outcome, Hfind by exact Hcaps.
  rewrite first_capable_calls_no_match by assumption.
  apply String.eqb_neq in Hp. rewrite Hp.
  rewrite calls_bind. simpl. destruct (CPU t); simpl; apply app_nil_r.
Qed.

(** C2 (amended): on a list of two or more devices whose queries succeed,
    when no member of the first non-empty tier (dGPU, VPUX, iGPU, MYRIAD)
    advertises the requested precision: if the request is FP32,
    [SelectDevice] returns the first member of that same tier advertising
    FP16; if the request is not FP32 there is no second pass: the result
    is the first processor-tier device, or the selection error when there
    is none, and each member of the tier was queried once. *)
Theorem SelectDevice_FP16_offload (core : ICore) (devs : list DeviceName)
  (precision : string) :
  2 <= length devs ->
  queries_succeed core devs ->
  first_nonempty_tier (tiers_of core devs) <> [] ->
  (forall d, In d (first_nonempty_tier (tiers_of core devs)) ->
     advertises core precision d = false) ->
  (precision = "FP32" ->
   forall before item after,
     first_nonempty_tier (tiers_of core devs) = before ++ item :: after ->
     advertises core "FP16" item = true ->
     (forall x, In x before -> advertises core "FP16" x = false) ->
     outcome (SelectDevice core devs precision) = Ok item)
  /\ (precision <> "FP32" ->
      outcome (SelectDevice core devs precision)
      = match CPU (tiers_of core devs) with
        | [] => Throw (GeneralError "Cannot select any device")
        | cpu0 :: _ => Ok cpu0
        end
      /\ calls (SelectDevice core devs precision)
         = List.map (fun d => CallGetMetric d KEY_FULL_DEVICE_NAME)
             (List.filter is_GPU devs)
           ++ List.map (fun d => CallGetMetric d KEY_OPTIMIZATION_CAPABILITIES)
                (first_nonempty_tier (tiers_of core devs))).
Proof.
  intros Hlen Hq Hne Hnone.
  apply find_none_intro in Hnone.
  assert (Hout : outcome (SelectDevice core devs precision)
                 = select_from core (tiers_of core devs) precision).
  { apply SelectDevice_outcome;
      [exact Hlen | apply queries_succeed_full, Hq
       | apply queries_succeed_caps, Hq]. }
  unfold select_from in Hout.
  rewrite (first_nonempty_tier_not_all_empty _ Hne), Hnone in Hout.
  split.
  - intros -> before item after Hsplit Hitem Hbefore.
    rewrite Hout. simpl String.eqb. cbv iota.
    rewrite Hsplit, (find_first _ before after item Hitem Hbefore).
    reflexivity.
  - intros Hp. split.
    + rewrite Hout. apply String.eqb_neq in Hp. rewrite Hp. reflexivity.
    + apply SelectDevice_calls_single_pass; assumption.
Qed.

Lemma SelectDevice_FP16_offload_witness :
  outcome (SelectDevice demo_core ["CPU"; "GPU.1"] "FP32") = Ok "GPU.1"
  /\ outcome (SelectDevice demo_core ["CPU"; "GPU.1"] "INT8") = Ok "CPU".
Proof.
  assert (Hlen : 2 <= length ["CPU"; "GPU.1"]) by (simpl; lia).
  assert (Hq : queries_succeed demo_core ["CPU"; "GPU.1"])
    by (intros d [<-|[<-|[]]]; split; exact I).
  assert (Hne : first_nonempty_tier (tiers_of demo_core ["CPU"; "GPU.1"]) <> [])
    by discriminate.
  split.
  - refine (proj1 (SelectDevice_FP16_offload demo_core ["CPU"; "GPU.1"] "FP32"
                     Hlen Hq Hne _) eq_refl [] "GPU.1" [] eq_refl eq_refl _).
    + intros d [<-|[]]. reflexivity.
    + intros x [].
  - refine (proj1 (proj2 (SelectDevice_FP16_offload demo_core ["CPU"; "GPU.1"]
                            "INT8" Hlen Hq Hne _) _)).
    + intros d [<-|[]]. reflexivity.
    + discriminate.
Defined.

(** C3 as stated fails: the full-name query of the GPU throws, and
    [SelectDevice] ends with that exception instead of skipping the GPU
    and returning the processor. *)
Lemma SelectDevice_query_failure_escapes :
  In "GPU.0" ["CPU"; "GPU.0"]
  /\ full_device_name failing_gpu_core "GPU.0"
     = Throw (GeneralError "device query failed")
  /\ SelectDevice failing_gpu_core ["CPU"; "GPU.0"] "FP32"
     = ([CallGetMetric "GPU.0" KEY_FULL_DEVICE_NAME],
        Throw (GeneralError "device query failed"))
  /\ outcome (SelectDevice failing_gpu_core ["CPU"; "GPU.0"] "FP32")
     <> Ok "CPU".
Proof.
  split; [right; left; reflexivity|].
  split; [reflexivity|].
  split; [reflexivity | discriminate].
Qed.

Lemma classify_devices_failure (core : ICore) (devs : list DeviceName) :
  forall (t : Tiers) (d : DeviceName) (e : Exception),
  In d devs -> is_GPU d = true -> full_device_name core d = Throw e ->
  exists e', outcome (classify_devices core t devs) = Throw e'.
Proof.
  induction devs as [|d0 devs IH]; intros t d e Hin HG He; [destruct Hin|].
  simpl classify_devices. rewrite outcome_bind.
  destruct (outcome (classify_item core t d0)) as [t'|e'] eqn:E0; [|eauto].
  destruct Hin as [->|Hin]; [|eapply IH; eassumption].
  exfalso. revert E0. unfold classify_item.
  fold (is_CPU d) (is_MYRIAD d) (is_VPUX d) (is_GPU d).
  destruct (prefixes_exclusive d) as (_ & _ & _ & Hx).
  destruct (Hx HG) as (-> & -> & ->). rewrite HG, outcome_bind.
  unfold GetMetric_FULL_DEVICE_NAME, outcome at 1; simpl.
  rewrite He. discriminate.
Qed.

(** C3 (amended): a failed query is not caught. Whenever a query that
    [SelectDevice] made to the core failed, [SelectDevice] ends with the
    exception of that query; in particular, on two devices or more, a
    GPU-prefixed device whose full-name query fails makes [SelectDevice]
    fail instead of being skipped. *)
Theorem SelectDevice_propagates_query_failure (core : ICore)
  (devs : list DeviceName) (precision : string) :
  (forall c e, In c (calls (SelectDevice core devs precision)) ->
     call_failure core c = Some e ->
     outcome (SelectDevice core devs precision) = Throw e)
  /\ (2 <= length devs ->
      forall d e, In d devs -> is_GPU d = true ->
        full_device_name core d = Throw e ->
        exists e', outcome (SelectDevice core devs precision) = Throw e').
Proof.
  split.
  - intros c e. apply faithful_failure, faithful_SelectDevice.
  - intros Hlen d e Hd HG He.
    destruct devs as [|d1 [|d2 devs]]; simpl in Hlen; [lia | lia |].
    unfold SelectDevice. cbv beta iota. rewrite outcome_bind.
    destruct (classify_devices_failure core _ no_tiers d e Hd HG He) as [e' ->].
    eauto.
Qed.

Lemma SelectDevice_propagates_query_failure_witness :
  outcome (SelectDevice failing_gpu_core ["CPU"; "GPU.0"] "FP32")
  = Throw (GeneralError "device query failed")
  /\ exists e',
       outcome (SelectDevice failing_gpu_core ["CPU"; "GPU.0"] "FP32")
       = Throw e'.
Proof.
  split.
  - apply (proj1 (SelectDevice_propagates_query_failure
                    failing_gpu_core ["CPU"; "GPU.0"] "FP32")
             (CallGetMetric "GPU.0" KEY_FULL_DEVICE_NAME)).
    + left. reflexivity.
    + reflexivity.
  - apply (proj2 (SelectDevice_propagates_query_failure
                    failing_gpu_core ["CPU"; "GPU.0"] "FP32")
             ltac:(simpl; lia) "GPU.0" (GeneralError "device query failed")).
    + right. left. reflexivity.
    + reflexivity.
    + reflexivity.
Defined.

(** C5 as stated fails on a list of one device: the sole entry is
    returned before any classification, whatever its prefix. *)
Lemma SelectDevice_sole_unrecognized_device :
  (forall d, In d ["FPGA"] -> unrecognized d)
  /\ SelectDevice demo_core ["FPGA"] "FP32" = ([], Ok "FPGA").
Proof.
  split; [|reflexivity].
  intros d [<-|[]]. repeat split.
Qed.

Lemma unrecognized_tiers (core : ICore) (devs : list DeviceName) :
  (forall d, In d devs -> unrecognized d) ->
  tiers_of core devs = no_tiers /\ List.filter is_GPU devs = [].
Proof.
  induction devs as [|d devs IH]; intros H; [split; reflexivity|].
  destruct IH as [IHt IHg]; [intros d' Hd'; apply H; right; exact Hd'|].
  destruct (H d (or_introl eq_refl)) as (EC & EM & EV & EG).
  rewrite tiers_of_cons, IHt. simpl List.filter. rewrite EG, IHg.
  split; [|reflexivity].
  unfold tiers_of, is_dGPU, is_iGPU; simpl.
  rewrite EC, EM, EV, EG. reflexivity.
Qed.

(** C5 (amended): [SelectDevice] on the empty list fails with [NotFound]
    ("No available device to select in AUTO plugin"); a list of exactly
    one device returns that device, whatever its prefix; on every list of
    two or more devices that match none of the recognized prefixes it
    fails with [NotFound] ("No available device found"). In the three
    cases the core is not queried. *)
Theorem SelectDevice_unrecognized (core : ICore) (devs : list DeviceName)
  (precision : string) :
  (devs = [] ->
   SelectDevice core devs precision
   = ([], Throw (NotFound "No available device to select in AUTO plugin")))
  /\ (forall d, devs = [d] -> SelectDevice core devs precision = ([], Ok d))
  /\ (2 <= length devs ->
      (forall d, In d devs -> unrecognized d) ->
      SelectDevice core devs precision
      = ([], Throw (NotFound "No available device found"))).
Proof.
  split; [intros ->; reflexivity|].
  split; [intros d ->; reflexivity|].
  intros Hlen Hun.
  destruct devs as [|d1 [|d2 devs]]; [simpl in Hlen; lia | simpl in Hlen; lia |].
  destruct (unrecognized_tiers core _ Hun) as [Ht Hg].
  assert (Hfull : forall d, In d (d1 :: d2 :: devs) -> is_GPU d = true ->
                    is_Ok (full_device_name core d)).
  { intros d Hd HG. destruct (Hun d Hd) as (_ & _ & _ & E). congruence. }
  rewrite (surjective_pairing (SelectDevice core (d1 :: d2 :: devs) precision)).
  f_equal.
  - change (calls (SelectDevice core (d1 :: d2 :: devs) precision) = []).
    unfold SelectDevice. cbv beta iota. rewrite calls_bind.
    rewrite classify_devices_outcome, classify_devices_calls by exact Hfull.
    rewrite Hg, Ht. reflexivity.
  - change (outcome (SelectDevice core (d1 :: d2 :: devs) precision)
            = Throw (NotFound "No available device found")).
    unfold SelectDevice. cbv beta iota. rewrite outcome_bind.
    rewrite classify_devices_outcome by exact Hfull.
    rewrite Ht. reflexivity.
Qed.

Lemma SelectDevice_unrecognized_witness :
  SelectDevice demo_core [] "FP32"
  = ([], Throw (NotFound "No available device to select in AUTO plugin"))
  /\ SelectDevice demo_core ["HDDL"] "FP32" = ([], Ok "HDDL")
  /\ SelectDevice demo_core ["FPGA"; "HDDL"] "FP32"
     = ([], Throw (NotFound "No available device found")).
Proof.
  split; [|split].
  - apply (proj1 (SelectDevice_unrecognized demo_core [] "FP32")).
    reflexivity.
  - apply (proj1 (proj2 (SelectDevice_unrecognized demo_core ["HDDL"] "FP32"))).
    reflexivity.
  - apply (proj2 (proj2 (SelectDevice_unrecognized demo_core ["FPGA"; "HDDL"]
                           "FP32"))).
    + simpl. lia.
    + intros d [<-|[<-|[]]]; repeat split.
Defined.

(** C9 as stated fails: a device with the generic accelerator prefix
    whose full name carries neither marker lands in no vector. *)
Lemma classify_devices_drops_unmarked_GPU :
  In "GPU.0" ["CPU"; "GPU.0"]
  /\ is_GPU "GPU.0" = true
  /\ full_device_name unmarked_gpu_core "GPU.0" = Ok "Intel(R) HD Graphics"
  /\ outcome (classify_devices unmarked_gpu_core no_tiers ["CPU"; "GPU.0"])
     = Ok {| CPU := ["CPU"]; dGPU := []; iGPU := []; MYRIAD := []; VPUX := [] |}
  /\ buckets_holding
       {| CPU := ["CPU"]; dGPU := []; iGPU := []; MYRIAD := []; VPUX := [] |}
       "GPU.0" = 0.
Proof.
  split; [right; left; reflexivity|].
  repeat split.
Qed.

Lemma occurs_filter (p : DeviceName -> bool) (devs : list DeviceName)
  (d : DeviceName) :
  In d devs -> occurs d (List.filter p devs) = if p d then 1 else 0.
Proof.
  intros Hd. unfold occurs.
  destruct (existsb (String.eqb d) (List.filter p devs)) eqn:E.
  - apply existsb_exists in E as (x & Hx & Hdx).
    apply String.eqb_eq in Hdx as <-.
    apply filter_In in Hx as [_ ->]. reflexivity.
  - destruct (p d) eqn:Ep; [|reflexivity].
    assert (existsb (String.eqb d) (List.filter p devs) = true); [|congruence].
    apply existsb_exists. exists d. split; [|apply String.eqb_refl].
    apply filter_In. split; assumption.
Qed.

(** C9 (amended): when the full-name queries succeed, classification
    yields the five filters of the device list. A device with the
    processor, MYRIAD or VPUX prefix lies in exactly one vector; a device
    with the GPU prefix lies in the integrated vector when its full name
    contains "iGPU", otherwise in the discrete vector when it contains
    "dGPU", and otherwise in none; no device lies in two vectors, and a
    device matching no prefix lies in none. *)
Theorem classify_devices_buckets (core : ICore) (devs : list DeviceName) :
  (forall d, In d devs -> is_GPU d = true -> is_Ok (full_device_name core d)) ->
  exists t,
    outcome (classify_devices core no_tiers devs) = Ok t
    /\ CPU t = List.filter is_CPU devs
    /\ MYRIAD t = List.filter is_MYRIAD devs
    /\ VPUX t = List.filter is_VPUX devs
    /\ iGPU t = List.filter (is_iGPU core) devs
    /\ dGPU t = List.filter (is_dGPU core) devs
    /\ forall d, In d devs ->
         buckets_holding t d
         = (if is_CPU d || is_MYRIAD d || is_VPUX d
               || is_iGPU core d || is_dGPU core d then 1 else 0)
         /\ (unrecognized d -> buckets_holding t d = 0)
         /\ (is_GPU d = true ->
             forall name, full_device_name core d = Ok name ->
               buckets_holding t d
               = if find_not_npos name "iGPU" || find_not_npos name "dGPU"
                 then 1 else 0).
Proof.
  intros Hfull. exists (tiers_of core devs).
  split.
  { rewrite classify_devices_outcome by exact Hfull.
    rewrite tiers_app_nil_l. reflexivity. }
  repeat (split; [reflexivity|]).
  intros d Hd.
  assert (Hcount : buckets_holding (tiers_of core devs) d
                   = (if is_CPU d then 1 else 0) + (if is_dGPU core d then 1 else 0)
                     + (if is_iGPU core d then 1 else 0)
                     + (if is_MYRIAD d then 1 else 0) + (if is_VPUX d then 1 else 0)).
  { unfold buckets_holding, tiers_of; simpl.
    rewrite !occurs_filter by exact Hd. reflexivity. }
  rewrite Hcount. clear Hcount.
  destruct (prefixes_exclusive d) as (HC & HM & HV & HG).
  unfold is_iGPU, is_dGPU, unrecognized.
  split; [|split].
  - destruct (is_CPU d); [destruct HC as (-> & -> & ->); reflexivity|].
    destruct (is_MYRIAD d); [destruct HM as (_ & -> & ->); reflexivity|].
    destruct (is_VPUX d); [destruct HV as (_ & _ & ->); reflexivity|].
    destruct (is_GPU d); [|reflexivity]. simpl.
    destruct (full_device_name core d) as [name|]; [|reflexivity].
    destruct (find_not_npos name "iGPU"), (find_not_npos name "dGPU");
      reflexivity.
  - intros (-> & -> & -> & ->). reflexivity.
  - intros EG name Hname. destruct (HG EG) as (-> & -> & ->).
    rewrite EG, Hname. simpl.
    destruct (find_not_npos name "iGPU"), (find_not_npos name "dGPU");
      reflexivity.
Qed.

Lemma classify_devices_buckets_witness :
  exists t,
    outcome (classify_devices demo_core no_tiers ["CPU"; "GPU.1"; "GPU.0"; "FPGA"])
    = Ok t
    /\ CPU t = ["CPU"] /\ iGPU t = ["GPU.1"] /\ dGPU t = ["GPU.0"]
    /\ buckets_holding t "GPU.0" = 1 /\ buckets_holding t "FPGA" = 0.
Proof.
  assert (Hfull : forall d, In d ["CPU"; "GPU.1"; "GPU.0"; "FPGA"] ->
            is_GPU d = true -> is_Ok (full_device_name demo_core d)).
  { intros d [<-|[<-|[<-|[<-|[]]]]] HG; try exact I. discriminate HG. }
  destruct (classify_devices_buckets demo_core
              ["CPU"; "GPU.1"; "GPU.0"; "FPGA"] Hfull)
    as (t & Ht & HC & _ & _ & Hi & Hd & Hb).
  exists t. split; [exact Ht|].
  split; [exact HC|]. split; [exact Hi|]. split; [exact Hd|].
  split.
  - exact (proj1 (Hb "GPU.0" (or_intror (or_intror (or_introl eq_refl))))).
  - exact (proj1 (Hb "FPGA"
                    (or_intror (or_intror (or_intror (or_introl eq_refl)))))).
Defined.

(** ** Properties of [GetNetworkPrecision] *)

Lemma scan_ops_passed_over (before rest : list Node) :
  (forall n, In n before -> passed_over n) ->
  scan_ops (before ++ rest) = scan_ops rest.
Proof.
  induction before as [|n before IH]; intros H; [reflexivity|].
  simpl. destruct (H n (or_introl eq_refl)) as [Hn|(ty & Hty & H32 & H16)].
  - rewrite Hn. apply IH. intros m Hm. apply H. right. exact Hm.
  - destruct (is_convolution_family n).
    + unfold input_1_type_name. unfold weights_type in Hty. rewrite Hty.
      apply String.eqb_neq in H32, H16. rewrite H32, H16.
      apply IH. intros m Hm. apply H. right. exact Hm.
    + apply IH. intros m Hm. apply H. right. exact Hm.
Qed.

(** C6: a graph holding a FakeQuantize operator is classified INT8,
    whatever else it holds. Otherwise the operators are scanned in order
    and the first convolution-family operator whose weights operand (its
    second input) has type name "f32" or "f16" decides FP32 or FP16;
    when every operator is passed over (no convolution-family operator, or
    none with a recognized type name) the result is FP32. *)
Theorem GetNetworkPrecision_classifies (nGraphFunc : Function) :
  (has_op_with_type_FakeQuantize nGraphFunc = true ->
   GetNetworkPrecision nGraphFunc = Ok "INT8")
  /\ (has_op_with_type_FakeQuantize nGraphFunc = false ->
      forall before node after,
        get_ordered_ops nGraphFunc = before ++ node :: after ->
        (forall n, In n before -> passed_over n) ->
        is_convolution_family node = true ->
        (weights_type node = Some "f32" ->
         GetNetworkPrecision nGraphFunc = Ok "FP32")
        /\ (weights_type node = Some "f16" ->
            GetNetworkPrecision nGraphFunc = Ok "FP16"))
  /\ (has_op_with_type_FakeQuantize nGraphFunc = false ->
      (forall n, In n (get_ordered_ops nGraphFunc) -> passed_over n) ->
      GetNetworkPrecision nGraphFunc = Ok "FP32").
Proof.
  unfold GetNetworkPrecision.
  split; [intros ->; reflexivity|].
  split.
  - intros -> before node after Hops Hbefore Hconv.
    rewrite Hops, (scan_ops_passed_over before _ Hbefore). simpl.
    rewrite Hconv. unfold input_1_type_name, weights_type.
    split; intros ->; reflexivity.
  - intros -> Hall.
    rewrite <- (app_nil_r (get_ordered_ops nGraphFunc)).
    rewrite (scan_ops_passed_over _ [] Hall). reflexivity.
Qed.

Lemma GetNetworkPrecision_classifies_witness :
  GetNetworkPrecision {| get_ordered_ops := [conv "f32"; fake_quantize] |}
  = Ok "INT8"
  /\ GetNetworkPrecision {| get_ordered_ops := [relu; conv "u8"; conv "f16"; conv "f32"] |}
     = Ok "FP16"
  /\ GetNetworkPrecision {| get_ordered_ops := [relu; conv "bf16"] |} = Ok "FP32".
Proof.
  split; [|split].
  - apply (proj1 (GetNetworkPrecision_classifies
                    {| get_ordered_ops := [conv "f32"; fake_quantize] |})).
    reflexivity.
  - refine (proj2 (proj1 (proj2 (GetNetworkPrecision_classifies
              {| get_ordered_ops := [relu; conv "u8"; conv "f16"; conv "f32"] |}))
              eq_refl [relu; conv "u8"] (conv "f16") [conv "f32"] eq_refl _ eq_refl)
              eq_refl).
    intros n [<-|[<-|[]]].
    + left. reflexivity.
    + right. exists "u8". repeat split; discriminate.
  - apply (proj2 (proj2 (GetNetworkPrecision_classifies
                    {| get_ordered_ops := [relu; conv "bf16"] |}))).
    + reflexivity.
    + intros n [<-|[<-|[]]].
      * left. reflexivity.
      * right. exists "bf16". repeat split; discriminate.
Defined.

Example GetNetworkPrecision_no_convolution :
  GetNetworkPrecision {| get_ordered_ops := [relu; relu] |} = Ok "FP32".
Proof. reflexivity. Qed.

(** A convolution-family node without a second input makes [input(1)]
    throw; well-formed graphs have no such node. *)
Example GetNetworkPrecision_missing_input :
  GetNetworkPrecision
    {| get_ordered_ops :=
         [{| op_type := Convolution; input_element_types := ["f32"] |}] |}
  = Throw (OutOfRange "node input index is out of range").
Proof. reflexivity. Qed.

(** ** The order of the keys *)

Lemma string_leb_trans (s t u : string) :
  String.leb s t = true -> String.leb t u = true -> String.leb s u = true.
Proof.
  revert t u. unfold String.leb.
  induction s as [|a s IH]; intros [|b t] [|c u]; simpl; try (intros; congruence).
  unfold Ascii.compare.
  destruct (N.compare_spec (N_of_ascii a) (N_of_ascii b));
    destruct (N.compare_spec (N_of_ascii b) (N_of_ascii c));
    destruct (N.compare_spec (N_of_ascii a) (N_of_ascii c));
    try lia; try (intros; congruence).
  apply IH.
Qed.

Lemma string_ltb_not_leb (s t : string) :
  String.ltb s t = true -> String.leb t s = true -> False.
Proof.
  unfold String.ltb, String.leb. rewrite (String.compare_antisym s t).
  destruct (String.compare t s); simpl; intros; congruence.
Qed.

Lemma string_ltb_irrefl (s : string) : String.ltb s s = false.
Proof.
  unfold String.ltb.
  replace (String.compare s s) with Eq; [reflexivity|].
  symmetry. induction s as [|a s IH]; simpl; [reflexivity|].
  unfold Ascii.compare. rewrite N.compare_refl. exact IH.
Qed.

#[global] Instance key_le_total : Total key_le.
Proof. intros [k1 v1] [k2 v2]. unfold key_le; simpl. apply String.leb_total. Qed.

#[global] Instance key_le_trans : Transitive key_le.
Proof.
  intros [k1 v1] [k2 v2] [k3 v3]. unfold key_le; simpl.
  apply string_leb_trans.
Qed.

Lemma ordered_entries_perm (m : gmap string string) :
  ordered_entries m ≡ₚ map_to_list m.
Proof. apply merge_sort_Permutation. Qed.

Lemma elem_of_ordered_entries (m : gmap string string) (k v : string) :
  (k, v) ∈ ordered_entries m <-> m !! k = Some v.
Proof. rewrite ordered_entries_perm. apply elem_of_map_to_list. Qed.

Lemma ordered_entries_sorted (m : gmap string string) :
  StronglySorted key_le (ordered_entries m).
Proof. apply StronglySorted_merge_sort; apply _. Qed.

Lemma ordered_entries_NoDup (m : gmap string string) :
  NoDup ((ordered_entries m).*1).
Proof. rewrite ordered_entries_perm. apply NoDup_fst_map_to_list. Qed.

(** ** Properties of [mergeConfigs] *)

Lemma fold_insert_union (entries : list (string * string)) :
  forall config : gmap string string,
  NoDup (entries.*1) ->
  fold_left (fun cfg kvp => <[fst kvp := snd kvp]> cfg) entries config
  = list_to_map entries ∪ config.
Proof.
  induction entries as [|[k v] entries IH]; intros config Hnd; simpl.
  - rewrite (left_id_L ∅ (∪)). reflexivity.
  - apply NoDup_cons in Hnd as [Hk Hnd].
    rewrite IH by exact Hnd.
    rewrite <- insert_union_l. symmetry. apply insert_union_r.
    apply not_elem_of_list_to_map_1. exact Hk.
Qed.

Lemma mergeConfigs_union (config local : gmap string string) :
  mergeConfigs config local = local ∪ config.
Proof.
  unfold mergeConfigs.
  rewrite fold_insert_union by apply ordered_entries_NoDup.
  f_equal.
  rewrite (list_to_map_proper _ (map_to_list local)).
  - apply list_to_map_to_list.
  - apply ordered_entries_NoDup.
  - apply ordered_entries_perm.
Qed.

(** C8: [mergeConfigs A B] holds, for every key, the value of [B] when [B]
    has the key and the value of [A] otherwise, so that its entries are
    those of [A] overridden by those of [B] plus the keys only [B] has;
    merging with the empty map gives back [A]. *)
Theorem mergeConfigs_right_biased (A B : gmap string string) :
  (forall k, mergeConfigs A B !! k
             = match B !! k with
               | Some v => Some v
               | None => A !! k
               end)
  /\ dom (mergeConfigs A B) = dom A ∪ dom B
  /\ mergeConfigs A ∅ = A.
Proof.
  rewrite !mergeConfigs_union.
  split; [|split].
  - intros k. rewrite lookup_union. destruct (B !! k), (A !! k); reflexivity.
  - rewrite dom_union_L. apply (comm_L (∪)).
  - apply (left_id_L ∅ (∪)).
Qed.

Example mergeConfigs_override :
  mergeConfigs {["k" := "1"]} {["k" := "2"]} = {["k" := "2"]}.
Proof. vm_compute. reflexivity. Qed.

(** ** Properties of [CheckConfig] *)

Lemma check_entry_accepted (k v : string) :
  check_entry (k, v) = Ok tt <-> entry_accepted k v.
Proof.
  unfold check_entry, entry_accepted; simpl.
  destruct (find_at_0 k "AUTO_"); [intuition|].
  destruct (String.eqb_spec k KEY_PERF_COUNT) as [->|Hk].
  - destruct (String.eqb_spec v YES) as [->|Hy]; simpl; [intuition|].
    destruct (String.eqb_spec v NO) as [->|Hn]; [intuition|].
    split; [discriminate|]. intros [|[_ [|]]]; congruence.
  - split; [discriminate|]. intros [|[]]; congruence.
Qed.

Lemma check_entry_rejected (k v : string) :
  ~ entry_accepted k v ->
  check_entry (k, v)
  = Throw (if String.eqb k KEY_PERF_COUNT then unsupported_value k v
           else unsupported_key k).
Proof.
  intros Hno. rewrite <- check_entry_accepted in Hno.
  revert Hno. unfold check_entry; simpl.
  destruct (find_at_0 k "AUTO_"); [congruence|].
  destruct (String.eqb k KEY_PERF_COUNT); [|reflexivity].
  destruct (String.eqb v YES || String.eqb v NO); [congruence | reflexivity].
Qed.

Lemma check_entries_Ok (entries : list (string * string)) :
  check_entries entries = Ok tt
  <-> forall k v, (k, v) ∈ entries -> entry_accepted k v.
Proof.
  induction entries as [|[k v] entries IH]; simpl.
  - split; [|reflexivity]. intros _ k v H. inversion H.
  - destruct (check_entry (k, v)) as [[]|e] eqn:E.
    + rewrite IH. apply check_entry_accepted in E. split.
      * intros H k' v' Hin. apply elem_of_cons in Hin as [[= -> ->]|Hin]; auto.
      * intros H k' v' Hin. apply H. right. exact Hin.
    + split; [discriminate|]. intros H. exfalso.
      assert (Hacc : entry_accepted k v) by (apply H; left).
      apply check_entry_accepted in Hacc. congruence.
Qed.

Lemma check_entries_Throw (entries : list (string * string)) (e : Exception) :
  check_entries entries = Throw e ->
  exists before k v after,
    entries = before ++ (k, v) :: after
    /\ (forall k' v', (k', v') ∈ before -> entry_accepted k' v')
    /\ check_entry (k, v) = Throw e.
Proof.
  induction entries as [|[k v] entries IH]; simpl; [discriminate|].
  destruct (check_entry (k, v)) as [[]|e0] eqn:E.
  - intros H. destruct (IH H) as (before & k1 & v1 & after & -> & Hb & Hk).
    exists ((k, v) :: before), k1, v1, after. repeat split; [|exact Hk].
    intros k' v' Hin. apply elem_of_cons in Hin as [[= -> ->]|Hin]; auto.
    apply check_entry_accepted. exact E.
  - intros [= ->]. exists [], k, v, entries. repeat split; [|exact E].
    intros k' v' Hin. inversion Hin.
Qed.

Lemma CheckConfig_accepts (this : AutoInferencePlugin)
  (config : gmap string string) :
  snd (CheckConfig this config) = Ok tt
  <-> forall k v, config !! k = Some v -> entry_accepted k v.
Proof.
  unfold CheckConfig; simpl. rewrite check_entries_Ok.
  split; intros H k v Hkv; apply H, elem_of_ordered_entries, Hkv.
Qed.

(** C7: [CheckConfig] leaves the plugin object as it was. An entry whose
    key starts with "AUTO_" passes with any value; the entry of PERF_COUNT
    passes exactly when its value is "YES" or "NO" and is otherwise
    refused with the unsupported-value error; an entry with any other key
    is refused with the unsupported-key error. A map is accepted exactly
    when all its entries pass, and a refused map is refused with the error
    of its first offending entry in the order of the keys. *)
Theorem CheckConfig_validates (this : AutoInferencePlugin)
  (config : gmap string string) :
  fst (CheckConfig this config) = this
  /\ (forall k v,
        (find_at_0 k "AUTO_" = true -> check_entry (k, v) = Ok tt)
        /\ (check_entry (KEY_PERF_COUNT, v) = Ok tt <-> v = YES \/ v = NO)
        /\ (v <> YES -> v <> NO ->
            check_entry (KEY_PERF_COUNT, v)
            = Throw (unsupported_value KEY_PERF_COUNT v))
        /\ (find_at_0 k "AUTO_" = false -> k <> KEY_PERF_COUNT ->
            check_entry (k, v) = Throw (unsupported_key k)))
  /\ (snd (CheckConfig this config) = Ok tt
      <-> forall k v, config !! k = Some v -> entry_accepted k v)
  /\ (forall e, snd (CheckConfig this config) = Throw e ->
        exists k v,
          config !! k = Some v
          /\ check_entry (k, v) = Throw e
          /\ (e = unsupported_value k v \/ e = unsupported_key k)
          /\ forall k' v', config !! k' = Some v' ->
               String.ltb k' k = true -> entry_accepted k' v').
Proof.
  split; [reflexivity|].
  split; [|split].
  - intros k v. split; [|split; [|split]].
    + intros H. apply check_entry_accepted. left. exact H.
    + rewrite check_entry_accepted. unfold entry_accepted.
      split; [intros [H|[_ H]]; [discriminate H | exact H] | intros H; right; auto].
    + intros Hy Hn. rewrite check_entry_rejected; [reflexivity|].
      intros [H|[_ [|]]]; [discriminate H | congruence | congruence].
    + intros Hp Hk. rewrite check_entry_rejected.
      * apply String.eqb_neq in Hk. rewrite Hk. reflexivity.
      * intros [H|[H _]]; congruence.
  - apply CheckConfig_accepts.
  - unfold CheckConfig; simpl. intros e He.
    destruct (check_entries_Throw _ _ He)
      as (before & k & v & after & Hsplit & Hbefore & Hkv).
    exists k, v.
    assert (Hin : config !! k = Some v).
    { apply elem_of_ordered_entries. rewrite Hsplit.
      apply elem_of_app. right. left. }
    split; [exact Hin|]. split; [exact Hkv|]. split.
    { assert (Hno : ~ entry_accepted k v).
      { rewrite <- check_entry_accepted. congruence. }
      rewrite (check_entry_rejected _ _ Hno) in Hkv.
      injection Hkv as <-. destruct (String.eqb k KEY_PERF_COUNT); auto. }
    intros k' v' Hk' Hlt.
    apply elem_of_ordered_entries in Hk'. rewrite Hsplit in Hk'.
    apply elem_of_app in Hk' as [Hk'|Hk']; [apply Hbefore, Hk'|].
    exfalso. apply elem_of_cons in Hk' as [[= -> ->]|Hk'].
    + rewrite string_ltb_irrefl in Hlt. discriminate.
    + pose proof (ordered_entries_sorted config) as Hs.
      rewrite Hsplit in Hs. apply StronglySorted_app_1_r in Hs.
      apply StronglySorted_cons in Hs as [Hall _].
      rewrite Forall_forall in Hall. specialize (Hall _ Hk').
      unfold key_le in Hall; simpl in Hall.
      exact (string_ltb_not_leb _ _ Hlt Hall).
Qed.

Lemma CheckConfig_validates_witness :
  snd (CheckConfig demo_plugin {["PERF_COUNT" := "YES"]}) = Ok tt
  /\ check_entry ("AUTO_FOO", "bar") = Ok tt
  /\ check_entry ("PERF_COUNT", "MAYBE")
     = Throw (GeneralError "Unsupported config value: MAYBE for key: PERF_COUNT")
  /\ check_entry ("RANDOM_KEY", "x")
     = Throw (GeneralError "Unsupported config key: RANDOM_KEY")
  /\ exists k v,
       ({["PERF_COUNT" := "MAYBE"; "RANDOM_KEY" := "x"]} : gmap string string)
         !! k = Some v
       /\ check_entry (k, v)
          = Throw (GeneralError "Unsupported config value: MAYBE for key: PERF_COUNT")
       /\ (GeneralError "Unsupported config value: MAYBE for key: PERF_COUNT"
           = unsupported_value k v
           \/ GeneralError "Unsupported config value: MAYBE for key: PERF_COUNT"
              = unsupported_key k)
       /\ forall k' v',
            ({["PERF_COUNT" := "MAYBE"; "RANDOM_KEY" := "x"]} : gmap string string)
              !! k' = Some v' ->
            String.ltb k' k = true -> entry_accepted k' v'.
Proof.
  split; [|split; [|split; [|split]]].
  - apply (proj1 (proj2 (proj2 (CheckConfig_validates demo_plugin
                                  {["PERF_COUNT" := "YES"]})))).
    intros k v Hkv. apply lookup_singleton_Some in Hkv as [<- <-].
    right. split; [reflexivity | left; reflexivity].
  - apply (proj1 (proj2 (CheckConfig_validates demo_plugin ∅))
             "AUTO_FOO" "bar").
    reflexivity.
  - apply (proj1 (proj2 (CheckConfig_validates demo_plugin ∅))
             "AUTO_FOO" "MAYBE"); discriminate.
  - apply (proj1 (proj2 (CheckConfig_validates demo_plugin ∅))
             "RANDOM_KEY" "x"); [reflexivity | discriminate].
  - apply (proj2 (proj2 (proj2 (CheckConfig_validates demo_plugin
             {["PERF_COUNT" := "MAYBE"; "RANDOM_KEY" := "x"]})))).
    vm_compute. reflexivity.
Defined.

(** ** Properties of [QueryNetwork] *)

Lemma query_devices_cons (core : ICore) (value : DeviceName)
  (rest : list DeviceName) (supportedLayers : gset string) :
  query_devices core (value :: rest) supportedLayers
  = match core_supported_layers core value with
    | Ok deviceQr =>
        ([CallQueryNetwork value],
         Ok (if decide (supportedLayers = ∅) then dom deviceQr
             else if decide (dom deviceQr = (∅ : gset string))
                  then supportedLayers
                  else supportedLayers ∩ dom deviceQr))
    | Throw _ =>
        let '(log, r) := query_devices core rest supportedLayers in
        (CallQueryNetwork value :: log, r)
    end.
Proof.
  simpl. unfold Core_QueryNetwork.
  destruct (core_supported_layers core value) as [deviceQr|e]; simpl.
  - reflexivity.
  - destruct (query_devices core rest supportedLayers). reflexivity.
Qed.

(** The loop stops at the first device that answers. *)
Lemma query_devices_first_answer (core : ICore) (before after : list DeviceName)
  (value : DeviceName) (deviceQr : gmap string string) :
  (forall d, In d before -> ~ is_Ok (core_supported_layers core d)) ->
  core_supported_layers core value = Ok deviceQr ->
  query_devices core (before ++ value :: after) ∅
  = (List.map CallQueryNetwork (before ++ [value]), Ok (dom deviceQr)).
Proof.
  intros Hbefore Hvalue.
  induction before as [|d before IH]; simpl app.
  - rewrite query_devices_cons, Hvalue.
    rewrite decide_True by reflexivity. reflexivity.
  - rewrite query_devices_cons.
    pose proof (Hbefore d (or_introl eq_refl)) as Hd.
    destruct (core_supported_layers core d) as [qr|e]; [destruct Hd; exact I|].
    rewrite IH; [reflexivity|].
    intros d' Hd'. apply Hbefore. right. exact Hd'.
Qed.

Lemma query_devices_no_answer (core : ICore) (metaDevices : list DeviceName) :
  (forall d, In d metaDevices -> ~ is_Ok (core_supported_layers core d)) ->
  query_devices core metaDevices ∅
  = (List.map CallQueryNetwork metaDevices, Ok ∅).
Proof.
  intros Hall.
  induction metaDevices as [|d devs IH]; [reflexivity|].
  rewrite query_devices_cons.
  pose proof (Hall d (or_introl eq_refl)) as Hd.
  destruct (core_supported_layers core d) as [qr|e]; [destruct Hd; exact I|].
  rewrite IH; [reflexivity|].
  intros d' Hd'. apply Hall. right. exact Hd'.
Qed.

Lemma fold_owner_lookup (name : string) (layers : list string) :
  forall (acc : gmap string string) (layer : string),
  fold_left (fun supportedLayersMap supportedLayer =>
               <[supportedLayer := name]> supportedLayersMap) layers acc
    !! layer
  = if decide (layer ∈ layers) then Some name else acc !! layer.
Proof.
  induction layers as [|l layers IH]; intros acc layer.
  - simpl fold_left. destruct (decide (layer ∈ [])) as [Hin|_]; [|reflexivity].
    inversion Hin.
  - simpl fold_left. rewrite IH.
    destruct (decide (layer ∈ layers)) as [Hin|Hnin];
      destruct (decide (layer ∈ l :: layers)) as [Hin'|Hnin'].
    + reflexivity.
    + exfalso. apply Hnin'. right. exact Hin.
    + apply elem_of_cons in Hin' as [->|Hin']; [|contradiction].
      apply lookup_insert_eq.
    + apply lookup_insert_ne. intros ->. apply Hnin'. left.
Qed.

Lemma owner_map_lookup (name : string) (supportedLayers : gset string)
  (layer : string) :
  fold_left (fun supportedLayersMap supportedLayer =>
               <[supportedLayer := name]> supportedLayersMap)
            (elements supportedLayers) (∅ : gmap string string) !! layer
  = if decide (layer ∈ supportedLayers) then Some name else None.
Proof.
  rewrite fold_owner_lookup, lookup_empty.
  destruct (decide (layer ∈ supportedLayers)) as [Hin|Hnin];
    destruct (decide (layer ∈ elements supportedLayers)) as [Hin'|Hnin'];
    try reflexivity.
  - exfalso. apply Hnin', elem_of_elements, Hin.
  - exfalso. apply Hnin, elem_of_elements, Hin'.
Qed.

Lemma GetDeviceList_calls (getHeteroDevices : string -> list DeviceName)
  (core : ICore) (config : gmap string string) :
  calls (GetDeviceList getHeteroDevices core config) = enumeration_calls config
  /\ forall metaDevices,
       outcome (GetDeviceList getHeteroDevices core config) = Ok metaDevices ->
       metaDevices <> [].
Proof.
  unfold GetDeviceList, enumeration_calls, Core_GetAvailableDevices.
  destruct (config !! KEY_AUTO_DEVICE_LIST) as [deviceListConfig|].
  - destruct (getHeteroDevices deviceListConfig) as [|d devs]; simpl.
    + split; [reflexivity | discriminate].
    + split; [reflexivity|]. intros metaDevices [= <-]. discriminate.
  - destruct (GetAvailableDevices core) as [[|d devs]|e]; simpl.
    + split; [reflexivity | discriminate].
    + split; [reflexivity|]. intros metaDevices [= <-]. discriminate.
    + split; [reflexivity | discriminate].
Qed.

(** A computation is its log together with its outcome. *)
Lemma GetDeviceList_eta (getHeteroDevices : string -> list DeviceName)
  (core : ICore) (config : gmap string string) :
  GetDeviceList getHeteroDevices core config
  = (enumeration_calls config,
     outcome (GetDeviceList getHeteroDevices core config)).
Proof.
  rewrite <- (proj1 (GetDeviceList_calls getHeteroDevices core config)).
  apply surjective_pairing.
Qed.

(** C4: on the enumerated (hence non-empty) device list, [QueryNetwork]
    queries the devices in order up to the first one whose
    operation-support query succeeds and no further; every operation id
    of that answer is mapped to the name of this plugin, not to the device
    that answered; when every device fails, the result is the empty
    mapping and no exception is raised. The log is exact: the call that
    enumerates the devices, when the list is not configured, then the
    queries. *)
Theorem QueryNetwork_first_answer
  (getHeteroDevices : string -> list DeviceName) (this : AutoInferencePlugin)
  (core : ICore) (network : CNNNetwork) (nGraphFunc : Function)
  (config : gmap string string) (metaDevices : list DeviceName) :
  GetCore this = Some core ->
  getFunction network = Some nGraphFunc ->
  outcome (GetDeviceList getHeteroDevices core
             (mergeConfigs (_config this) config)) = Ok metaDevices ->
  metaDevices <> []
  /\ (forall before value after deviceQr,
        metaDevices = before ++ value :: after ->
        (forall d, In d before -> ~ is_Ok (core_supported_layers core d)) ->
        core_supported_layers core value = Ok deviceQr ->
        exists supportedLayersMap,
          QueryNetwork getHeteroDevices this network config
          = (enumeration_calls (mergeConfigs (_config this) config)
               ++ List.map CallQueryNetwork (before ++ [value]),
             Ok supportedLayersMap)
          /\ forall layer,
               supportedLayersMap !! layer
               = match deviceQr !! layer with
                 | Some _ => Some (GetName this)
                 | None => None
                 end)
  /\ ((forall d, In d metaDevices -> ~ is_Ok (core_supported_layers core d)) ->
      QueryNetwork getHeteroDevices this network config
      = (enumeration_calls (mergeConfigs (_config this) config)
           ++ List.map CallQueryNetwork metaDevices,
         Ok ∅)).
Proof.
  intros Hcore Hfun Hlist.
  destruct (GetDeviceList_calls getHeteroDevices core
              (mergeConfigs (_config this) config)) as [Hcalls Hne].
  split; [apply Hne, Hlist|].
  unfold QueryNetwork. rewrite Hcore, Hfun.
  destruct (GetDeviceList getHeteroDevices core
              (mergeConfigs (_config this) config)) as [log r].
  simpl in Hcalls, Hlist. subst log r.
  generalize (enumeration_calls (mergeConfigs (_config this) config)).
  intros log.
  split.
  - intros before value after deviceQr -> Hbefore Hvalue.
    unfold bind at 1. cbv beta iota.
    rewrite (query_devices_first_answer core before after value deviceQr
               Hbefore Hvalue).
    unfold bind, ret. cbv beta iota zeta. rewrite !app_nil_r.
    eexists. split; [reflexivity|].
    intros layer. rewrite owner_map_lookup.
    destruct (decide (layer ∈ dom deviceQr)) as [Hin|Hnin].
    + apply elem_of_dom in Hin as [x ->]. reflexivity.
    + apply not_elem_of_dom in Hnin. rewrite Hnin. reflexivity.
  - intros Hall. unfold bind at 1. cbv beta iota.
    rewrite (query_devices_no_answer core metaDevices Hall).
    unfold bind, ret. cbv beta iota zeta.
    rewrite elements_empty, !app_nil_r. reflexivity.
Qed.

Lemma QueryNetwork_first_answer_witness :
  exists supportedLayersMap,
    QueryNetwork one_device accel_plugin demo_network ∅
    = (enumeration_calls (mergeConfigs (_config accel_plugin) ∅)
         ++ List.map CallQueryNetwork (["CPU"] ++ ["ACCEL.0"]),
       Ok supportedLayersMap)
    /\ forall layer,
         supportedLayersMap !! layer
         = match ({["opA" := "ACCEL.0"; "opB" := "ACCEL.0"]} : gmap string string)
                   !! layer with
           | Some _ => Some (GetName accel_plugin)
           | None => None
           end.
Proof.
  assert (Hlist : outcome (GetDeviceList one_device accel_core
                             (mergeConfigs (_config accel_plugin) ∅))
                  = Ok ["CPU"; "ACCEL.0"]) by (vm_compute; reflexivity).
  apply (proj1 (proj2 (QueryNetwork_first_answer one_device accel_plugin
                         accel_core demo_network
                         {| get_ordered_ops := [relu; conv "f32"] |}
                         ∅ ["CPU"; "ACCEL.0"] eq_refl eq_refl Hlist))
           ["CPU"] "ACCEL.0" []).
  - reflexivity.
  - intros d [<-|[]] H. exact H.
  - reflexivity.
Defined.

(** The scenario of the specification: the processor fails, the
    accelerator answers with two operations, and both are attributed to
    the plugin. *)
Example QueryNetwork_attributes_to_plugin :
  QueryNetwork one_device accel_plugin demo_network ∅
  = ([CallGetAvailableDevices; CallQueryNetwork "CPU";
      CallQueryNetwork "ACCEL.0"],
     Ok {["opA" := "AUTO"; "opB" := "AUTO"]}).
Proof. vm_compute. reflexivity. Qed.

(** ** Properties of [LoadNetworkImpl] *)

(** C10: in the handle returned by [LoadNetworkImpl] the performance
    counters flag is true exactly when the merged configuration has the
    key PERF_COUNT, whatever its value: with PERF_COUNT set to "NO", a
    value [CheckConfig] accepts, the flag is true as well. *)
Theorem LoadNetworkImpl_enablePerfCount
  (getHeteroDevices : string -> list DeviceName) (this : AutoInferencePlugin)
  (modelPath : string) (network : CNNNetwork) (config : gmap string string)
  (networkPrecision : string) (handle : AutoExecutableNetwork) :
  outcome (LoadNetworkImpl getHeteroDevices this modelPath network config
             networkPrecision) = Ok handle ->
  (enablePerfCount handle = true
   <-> is_Some (mergeConfigs (_config this) config !! KEY_PERF_COUNT))
  /\ (forall v, mergeConfigs (_config this) config !! KEY_PERF_COUNT = Some v ->
        enablePerfCount handle = true /\ (v = YES \/ v = NO)).
Proof.
  unfold LoadNetworkImpl.
  destruct (GetCore this) as [core|]; [|discriminate].
  destruct (String.eqb modelPath "" && is_nullptr (getFunction network));
    [discriminate|].
  rewrite outcome_bind. unfold lift, outcome at 1. cbn [snd].
  destruct (snd (CheckConfig this (mergeConfigs (_config this) config)))
    as [[]|e] eqn:Hcheck; [|discriminate].
  rewrite outcome_bind.
  destruct (outcome (GetDeviceList getHeteroDevices core
                       (mergeConfigs (_config this) config)))
    as [metaDevices|e]; [|discriminate].
  rewrite outcome_bind.
  destruct (outcome (SelectDevice core metaDevices networkPrecision))
    as [accelerator|e]; [|discriminate].
  simpl. intros [= <-]. simpl.
  split; [apply bool_decide_eq_true|].
  intros v Hv. split.
  - apply bool_decide_eq_true. rewrite Hv. eauto.
  - pose proof (proj1 (CheckConfig_accepts this _) Hcheck) as Hacc.
    destruct (Hacc _ _ Hv) as [H|[_ H]]; [discriminate H | exact H].
Qed.

Lemma LoadNetworkImpl_enablePerfCount_witness :
  snd (CheckConfig demo_plugin {["PERF_COUNT" := "NO"]}) = Ok tt
  /\ (enablePerfCount {| cpuFuture := Some "CPU";
                         acceleratorFuture := Some "GPU.0";
                         enablePerfCount := true |} = true
      <-> is_Some (mergeConfigs (_config demo_plugin) {["PERF_COUNT" := "NO"]}
                     !! KEY_PERF_COUNT)).
Proof.
  split; [vm_compute; reflexivity|].
  apply (LoadNetworkImpl_enablePerfCount one_device demo_plugin ""
           demo_network {["PERF_COUNT" := "NO"]} "FP32").
  vm_compute. reflexivity.
Defined.

Example LoadNetworkImpl_PERF_COUNT_NO :
  outcome (LoadNetworkImpl one_device demo_plugin "" demo_network
             {["PERF_COUNT" := "NO"]} "FP32")
  = Ok {| cpuFuture := Some "CPU"; acceleratorFuture := Some "GPU.0";
          enablePerfCount := true |}.
Proof. vm_compute. reflexivity. Qed.

Example LoadNetworkImpl_no_PERF_COUNT :
  outcome (LoadNetworkImpl one_device demo_plugin "" demo_network ∅ "FP32")
  = Ok {| cpuFuture := Some "CPU"; acceleratorFuture := Some "GPU.0";
          enablePerfCount := false |}.
Proof. vm_compute. reflexivity. Qed.

(** * Further properties *)

(** ** [SelectDevice]: what it returns and what it asks *)

Lemma classify_devices_Ok_inv (core : ICore) (devs : list DeviceName)
  (t t' : Tiers) :
  outcome (classify_devices core t devs) = Ok t' ->
  (forall d, In d devs -> is_GPU d = true -> is_Ok (full_device_name core d))
  /\ t' = tiers_app t (tiers_of core devs).
Proof.
  intros H.
  assert (Hfull : forall d, In d devs -> is_GPU d = true ->
                    is_Ok (full_device_name core d)).
  { intros d Hd HG. destruct (full_device_name core d) as [name|e] eqn:E;
      [exact I|].
    destruct (classify_devices_failure core devs t d e Hd HG E) as [e' He'].
    congruence. }
  split; [exact Hfull|].
  rewrite (classify_devices_outcome core devs t Hfull) in H. congruence.
Qed.

Lemma first_capable_found (core : ICore) (precision : string)
  (tier : list DeviceName) (item : DeviceName) :
  outcome (first_capable core tier precision) = Ok (Some item) ->
  In item tier /\ advertises core precision item = true.
Proof.
  induction tier as [|d tier IH]; [discriminate|].
  rewrite first_capable_cons, outcome_bind.
  unfold GetMetric_OPTIMIZATION_CAPABILITIES, outcome at 1. cbn [snd].
  destruct (optimization_capabilities core d) as [capability|e] eqn:Ed;
    [|discriminate].
  destruct (std_find_found capability precision) eqn:Ef.
  - intros [= <-]. split; [left; reflexivity|].
    unfold advertises. rewrite Ed. exact Ef.
  - intros H. destruct (IH H) as [Hin Hadv]. split; [right|]; assumption.
Qed.

Lemma In_CPU_tier (core : ICore) (devs : list DeviceName) (d : DeviceName) :
  In d (CPU (tiers_of core devs)) -> In d devs /\ is_CPU d = true.
Proof. simpl. apply filter_In. Qed.

Lemma first_nonempty_tier_not_CPU (core : ICore) (devs : list DeviceName)
  (d : DeviceName) :
  In d (first_nonempty_tier (tiers_of core devs)) -> is_CPU d = false.
Proof.
  intros H. destruct (prefixes_exclusive d) as (_ & HM & HV & HG).
  destruct (first_nonempty_tier_cases (tiers_of core devs)) as [E|[E|[E|E]]];
    rewrite E in H; simpl in H; apply filter_In in H as [_ H].
  - unfold is_dGPU in H. apply andb_true_iff in H as [H _]. apply HG, H.
  - apply HV, H.
  - unfold is_iGPU in H. apply andb_true_iff in H as [H _]. apply HG, H.
  - apply HM, H.
Qed.

Lemma SelectDevice_Ok_cases (core : ICore) (devs : list DeviceName)
  (precision : string) (item : DeviceName) :
  outcome (SelectDevice core devs precision) = Ok item ->
  devs = [item]
  \/ (2 <= length devs
      /\ In item (first_nonempty_tier (tiers_of core devs))
      /\ (advertises core precision item = true
          \/ (precision = "FP32" /\ advertises core "FP16" item = true)))
  \/ (2 <= length devs
      /\ exists rest, CPU (tiers_of core devs) = item :: rest).
Proof.
  intros H.
  destruct devs as [|d1 [|d2 devs]].
  - discriminate H.
  - injection H as ->. left. reflexivity.
  - right. revert H. unfold SelectDevice. cbv beta iota.
    rewrite outcome_bind.
    destruct (outcome (classify_devices core no_tiers (d1 :: d2 :: devs)))
      as [t|e] eqn:Ec; [|discriminate].
    apply classify_devices_Ok_inv in Ec as [_ ->].
    rewrite tiers_app_nil_l.
    assert (Hlen : 2 <= length (d1 :: d2 :: devs)) by (simpl; lia).
    revert Hlen. generalize (d1 :: d2 :: devs). intros l Hlen.
    match goal with |- context [if ?b then _ else _] => destruct b end;
      [discriminate|].
    rewrite outcome_bind, walk_tiers_first_nonempty.
    destruct (outcome (first_capable core
                         (first_nonempty_tier (tiers_of core l)) precision))
      as [[found|]|e] eqn:E1; [| |discriminate].
    { intros [= ->]. apply first_capable_found in E1 as [Hin Hadv].
      left. auto. }
    rewrite outcome_bind.
    destruct (String.eqb_spec precision "FP32") as [Hp|Hp].
    + rewrite walk_tiers_first_nonempty.
      destruct (outcome (first_capable core
                           (first_nonempty_tier (tiers_of core l)) "FP16"))
        as [[found|]|e] eqn:E2; [| |discriminate].
      { intros [= ->]. apply first_capable_found in E2 as [Hin Hadv].
        left. auto. }
      destruct (CPU (tiers_of core l)) as [|cpu0 rest] eqn:EC;
        [discriminate|].
      intros [= ->]. right. split; [exact Hlen | eauto].
    + cbn [outcome ret snd].
      destruct (CPU (tiers_of core l)) as [|cpu0 rest] eqn:EC;
        [discriminate|].
      intros [= ->]. right. split; [exact Hlen | eauto].
Qed.

Lemma SelectDevice_Ok_In (core : ICore) (devs : list DeviceName)
  (precision : string) (item : DeviceName) :
  outcome (SelectDevice core devs precision) = Ok item -> In item devs.
Proof.
  intros H.
  destruct (SelectDevice_Ok_cases core devs precision item H)
    as [->|[(_ & Hin & _)|(_ & rest & Hcpu)]].
  - left. reflexivity.
  - apply In_first_nonempty_tier in Hin. exact Hin.
  - apply (In_CPU_tier core devs item). rewrite Hcpu. left. reflexivity.
Qed.

(** X1: whatever the core answers, a device returned by [SelectDevice]
    is a member of the list it was given: the sole entry of a one-device
    list, a member of the first non-empty accelerator tier that advertises
    the requested precision (or FP16 on an FP32 request), or the first
    device of the processor tier. *)
Theorem SelectDevice_returns_listed (core : ICore) (devs : list DeviceName)
  (precision : string) (item : DeviceName) :
  outcome (SelectDevice core devs precision) = Ok item ->
  In item devs
  /\ (devs = [item]
      \/ (2 <= length devs
          /\ In item (first_nonempty_tier (tiers_of core devs))
          /\ (advertises core precision item = true
              \/ (precision = "FP32" /\ advertises core "FP16" item = true)))
      \/ (2 <= length devs
          /\ exists rest, CPU (tiers_of core devs) = item :: rest)).
Proof.
  intros H. split.
  - apply (SelectDevice_Ok_In core devs precision item H).
  - apply (SelectDevice_Ok_cases core devs precision item H).
Qed.

Lemma SelectDevice_returns_listed_witness :
  In "GPU.1" ["CPU"; "GPU.1"]
  /\ (["CPU"; "GPU.1"] = ["GPU.1"]
      \/ (2 <= length ["CPU"; "GPU.1"]
          /\ In "GPU.1" (first_nonempty_tier (tiers_of demo_core ["CPU"; "GPU.1"]))
          /\ (advertises demo_core "FP32" "GPU.1" = true
              \/ ("FP32" = "FP32" /\ advertises demo_core "FP16" "GPU.1" = true)))
      \/ (2 <= length ["CPU"; "GPU.1"]
          /\ exists rest,
               CPU (tiers_of demo_core ["CPU"; "GPU.1"]) = "GPU.1" :: rest)).
Proof.
  apply (SelectDevice_returns_listed demo_core ["CPU"; "GPU.1"] "FP32" "GPU.1").
  reflexivity.
Defined.

Lemma calls_bind_all {A B} (P : Call -> Prop) (m : M A) (f : A -> M B) :
  (forall c, In c (calls m) -> P c) ->
  (forall a, outcome m = Ok a -> forall c, In c (calls (f a)) -> P c) ->
  forall c, In c (calls (bind m f)) -> P c.
Proof.
  intros Hm Hf c. rewrite calls_bind.
  destruct (outcome m) as [a|e] eqn:E; [|apply Hm].
  intros Hc. apply in_app_or in Hc as [Hc|Hc]; [apply Hm, Hc|].
  exact (Hf a eq_refl c Hc).
Qed.

Ltac bind_all :=
  match goal with
  | |- forall c, In c (calls (bind _ _)) -> @?P c => apply (calls_bind_all P)
  end.

Lemma classify_devices_calls_all (core : ICore) (devs : list DeviceName) :
  forall (t : Tiers) (c : Call),
  In c (calls (classify_devices core t devs)) ->
  exists d, c = full_name_query d /\ In d devs /\ is_GPU d = true.
Proof.
  induction devs as [|d0 devs IH]; intros t; [intros c []|].
  simpl classify_devices. bind_all.
  - rewrite classify_item_calls. destruct (is_GPU d0) eqn:EG; [|intros _ []].
    intros c' [<-|[]]. exists d0. repeat split; [left; reflexivity | exact EG].
  - intros t' _ c' Hc'. destruct (IH t' c' Hc') as (d & -> & Hd & HG).
    exists d. repeat split; [right; exact Hd | exact HG].
Qed.

Lemma first_capable_calls_all (core : ICore) (precision : string)
  (tier : list DeviceName) :
  forall c : Call,
  In c (calls (first_capable core tier precision)) ->
  exists d, c = capability_query d /\ In d tier.
Proof.
  induction tier as [|d0 tier IH]; [intros c []|].
  rewrite first_capable_cons. bind_all.
  - intros c [<-|[]]. exists d0. split; [reflexivity | left; reflexivity].
  - intros capability _ c.
    destruct (std_find_found capability precision); [intros []|].
    intros Hc. destruct (IH c Hc) as (d & -> & Hd).
    exists d. split; [reflexivity | right; exact Hd].
Qed.

(** X2: the queries of [SelectDevice] are confined: a full-name query is
    made only on a listed device with the GPU prefix, a capability query
    only on a member of the first non-empty accelerator tier, and only on
    lists of two or more devices; a device with the processor prefix is
    never queried. *)
Theorem SelectDevice_queries_confined (core : ICore) (devs : list DeviceName)
  (precision : string) (c : Call) :
  In c (calls (SelectDevice core devs precision)) ->
  2 <= length devs
  /\ ((exists d, c = full_name_query d /\ In d devs /\ is_GPU d = true)
      \/ (exists d, c = capability_query d
                    /\ In d (first_nonempty_tier (tiers_of core devs))))
  /\ (forall d metric, c = CallGetMetric d metric -> is_CPU d = false).
Proof.
  intros Hc.
  assert (H : 2 <= length devs
    /\ ((exists d, c = full_name_query d /\ In d devs /\ is_GPU d = true)
        \/ (exists d, c = capability_query d
                      /\ In d (first_nonempty_tier (tiers_of core devs))))).
  { destruct devs as [|d1 [|d2 devs]]; [destruct Hc | destruct Hc |].
    split; [simpl; lia|].
    revert c Hc. unfold SelectDevice. cbv beta iota.
    generalize (d1 :: d2 :: devs). intros l.
    bind_all.
    { intros c Hc. left. apply (classify_devices_calls_all core l no_tiers c Hc). }
    intros t Ht. apply classify_devices_Ok_inv in Ht as [_ ->].
    rewrite tiers_app_nil_l.
    match goal with |- context [if ?b then _ else _] => destruct b end;
      [intros c []|].
    bind_all.
    { intros c Hc. right. rewrite walk_tiers_first_nonempty in Hc.
      apply (first_capable_calls_all core precision _ c Hc). }
    intros [found|] _; [intros c []|].
    bind_all.
    { intros c Hc. destruct (String.eqb precision "FP32"); [|destruct Hc].
      right. rewrite walk_tiers_first_nonempty in Hc.
      apply (first_capable_calls_all core "FP16" _ c Hc). }
    intros [found|] _; [intros c []|].
    destruct (CPU (tiers_of core l)); intros c []. }
  destruct H as [Hlen Hcases]. split; [exact Hlen|]. split; [exact Hcases|].
  intros d metric ->.
  destruct Hcases as [(d' & Heq & _ & HG)|(d' & Heq & Hin)].
  - injection Heq as -> _.
    destruct (prefixes_exclusive d') as (_ & _ & _ & Hx). apply Hx, HG.
  - injection Heq as -> _.
    apply (first_nonempty_tier_not_CPU core devs d' Hin).
Qed.

Lemma SelectDevice_queries_confined_witness :
  2 <= length ["CPU"; "GPU.1"; "GPU.0"]
  /\ ((exists d, capability_query "GPU.0" = full_name_query d
                 /\ In d ["CPU"; "GPU.1"; "GPU.0"] /\ is_GPU d = true)
      \/ (exists d, capability_query "GPU.0" = capability_query d
                    /\ In d (first_nonempty_tier
                               (tiers_of demo_core ["CPU"; "GPU.1"; "GPU.0"]))))
  /\ (forall d metric,
        capability_query "GPU.0" = CallGetMetric d metric -> is_CPU d = false).
Proof.
  apply (SelectDevice_queries_confined demo_core ["CPU"; "GPU.1"; "GPU.0"]
           "FP32" (capability_query "GPU.0")).
  right. right. left. reflexivity.
Defined.

(** X3: on two devices or more with successful queries, if the first
    non-empty accelerator tier (dGPU, VPUX, iGPU, MYRIAD) has a member
    advertising the requested precision, [SelectDevice] returns the first
    such member of that tier, whichever tier it is; on an FP32 request an
    exact match is preferred to an FP16-only member listed before it. *)
Theorem SelectDevice_first_member_of_walked_tier (core : ICore)
  (devs : list DeviceName) (precision : string)
  (before after : list DeviceName) (item : DeviceName) :
  2 <= length devs ->
  queries_succeed core devs ->
  first_nonempty_tier (tiers_of core devs) = before ++ item :: after ->
  advertises core precision item = true ->
  (forall x, In x before -> advertises core precision x = false) ->
  outcome (SelectDevice core devs precision) = Ok item.
Proof.
  intros Hlen Hq Hsplit Hitem Hbefore.
  apply SelectDevice_first_match; [exact Hlen | exact Hq |].
  rewrite Hsplit. apply find_first; assumption.
Qed.

Lemma SelectDevice_first_member_of_walked_tier_witness :
  outcome (SelectDevice two_dgpu_core ["CPU"; "GPU.0"; "GPU.1"] "FP32")
  = Ok "GPU.1".
Proof.
  apply (SelectDevice_first_member_of_walked_tier two_dgpu_core
           ["CPU"; "GPU.0"; "GPU.1"] "FP32" ["GPU.0"] []).
  - simpl. lia.
  - intros d [<-|[<-|[<-|[]]]]; split; exact I.
  - reflexivity.
  - reflexivity.
  - intros x [<-|[]]. reflexivity.
Defined.

Lemma SelectDevice_calls_two_passes (core : ICore) (devs : list DeviceName) :
  2 <= length devs ->
  queries_succeed core devs ->
  first_nonempty_tier (tiers_of core devs) <> [] ->
  List.find (advertises core "FP32") (first_nonempty_tier (tiers_of core devs))
  = None ->
  List.find (advertises core "FP16") (first_nonempty_tier (tiers_of core devs))
  = None ->
  calls (SelectDevice core devs "FP32")
  = List.map full_name_query (List.filter is_GPU devs)
    ++ List.map capability_query (first_nonempty_tier (tiers_of core devs))
    ++ List.map capability_query (first_nonempty_tier (tiers_of core devs)).
Proof.
  intros Hlen Hq Hne H32 H16.
  pose proof (queries_succeed_full core devs Hq) as Hfull.
  pose proof (queries_succeed_caps core devs Hq) as Hcaps.
  apply first_nonempty_tier_not_all_empty in Hne.
  destruct devs as [|d1 [|d2 devs]]; simpl in Hlen; [lia | lia |].
  unfold SelectDevice. cbv beta iota. rewrite calls_bind.
  rewrite classify_devices_outcome, classify_devices_calls by exact Hfull.
  rewrite tiers_app_nil_l.
  revert Hcaps Hne H32 H16. generalize (tiers_of core (d1 :: d2 :: devs)).
  intros t Hcaps Hne H32 H16. f_equal.
  fold (all_tiers_empty t). rewrite Hne.
  rewrite calls_bind, walk_tiers_first_nonempty.
  rewrite first_capable_outcome, H32 by exact Hcaps.
  rewrite first_capable_calls_no_match by assumption. f_equal.
  rewrite calls_bind. simpl String.eqb. cbv iota.
  rewrite walk_tiers_first_nonempty.
  rewrite first_capable_outcome, H16 by exact Hcaps.
  rewrite first_capable_calls_no_match by assumption.
  destruct (CPU t); simpl; apply app_nil_r.
Qed.

(** X4: on two devices or more with successful queries, when no member of
    the first non-empty accelerator tier advertises FP32 or FP16, an FP32
    request falls back to the first device of the processor tier, or ends
    with the error "Cannot select any device" when that tier is empty;
    the members of the tier were then queried twice in order, once for
    each pass. *)
Theorem SelectDevice_FP32_processor_fallback (core : ICore)
  (devs : list DeviceName) :
  2 <= length devs ->
  queries_succeed core devs ->
  first_nonempty_tier (tiers_of core devs) <> [] ->
  (forall d, In d (first_nonempty_tier (tiers_of core devs)) ->
     advertises core "FP32" d = false /\ advertises core "FP16" d = false) ->
  outcome (SelectDevice core devs "FP32")
  = match CPU (tiers_of core devs) with
    | [] => Throw (GeneralError "Cannot select any device")
    | cpu0 :: _ => Ok cpu0
    end
  /\ calls (SelectDevice core devs "FP32")
     = List.map full_name_query (List.filter is_GPU devs)
       ++ List.map capability_query (first_nonempty_tier (tiers_of core devs))
       ++ List.map capability_query (first_nonempty_tier (tiers_of core devs)).
Proof.
  intros Hlen Hq Hne Hnone.
  assert (H32 : List.find (advertises core "FP32")
                  (first_nonempty_tier (tiers_of core devs)) = None)
    by (apply find_none_intro; intros y Hy; apply (Hnone y Hy)).
  assert (H16 : List.find (advertises core "FP16")
                  (first_nonempty_tier (tiers_of core devs)) = None)
    by (apply find_none_intro; intros y Hy; apply (Hnone y Hy)).
  split.
  - rewrite SelectDevice_outcome;
      [| exact Hlen | apply queries_succeed_full, Hq
       | apply queries_succeed_caps, Hq].
    unfold select_from.
    rewrite (first_nonempty_tier_not_all_empty _ Hne), H32.
    simpl String.eqb. cbv iota. rewrite H16. reflexivity.
  - apply SelectDevice_calls_two_passes; assumption.
Qed.

Lemma SelectDevice_FP32_processor_fallback_witness :
  outcome (SelectDevice int8_dgpu_core ["GPU.0"; "GPU.1"] "FP32")
  = match CPU (tiers_of int8_dgpu_core ["GPU.0"; "GPU.1"]) with
    | [] => Throw (GeneralError "Cannot select any device")
    | cpu0 :: _ => Ok cpu0
    end
  /\ calls (SelectDevice int8_dgpu_core ["GPU.0"; "GPU.1"] "FP32")
     = List.map full_name_query (List.filter is_GPU ["GPU.0"; "GPU.1"])
       ++ List.map capability_query
            (first_nonempty_tier (tiers_of int8_dgpu_core ["GPU.0"; "GPU.1"]))
       ++ List.map capability_query
            (first_nonempty_tier (tiers_of int8_dgpu_core ["GPU.0"; "GPU.1"])).
Proof.
  apply (SelectDevice_FP32_processor_fallback int8_dgpu_core ["GPU.0"; "GPU.1"]).
  - simpl. lia.
  - intros d [<-|[<-|[]]]; split; exact I.
  - discriminate.
  - intros d [<-|[]]. split; reflexivity.
Defined.

(** ** [SetConfig], [GetConfig] and the algebra of [mergeConfigs] *)

Lemma with_config_same (this : AutoInferencePlugin) :
  with_config this (_config this) = this.
Proof. destruct this; reflexivity. Qed.

Lemma set_entry_spec (this : AutoInferencePlugin) (kvp : string * string) :
  set_entry this kvp
  = match check_entry kvp with
    | Ok _ => (with_config this (<[fst kvp := snd kvp]> (_config this)), Ok tt)
    | Throw e => (this, Throw e)
    end.
Proof.
  unfold set_entry, check_entry, store_config, with_config.
  destruct (find_at_0 (fst kvp) "AUTO_"); [reflexivity|].
  destruct (String.eqb (fst kvp) KEY_PERF_COUNT); [|reflexivity].
  destruct (String.eqb (snd kvp) YES || String.eqb (snd kvp) NO); reflexivity.
Qed.

Definition insert_entries (entries : list (string * string))
  (config : gmap string string) : gmap string string :=
  fold_left (fun cfg kvp => <[fst kvp := snd kvp]> cfg) entries config.

Lemma set_entries_accepted (entries rest : list (string * string)) :
  forall this : AutoInferencePlugin,
  (forall k v, (k, v) ∈ entries -> entry_accepted k v) ->
  set_entries this (entries ++ rest)
  = set_entries (with_config this (insert_entries entries (_config this))) rest.
Proof.
  induction entries as [|[k v] entries IH]; intros this Hacc.
  - simpl. rewrite with_config_same. reflexivity.
  - simpl app. simpl set_entries. rewrite set_entry_spec.
    assert (Hkv : check_entry (k, v) = Ok tt)
      by (apply check_entry_accepted, Hacc; left).
    rewrite Hkv. rewrite IH by (intros k' v' H; apply Hacc; right; exact H).
    reflexivity.
Qed.

Lemma set_entries_verdict (entries : list (string * string)) :
  forall this : AutoInferencePlugin,
  snd (set_entries this entries) = check_entries entries.
Proof.
  induction entries as [|kvp entries IH]; intros this; [reflexivity|].
  simpl. rewrite set_entry_spec.
  destruct (check_entry kvp) as [[]|e]; [apply IH | reflexivity].
Qed.

Lemma string_leb_ne_ltb (s t : string) :
  String.leb s t = true -> s <> t -> String.ltb s t = true.
Proof.
  unfold String.leb, String.ltb. intros Hle Hne.
  destruct (String.compare s t) eqn:E; [|reflexivity|discriminate].
  apply String.compare_eq_iff in E. contradiction.
Qed.

(** The entries visited before the entry of key [k] are those of the
    smaller keys. *)
Lemma ordered_entries_before (config : gmap string string)
  (before after : list (string * string)) (k v k' v' : string) :
  ordered_entries config = before ++ (k, v) :: after ->
  ((k', v') ∈ before <-> config !! k' = Some v' /\ String.ltb k' k = true).
Proof.
  intros Hsplit.
  pose proof (ordered_entries_sorted config) as Hs.
  pose proof (ordered_entries_NoDup config) as Hnd.
  rewrite Hsplit in Hs, Hnd.
  split.
  - intros Hin. split.
    + apply elem_of_ordered_entries. rewrite Hsplit.
      apply elem_of_app. left. exact Hin.
    + apply string_leb_ne_ltb.
      * apply (StronglySorted_app_1_elem_of key_le before ((k, v) :: after)
                 (k', v') (k, v) Hs Hin). left.
      * intros ->. rewrite fmap_app in Hnd. apply NoDup_app in Hnd as (_ & Hd & _).
        apply (Hd k).
        -- apply (list_elem_of_fmap_2 fst before (k, v') Hin).
        -- simpl. left.
  - intros [Hlook Hlt].
    apply elem_of_ordered_entries in Hlook. rewrite Hsplit in Hlook.
    apply elem_of_app in Hlook as [Hin|Hin]; [exact Hin|].
    exfalso. apply elem_of_cons in Hin as [[= -> ->]|Hin].
    + rewrite string_ltb_irrefl in Hlt. discriminate.
    + apply StronglySorted_app_1_r in Hs.
      apply StronglySorted_cons in Hs as [Hall _].
      rewrite Forall_forall in Hall. specialize (Hall _ Hin).
      unfold key_le in Hall; simpl in Hall.
      exact (string_ltb_not_leb _ _ Hlt Hall).
Qed.

(** X5: [SetConfig] accepts exactly the maps [CheckConfig] accepts, and
    refuses the others with the same exception; when it succeeds, the
    stored configuration becomes the merge of the stored one with the
    new one, and the name and the core of the plugin are unchanged. *)
Theorem SetConfig_agrees_with_CheckConfig (this : AutoInferencePlugin)
  (config : gmap string string) :
  snd (SetConfig this config) = snd (CheckConfig this config)
  /\ (snd (SetConfig this config) = Ok tt ->
      fst (SetConfig this config)
      = with_config this (mergeConfigs (_config this) config)).
Proof.
  unfold SetConfig, CheckConfig. cbn [snd].
  split; [apply set_entries_verdict|].
  rewrite set_entries_verdict, check_entries_Ok. intros Hacc.
  rewrite <- (app_nil_r (ordered_entries config)).
  rewrite (set_entries_accepted _ [] this Hacc). reflexivity.
Qed.

Lemma SetConfig_agrees_with_CheckConfig_witness :
  fst (SetConfig demo_plugin {["AUTO_DEVICE_LIST" := "CPU"; "PERF_COUNT" := "NO"]})
  = with_config demo_plugin
      (mergeConfigs (_config demo_plugin)
         {["AUTO_DEVICE_LIST" := "CPU"; "PERF_COUNT" := "NO"]}).
Proof.
  apply (proj2 (SetConfig_agrees_with_CheckConfig demo_plugin
                  {["AUTO_DEVICE_LIST" := "CPU"; "PERF_COUNT" := "NO"]})).
  vm_compute. reflexivity.
Defined.

(** X6: [SetConfig] is not atomic. When it throws, the exception is the
    one of the first offending entry in the order of the keys: every
    entry with a smaller key passes the check. Those entries have already
    been stored and stay stored; the offending entry and those with
    larger keys are not stored. *)
Theorem SetConfig_partial_update (this : AutoInferencePlugin)
  (config : gmap string string) (e : Exception) :
  snd (SetConfig this config) = Throw e ->
  exists k v,
    config !! k = Some v
    /\ check_entry (k, v) = Throw e
    /\ (forall k' v', config !! k' = Some v' -> String.ltb k' k = true ->
          check_entry (k', v') = Ok tt)
    /\ _pluginName (fst (SetConfig this config)) = _pluginName this
    /\ _core (fst (SetConfig this config)) = _core this
    /\ forall k',
         _config (fst (SetConfig this config)) !! k'
         = match config !! k' with
           | Some v' => if String.ltb k' k then Some v' else _config this !! k'
           | None => _config this !! k'
           end.
Proof.
  unfold SetConfig. rewrite set_entries_verdict. intros He.
  destruct (check_entries_Throw _ _ He)
    as (before & k & v & after & Hsplit & Hbefore & Hkv).
  exists k, v.
  assert (Hin : config !! k = Some v).
  { apply elem_of_ordered_entries. rewrite Hsplit.
    apply elem_of_app. right. left. }
  assert (Hsmaller : forall k' v', config !! k' = Some v' ->
                       String.ltb k' k = true -> check_entry (k', v') = Ok tt).
  { intros k' v' Hk' Hlt. apply check_entry_accepted, Hbefore.
    apply (ordered_entries_before config before after k v k' v' Hsplit).
    split; assumption. }
  rewrite Hsplit, (set_entries_accepted before _ this Hbefore).
  simpl set_entries. rewrite set_entry_spec, Hkv. cbn [fst].
  repeat (split; [first [exact Hin | exact Hkv | exact Hsmaller
                        | reflexivity]|]).
  intros k'. cbn [_config with_config]. unfold insert_entries.
  assert (Hnd : NoDup (before.*1)).
  { pose proof (ordered_entries_NoDup config) as Hnd.
    rewrite Hsplit, fmap_app in Hnd. apply NoDup_app in Hnd as [Hnd _].
    exact Hnd. }
  rewrite (fold_insert_union before _ Hnd), lookup_union.
  destruct (config !! k') as [v'|] eqn:Ek'.
  - destruct (String.ltb k' k) eqn:Elt.
    + assert (Hb : (k', v') ∈ before)
        by (apply (ordered_entries_before config before after k v k' v' Hsplit);
            split; assumption).
      apply (elem_of_list_to_map_1 (M := gmap string) _ _ _ Hnd) in Hb. rewrite Hb.
      destruct (_config this !! k'); reflexivity.
    + assert (Hnone : (list_to_map before : gmap string string) !! k' = None).
      { apply not_elem_of_list_to_map_1. intros Hk'.
        apply list_elem_of_fmap in Hk' as ([k1 v1] & Heq & Hb). simpl in Heq.
        subst k1.
        apply (ordered_entries_before config before after k v k' v1 Hsplit)
          in Hb as [_ Hlt]. congruence. }
      rewrite Hnone. destruct (_config this !! k'); reflexivity.
  - assert (Hnone : (list_to_map before : gmap string string) !! k' = None).
    { apply not_elem_of_list_to_map_1. intros Hk'.
      apply list_elem_of_fmap in Hk' as ([k1 v1] & Heq & Hb). simpl in Heq.
      subst k1.
      apply (ordered_entries_before config before after k v k' v1 Hsplit)
        in Hb as [Hlook _]. congruence. }
    rewrite Hnone. destruct (_config this !! k'); reflexivity.
Qed.

Lemma SetConfig_partial_update_witness :
  exists k v,
    ({["AUTO_A" := "1"; "BAD" := "x"; "PERF_COUNT" := "YES"]}
       : gmap string string) !! k = Some v
    /\ check_entry (k, v)
       = Throw (GeneralError "Unsupported config key: BAD")
    /\ (forall k' v',
          ({["AUTO_A" := "1"; "BAD" := "x"; "PERF_COUNT" := "YES"]}
             : gmap string string) !! k' = Some v' ->
          String.ltb k' k = true -> check_entry (k', v') = Ok tt)
    /\ _pluginName (fst (SetConfig demo_plugin
         {["AUTO_A" := "1"; "BAD" := "x"; "PERF_COUNT" := "YES"]}))
       = _pluginName demo_plugin
    /\ _core (fst (SetConfig demo_plugin
         {["AUTO_A" := "1"; "BAD" := "x"; "PERF_COUNT" := "YES"]}))
       = _core demo_plugin
    /\ forall k',
         _config (fst (SetConfig demo_plugin
           {["AUTO_A" := "1"; "BAD" := "x"; "PERF_COUNT" := "YES"]})) !! k'
         = match ({["AUTO_A" := "1"; "BAD" := "x"; "PERF_COUNT" := "YES"]}
                    : gmap string string) !! k' with
           | Some v' => if String.ltb k' k then Some v'
                        else _config demo_plugin !! k'
           | None => _config demo_plugin !! k'
           end.
Proof.
  apply (SetConfig_partial_update demo_plugin
           {["AUTO_A" := "1"; "BAD" := "x"; "PERF_COUNT" := "YES"]}).
  vm_compute. reflexivity.
Defined.

Example SetConfig_keeps_smaller_keys :
  _config (fst (SetConfig demo_plugin
             {["AUTO_A" := "1"; "BAD" := "x"; "PERF_COUNT" := "YES"]}))
  = {["AUTO_A" := "1"]}.
Proof. vm_compute. reflexivity. Qed.

Lemma set_entry_valid (this : AutoInferencePlugin) (kvp : string * string) :
  valid_config (_config this) ->
  valid_config (_config (fst (set_entry this kvp))).
Proof.
  intros Hv. rewrite set_entry_spec.
  destruct (check_entry kvp) as [[]|e] eqn:E; [|exact Hv].
  destruct kvp as [k v]. apply check_entry_accepted in E.
  intros k' v'. cbn [fst snd _config with_config].
  destruct (decide (k = k')) as [<-|Hne].
  - rewrite lookup_insert_eq. intros [= <-]. exact E.
  - rewrite lookup_insert_ne by exact Hne. apply Hv.
Qed.

Lemma set_entries_valid (entries : list (string * string)) :
  forall this : AutoInferencePlugin,
  valid_config (_config this) ->
  valid_config (_config (fst (set_entries this entries))).
Proof.
  induction entries as [|kvp entries IH]; intros this Hv; [exact Hv|].
  simpl. pose proof (set_entry_valid this kvp Hv) as Hv'.
  destruct (set_entry this kvp) as [this' [[]|e]]; [apply IH|]; exact Hv'.
Qed.

(** X7: the stored configuration of a plugin always passes [CheckConfig]:
    starting from a newly constructed plugin, after any sequence of calls
    of [SetConfig], successful or not, every stored entry is one that
    [CheckConfig] accepts. *)
Theorem stored_config_always_valid (configs : list (gmap string string)) :
  valid_config (_config (SetConfig_all new_AutoInferencePlugin configs))
  /\ snd (CheckConfig (SetConfig_all new_AutoInferencePlugin configs)
            (_config (SetConfig_all new_AutoInferencePlugin configs)))
     = Ok tt.
Proof.
  assert (H : forall this, valid_config (_config this) ->
                valid_config (_config (SetConfig_all this configs))).
  { unfold SetConfig_all.
    induction configs as [|config configs IH]; intros this Hv; [exact Hv|].
    simpl. apply IH. unfold SetConfig. apply set_entries_valid, Hv. }
  assert (Hnew : valid_config (_config (SetConfig_all new_AutoInferencePlugin
                                          configs))).
  { apply H. intros k v Hkv. simpl in Hkv. rewrite lookup_empty in Hkv.
    discriminate. }
  split; [exact Hnew|]. apply CheckConfig_accepts. exact Hnew.
Qed.

(** X8: after a successful [SetConfig], [GetConfig] gives back, for every
    key of the new map, the value just stored, and for every other key
    what it gave before; for a key that is not stored, [GetConfig] throws
    "Unsupported config key: " followed by the key. The options are
    ignored. *)
Theorem GetConfig_after_SetConfig (this : AutoInferencePlugin)
  (config : gmap string string) (name : string)
  (options : gmap string IE_Parameter) :
  snd (SetConfig this config) = Ok tt ->
  GetConfig (fst (SetConfig this config)) name options
  = match config !! name with
    | Some value => Ok (Param_string value)
    | None => GetConfig this name ∅
    end
  /\ (config !! name = None -> _config this !! name = None ->
      GetConfig (fst (SetConfig this config)) name options
      = Throw (unsupported_key name)).
Proof.
  intros Hok.
  assert (Hget : GetConfig (fst (SetConfig this config)) name options
                 = match config !! name with
                   | Some value => Ok (Param_string value)
                   | None => GetConfig this name ∅
                   end).
  { unfold SetConfig, CheckConfig in *. rewrite set_entries_verdict in Hok.
    rewrite check_entries_Ok in Hok.
    rewrite <- (app_nil_r (ordered_entries config)).
    rewrite (set_entries_accepted _ [] this Hok). cbn [set_entries fst].
    unfold GetConfig. cbn [_config with_config].
    change (insert_entries (ordered_entries config) (_config this))
      with (mergeConfigs (_config this) config).
    rewrite mergeConfigs_union, lookup_union.
    destruct (config !! name), (_config this !! name); reflexivity. }
  split; [exact Hget|].
  intros Hc Ht. rewrite Hget, Hc. unfold GetConfig. rewrite Ht. reflexivity.
Qed.

Lemma GetConfig_after_SetConfig_witness :
  GetConfig (fst (SetConfig demo_plugin {["PERF_COUNT" := "NO"]}))
    "PERF_COUNT" ∅
  = match ({["PERF_COUNT" := "NO"]} : gmap string string) !! "PERF_COUNT" with
    | Some value => Ok (Param_string value)
    | None => GetConfig demo_plugin "PERF_COUNT" ∅
    end
  /\ (({["PERF_COUNT" := "NO"]} : gmap string string) !! "PERF_COUNT" = None ->
      _config demo_plugin !! "PERF_COUNT" = None ->
      GetConfig (fst (SetConfig demo_plugin {["PERF_COUNT" := "NO"]}))
        "PERF_COUNT" ∅
      = Throw (unsupported_key "PERF_COUNT")).
Proof.
  apply (GetConfig_after_SetConfig demo_plugin {["PERF_COUNT" := "NO"]}
           "PERF_COUNT" ∅).
  vm_compute. reflexivity.
Defined.

(** X9: [mergeConfigs] is associative and idempotent, and the empty map is
    its identity on the left as on the right: merging configurations in
    stages gives the same map as merging them at once. *)
Theorem mergeConfigs_monoid (A B C : gmap string string) :
  mergeConfigs (mergeConfigs A B) C = mergeConfigs A (mergeConfigs B C)
  /\ mergeConfigs A A = A
  /\ mergeConfigs ∅ B = B
  /\ mergeConfigs B ∅ = B.
Proof.
  rewrite !mergeConfigs_union.
  split; [apply (assoc_L (∪))|].
  split; [apply (idemp_L (∪))|].
  split; [apply (right_id_L ∅ (∪)) | apply (left_id_L ∅ (∪))].
Qed.

(** X10: the merge of two configurations passes [CheckConfig] exactly when
    every entry of the overriding map is acceptable and so is every entry
    of the base map that is not overridden; in particular an unacceptable
    stored entry is repaired by overriding it, and merging two acceptable
    maps gives an acceptable map. *)
Theorem CheckConfig_of_merge (this : AutoInferencePlugin)
  (A B : gmap string string) :
  (snd (CheckConfig this (mergeConfigs A B)) = Ok tt
   <-> valid_config B
       /\ forall k v, A !! k = Some v -> B !! k = None -> entry_accepted k v)
  /\ (valid_config A -> valid_config B ->
      snd (CheckConfig this (mergeConfigs A B)) = Ok tt).
Proof.
  assert (Hiff : snd (CheckConfig this (mergeConfigs A B)) = Ok tt
    <-> valid_config B
        /\ forall k v, A !! k = Some v -> B !! k = None -> entry_accepted k v).
  { rewrite CheckConfig_accepts, mergeConfigs_union. unfold valid_config.
    split.
    - intros H. split.
      + intros k v Hk. apply H. rewrite lookup_union, Hk.
        destruct (A !! k); reflexivity.
      + intros k v HA HB. apply H. rewrite lookup_union, HA, HB. reflexivity.
    - intros [HB HA] k v. rewrite lookup_union.
      destruct (B !! k) as [vb|] eqn:EB.
      + destruct (A !! k); intros [= <-]; apply HB, EB.
      + destruct (A !! k) as [va|] eqn:EA; [|discriminate].
        intros [= <-]. apply HA; assumption. }
  split; [exact Hiff|].
  intros HA HB. apply Hiff. split; [exact HB|].
  intros k v Hk _. apply HA, Hk.
Qed.

Lemma CheckConfig_of_merge_witness :
  snd (CheckConfig demo_plugin
         (mergeConfigs {["PERF_COUNT" := "MAYBE"]} {["PERF_COUNT" := "YES"]}))
  = Ok tt.
Proof.
  apply (proj1 (CheckConfig_of_merge demo_plugin
                  {["PERF_COUNT" := "MAYBE"]} {["PERF_COUNT" := "YES"]})).
  split.
  - intros k v Hkv. apply lookup_singleton_Some in Hkv as [<- <-].
    right. split; [reflexivity | left; reflexivity].
  - intros k v HA HB. apply lookup_singleton_Some in HA as [<- <-].
    rewrite lookup_singleton_eq in HB. discriminate.
Defined.

(** ** [LoadNetworkImpl] and [QueryNetwork]: errors first, then devices *)

(** X11: [LoadNetworkImpl] fails fast: with a core and an input, a merged
    configuration that [CheckConfig] refuses ends the call with the
    exception of [CheckConfig] before any call to the core, the
    enumeration of the devices included; a failure of [GetDeviceList] (an
    empty list, or an enumeration that throws) ends it with that
    exception, the only call made to the core being [GetAvailableDevices],
    and that one only when the device list is not configured: no device
    has been asked for a metric. *)
Theorem LoadNetworkImpl_fails_fast
  (getHeteroDevices : string -> list DeviceName) (this : AutoInferencePlugin)
  (core : ICore) (modelPath : string) (network : CNNNetwork)
  (config : gmap string string) (networkPrecision : string) (e : Exception) :
  GetCore this = Some core ->
  String.eqb modelPath "" && is_nullptr (getFunction network) = false ->
  (snd (CheckConfig this (mergeConfigs (_config this) config)) = Throw e ->
   LoadNetworkImpl getHeteroDevices this modelPath network config
     networkPrecision = ([], Throw e))
  /\ (snd (CheckConfig this (mergeConfigs (_config this) config)) = Ok tt ->
      outcome (GetDeviceList getHeteroDevices core
                 (mergeConfigs (_config this) config)) = Throw e ->
      LoadNetworkImpl getHeteroDevices this modelPath network config
        networkPrecision
      = (enumeration_calls (mergeConfigs (_config this) config), Throw e)).
Proof.
  intros Hcore Hinput. unfold LoadNetworkImpl. rewrite Hcore, Hinput.
  split.
  - intros ->. reflexivity.
  - intros -> Hlist. unfold lift, bind at 1. cbv beta iota.
    rewrite GetDeviceList_eta, Hlist. unfold bind. cbn [app]. reflexivity.
Qed.

Lemma LoadNetworkImpl_fails_fast_witness :
  LoadNetworkImpl one_device demo_plugin "" demo_network
    {["PERF_COUNT" := "MAYBE"]} "FP32"
  = ([], Throw (GeneralError
                  "Unsupported config value: MAYBE for key: PERF_COUNT"))
  /\ LoadNetworkImpl one_device offline_plugin "" demo_network ∅ "FP32"
     = (enumeration_calls (mergeConfigs (_config offline_plugin) ∅),
        Throw (GeneralError "enumeration failed")).
Proof.
  split.
  - apply (proj1 (LoadNetworkImpl_fails_fast one_device demo_plugin demo_core
                    "" demo_network {["PERF_COUNT" := "MAYBE"]} "FP32"
                    (GeneralError
                       "Unsupported config value: MAYBE for key: PERF_COUNT")
                    eq_refl eq_refl)).
    vm_compute. reflexivity.
  - apply (proj2 (LoadNetworkImpl_fails_fast one_device offline_plugin
                    offline_core "" demo_network ∅ "FP32"
                    (GeneralError "enumeration failed") eq_refl eq_refl)).
    + vm_compute. reflexivity.
    + vm_compute. reflexivity.
Defined.

(** The three ways to fail before a device is chosen, with their logs: a
    refused configuration (no call), an enumeration that throws and a
    configured list that parses to nothing. *)
Example LoadNetworkImpl_failures :
  LoadNetworkImpl one_device offline_plugin "" demo_network
    {["PERF_COUNT" := "MAYBE"]} "FP32"
  = ([], Throw (GeneralError
                  "Unsupported config value: MAYBE for key: PERF_COUNT"))
  /\ LoadNetworkImpl one_device offline_plugin "" demo_network ∅ "FP32"
     = ([CallGetAvailableDevices], Throw (GeneralError "enumeration failed"))
  /\ LoadNetworkImpl (fun _ => []) demo_plugin "" demo_network
       {["AUTO_DEVICE_LIST" := ""]} "FP32"
     = ([], Throw (GeneralError
          "Please, check environment due to no supported devices can be used")).
Proof. repeat split; vm_compute; reflexivity. Qed.

(** X12: every handle returned by [LoadNetworkImpl] has at least one
    started task. Its processor task, when started, loads on the first
    listed device whose name contains "CPU"; its accelerator task, when
    started, loads on the device chosen by [SelectDevice], which is listed
    and whose name does not contain "CPU". *)
Theorem LoadNetworkImpl_handle
  (getHeteroDevices : string -> list DeviceName) (this : AutoInferencePlugin)
  (modelPath : string) (network : CNNNetwork) (config : gmap string string)
  (networkPrecision : string) (handle : AutoExecutableNetwork) :
  outcome (LoadNetworkImpl getHeteroDevices this modelPath network config
             networkPrecision) = Ok handle ->
  exists core metaDevices,
    GetCore this = Some core
    /\ outcome (GetDeviceList getHeteroDevices core
                  (mergeConfigs (_config this) config)) = Ok metaDevices
    /\ cpuFuture handle
       = List.find (fun d => find_not_npos d "CPU") metaDevices
    /\ (forall d, acceleratorFuture handle = Some d ->
          In d metaDevices /\ find_not_npos d "CPU" = false
          /\ outcome (SelectDevice core metaDevices networkPrecision) = Ok d)
    /\ (cpuFuture handle <> None \/ acceleratorFuture handle <> None).
Proof.
  unfold LoadNetworkImpl.
  destruct (GetCore this) as [core|]; [|discriminate].
  destruct (String.eqb modelPath "" && is_nullptr (getFunction network));
    [discriminate|].
  rewrite outcome_bind. unfold lift, outcome at 1. cbn [snd].
  destruct (snd (CheckConfig this (mergeConfigs (_config this) config)))
    as [[]|e]; [|discriminate].
  rewrite outcome_bind.
  destruct (outcome (GetDeviceList getHeteroDevices core
                       (mergeConfigs (_config this) config)))
    as [metaDevices|e] eqn:Elist; [|discriminate].
  rewrite outcome_bind.
  destruct (outcome (SelectDevice core metaDevices networkPrecision))
    as [accelerator|e] eqn:Esel; [|discriminate].
  cbn [outcome ret snd]. intros [= <-]. cbn [cpuFuture acceleratorFuture].
  exists core, metaDevices.
  split; [reflexivity|]. split; [exact Elist|]. split; [reflexivity|].
  pose proof (SelectDevice_Ok_In core metaDevices networkPrecision accelerator
                Esel) as Hin.
  destruct (find_not_npos accelerator "CPU") eqn:Ecpu; cbn [negb].
  - split; [intros d; discriminate|]. left.
    destruct (find_exists (fun d => find_not_npos d "CPU") metaDevices
                accelerator Hin Ecpu) as [y ->].
    discriminate.
  - split; [|right; discriminate].
    intros d [= <-]. repeat split; assumption.
Qed.

Lemma LoadNetworkImpl_handle_witness :
  exists core metaDevices,
    GetCore demo_plugin = Some core
    /\ outcome (GetDeviceList one_device core
                  (mergeConfigs (_config demo_plugin) ∅)) = Ok metaDevices
    /\ cpuFuture {| cpuFuture := Some "CPU"; acceleratorFuture := Some "GPU.0";
                    enablePerfCount := false |}
       = List.find (fun d => find_not_npos d "CPU") metaDevices
    /\ (forall d, acceleratorFuture
                    {| cpuFuture := Some "CPU"; acceleratorFuture := Some "GPU.0";
                       enablePerfCount := false |} = Some d ->
          In d metaDevices /\ find_not_npos d "CPU" = false
          /\ outcome (SelectDevice core metaDevices "FP32") = Ok d)
    /\ (cpuFuture {| cpuFuture := Some "CPU"; acceleratorFuture := Some "GPU.0";
                     enablePerfCount := false |} <> None
        \/ acceleratorFuture
             {| cpuFuture := Some "CPU"; acceleratorFuture := Some "GPU.0";
                enablePerfCount := false |} <> None).
Proof.
  apply (LoadNetworkImpl_handle one_device demo_plugin "" demo_network ∅ "FP32").
  vm_compute. reflexivity.
Defined.

(** X13: when the device list holds one device, [LoadNetworkImpl] asks no
    device for a metric, whatever the precision: its only call to the core
    is [GetAvailableDevices], made when the device list is not
    configured. It starts exactly one task: the processor task when the
    name of the device contains "CPU", the accelerator task otherwise. *)
Theorem LoadNetworkImpl_one_device
  (getHeteroDevices : string -> list DeviceName) (this : AutoInferencePlugin)
  (core : ICore) (modelPath : string) (network : CNNNetwork)
  (config : gmap string string) (networkPrecision : string)
  (device : DeviceName) :
  GetCore this = Some core ->
  String.eqb modelPath "" && is_nullptr (getFunction network) = false ->
  snd (CheckConfig this (mergeConfigs (_config this) config)) = Ok tt ->
  outcome (GetDeviceList getHeteroDevices core
             (mergeConfigs (_config this) config)) = Ok [device] ->
  LoadNetworkImpl getHeteroDevices this modelPath network config
    networkPrecision
  = (enumeration_calls (mergeConfigs (_config this) config),
     Ok {| cpuFuture := if find_not_npos device "CPU"
                        then Some device else None;
           acceleratorFuture := if find_not_npos device "CPU"
                                then None else Some device;
           enablePerfCount :=
             bool_decide (is_Some (mergeConfigs (_config this) config
                                     !! KEY_PERF_COUNT)) |}).
Proof.
  intros Hcore Hinput Hcheck Hlist.
  unfold LoadNetworkImpl. rewrite Hcore, Hinput, Hcheck.
  unfold lift, bind at 1. cbv beta iota.
  rewrite GetDeviceList_eta, Hlist.
  unfold SelectDevice, bind, ret. cbv beta iota zeta. cbn [List.find].
  rewrite !app_nil_r.
  destruct (find_not_npos device "CPU"); reflexivity.
Qed.

Lemma LoadNetworkImpl_one_device_witness :
  LoadNetworkImpl one_device myriad_plugin "" demo_network ∅ "INT8"
  = (enumeration_calls (mergeConfigs (_config myriad_plugin) ∅),
     Ok {| cpuFuture := if find_not_npos "MYRIAD" "CPU"
                        then Some "MYRIAD" else None;
           acceleratorFuture := if find_not_npos "MYRIAD" "CPU"
                                then None else Some "MYRIAD";
           enablePerfCount :=
             bool_decide (is_Some (mergeConfigs (_config myriad_plugin) ∅
                                     !! KEY_PERF_COUNT)) |}).
Proof.
  apply (LoadNetworkImpl_one_device one_device myriad_plugin myriad_core).
  - reflexivity.
  - reflexivity.
  - vm_compute. reflexivity.
  - vm_compute. reflexivity.
Defined.

(** The two origins of a one-device list: enumerated by the core (one
    call) and configured (no call). *)
Example LoadNetworkImpl_one_device_logs :
  LoadNetworkImpl one_device myriad_plugin "" demo_network ∅ "INT8"
  = ([CallGetAvailableDevices],
     Ok {| cpuFuture := None; acceleratorFuture := Some "MYRIAD";
           enablePerfCount := false |})
  /\ LoadNetworkImpl one_device demo_plugin "" demo_network
       {["AUTO_DEVICE_LIST" := "MYRIAD"]} "INT8"
     = ([], Ok {| cpuFuture := None; acceleratorFuture := Some "MYRIAD";
                  enablePerfCount := false |}).
Proof. split; vm_compute; reflexivity. Qed.

Lemma query_devices_total (core : ICore) (metaDevices : list DeviceName) :
  exists scanned rest supportedLayers,
    query_devices core metaDevices ∅
    = (List.map CallQueryNetwork scanned, Ok supportedLayers)
    /\ metaDevices = scanned ++ rest.
Proof.
  induction metaDevices as [|d devs IH].
  - exists [], [], ∅. split; reflexivity.
  - rewrite query_devices_cons.
    destruct (core_supported_layers core d) as [deviceQr|e].
    + eexists [d], devs, _. split; reflexivity.
    + destruct IH as (scanned & rest & s & -> & ->).
      exists (d :: scanned), rest, s. split; reflexivity.
Qed.

(** X14: [QueryNetwork] does not validate the configuration and does not
    fail on devices: with a core, a graph and a non-empty device list it
    returns a mapping for every configuration, having queried a prefix of
    the device list (after the enumeration call, when the list is not
    configured), and every operation of the mapping is attributed to the
    name of the plugin. *)
Theorem QueryNetwork_total
  (getHeteroDevices : string -> list DeviceName) (this : AutoInferencePlugin)
  (core : ICore) (network : CNNNetwork) (nGraphFunc : Function)
  (config : gmap string string) (metaDevices : list DeviceName) :
  GetCore this = Some core ->
  getFunction network = Some nGraphFunc ->
  outcome (GetDeviceList getHeteroDevices core
             (mergeConfigs (_config this) config)) = Ok metaDevices ->
  exists scanned rest supportedLayersMap,
    QueryNetwork getHeteroDevices this network config
    = (enumeration_calls (mergeConfigs (_config this) config)
         ++ List.map CallQueryNetwork scanned,
       Ok supportedLayersMap)
    /\ metaDevices = scanned ++ rest
    /\ forall layer owner,
         supportedLayersMap !! layer = Some owner -> owner = GetName this.
Proof.
  intros Hcore Hfun Hlist.
  unfold QueryNetwork. rewrite Hcore, Hfun.
  rewrite GetDeviceList_eta, Hlist.
  unfold bind at 1. cbv beta iota.
  destruct (query_devices_total core metaDevices)
    as (scanned & rest & s & -> & Hsplit).
  unfold bind, ret. cbv beta iota zeta. rewrite !app_nil_r.
  eexists scanned, rest, _. split; [reflexivity|]. split; [exact Hsplit|].
  intros layer owner. rewrite owner_map_lookup.
  destruct (decide (layer ∈ s)); [intros [= <-]; reflexivity | discriminate].
Qed.

Lemma QueryNetwork_total_witness :
  exists scanned rest supportedLayersMap,
    QueryNetwork one_device accel_plugin demo_network
      {["PERF_COUNT" := "MAYBE"; "RANDOM_KEY" := "x"]}
    = (enumeration_calls
         (mergeConfigs (_config accel_plugin)
            {["PERF_COUNT" := "MAYBE"; "RANDOM_KEY" := "x"]})
         ++ List.map CallQueryNetwork scanned,
       Ok supportedLayersMap)
    /\ ["CPU"; "ACCEL.0"] = scanned ++ rest
    /\ forall layer owner,
         supportedLayersMap !! layer = Some owner ->
         owner = GetName accel_plugin.
Proof.
  apply (QueryNetwork_total one_device accel_plugin accel_core demo_network
           {| get_ordered_ops := [relu; conv "f32"] |}).
  - reflexivity.
  - reflexivity.
  - vm_compute. reflexivity.
Defined.

(** ** [GetMetric] and [GetOptimizationCapabilities] *)

Lemma insert_capabilities_elem (device_cap : list string) :
  forall (capabilities : gset string) (cap : string),
  cap ∈ fold_left (fun caps c => {[c]} ∪ caps) device_cap capabilities
  <-> cap ∈ capabilities \/ In cap device_cap.
Proof.
  induction device_cap as [|c device_cap IH]; intros capabilities cap; simpl.
  - tauto.
  - rewrite IH, elem_of_union, elem_of_singleton. intuition congruence.
Qed.

Lemma collect_capabilities_cons (core : ICore) (item : DeviceName)
  (rest : list DeviceName) (capabilities : gset string) :
  collect_capabilities core (item :: rest) capabilities
  = let '(log, r) :=
      collect_capabilities core rest
        match optimization_capabilities core item with
        | Ok device_cap =>
            fold_left (fun caps c => {[c]} ∪ caps) device_cap capabilities
        | Throw _ => capabilities
        end in
    (capability_query item :: log, r).
Proof.
  simpl. unfold GetMetric_OPTIMIZATION_CAPABILITIES, capability_query.
  destruct (optimization_capabilities core item) as [device_cap|e]; simpl.
  - destruct (collect_capabilities core rest _). reflexivity.
  - destruct (collect_capabilities core rest capabilities). reflexivity.
Qed.

Lemma collect_capabilities_spec (core : ICore) (devs : list DeviceName) :
  forall capabilities : gset string,
  exists collected : gset string,
    collect_capabilities core devs capabilities
    = (List.map capability_query devs, Ok collected)
    /\ forall cap,
         cap ∈ collected
         <-> cap ∈ capabilities
             \/ exists d device_cap,
                  In d devs /\ optimization_capabilities core d = Ok device_cap
                  /\ In cap device_cap.
Proof.
  induction devs as [|d devs IH]; intros capabilities.
  - exists capabilities. split; [reflexivity|].
    intros cap. split; [auto|]. intros [H|(d & caps & [] & _)]. exact H.
  - rewrite collect_capabilities_cons.
    destruct (optimization_capabilities core d) as [device_cap|e] eqn:Ed.
    + destruct (IH (fold_left (fun caps c => {[c]} ∪ caps) device_cap
                      capabilities)) as (collected & -> & Hc).
      exists collected. split; [reflexivity|].
      intros cap. rewrite Hc, insert_capabilities_elem. split.
      * intros [[H|H]|(d' & caps' & Hd' & Hq & Hin)]; [auto| |].
        -- right. exists d, device_cap. auto using in_eq.
        -- right. exists d', caps'. auto using in_cons.
      * intros [H|(d' & caps' & [<-|Hd'] & Hq & Hin)]; [auto| |].
        -- left. right. congruence.
        -- right. exists d', caps'. auto.
    + destruct (IH capabilities) as (collected & -> & Hc).
      exists collected. split; [reflexivity|].
      intros cap. rewrite Hc. split.
      * intros [H|(d' & caps' & Hd' & Hq & Hin)]; [auto|].
        right. exists d', caps'. auto using in_cons.
      * intros [H|(d' & caps' & [<-|Hd'] & Hq & Hin)]; [auto|congruence|].
        right. exists d', caps'. auto.
Qed.

(** X15: [GetOptimizationCapabilities] never fails because of a device:
    every device of the queried list is asked once, in order, a device
    whose query throws is passed over, and the result holds, without
    repetition, exactly the capabilities reported by the devices that
    answered. The list queried is the one parsed from the options when
    they hold the device-list key, else the one parsed from the stored
    configuration, else "CPU" and "GPU". *)
Theorem GetOptimizationCapabilities_union
  (getHeteroDevices : string -> list DeviceName) (bad_cast : Exception)
  (this : AutoInferencePlugin) (core : ICore)
  (options : gmap string IE_Parameter) (queried : list DeviceName) :
  ((exists s, options !! KEY_AUTO_DEVICE_LIST = Some (Param_string s)
              /\ queried = getHeteroDevices s)
   \/ (options !! KEY_AUTO_DEVICE_LIST = None
       /\ exists s, _config this !! KEY_AUTO_DEVICE_LIST = Some s
                    /\ queried = getHeteroDevices s)
   \/ (options !! KEY_AUTO_DEVICE_LIST = None
       /\ _config this !! KEY_AUTO_DEVICE_LIST = None
       /\ queried = ["CPU"; "GPU"])) ->
  exists capabilities,
    GetOptimizationCapabilities getHeteroDevices bad_cast this core options
    = (List.map capability_query queried, Ok capabilities)
    /\ base.NoDup capabilities
    /\ forall cap,
         In cap capabilities
         <-> exists d device_cap,
               In d queried /\ optimization_capabilities core d = Ok device_cap
               /\ In cap device_cap.
Proof.
  intros Hq.
  assert (Hlist :
    match options !! KEY_AUTO_DEVICE_LIST with
    | Some p =>
        bind (lift (as_string bad_cast p))
             (fun deviceListConfig => ret (getHeteroDevices deviceListConfig))
    | None =>
        match _config this !! KEY_AUTO_DEVICE_LIST with
        | Some deviceListConfig => ret (getHeteroDevices deviceListConfig)
        | None => ret ["CPU"; "GPU"]
        end
    end = ret queried).
  { destruct Hq as [(s & -> & ->)|[(-> & s & -> & ->)|(-> & -> & ->)]];
      reflexivity. }
  unfold GetOptimizationCapabilities. rewrite Hlist.
  unfold ret at 1, bind at 1. cbv beta iota.
  destruct (collect_capabilities_spec core queried ∅) as (collected & -> & Hc).
  unfold bind, ret. cbv beta iota zeta. cbn [app]. rewrite app_nil_r.
  exists (elements collected). split; [reflexivity|].
  split; [apply NoDup_elements|].
  intros cap. rewrite <- list_elem_of_In, elem_of_elements, Hc.
  split; [intros [H|H]; [|exact H] | auto].
  apply not_elem_of_empty in H. destruct H.
Qed.

Lemma GetOptimizationCapabilities_union_witness :
  exists capabilities,
    GetOptimizationCapabilities one_device (GeneralError "bad cast")
      partial_plugin partial_core ∅
    = (List.map capability_query ["CPU"; "GPU"], Ok capabilities)
    /\ base.NoDup capabilities
    /\ forall cap,
         In cap capabilities
         <-> exists d device_cap,
               In d ["CPU"; "GPU"]
               /\ optimization_capabilities partial_core d = Ok device_cap
               /\ In cap device_cap.
Proof.
  apply (GetOptimizationCapabilities_union one_device (GeneralError "bad cast")
           partial_plugin partial_core ∅ ["CPU"; "GPU"]).
  right. right. repeat split.
Defined.

(** X16: [GetMetric] answers exactly the four metrics it lists under
    SUPPORTED_METRICS. Any other name is refused with "Unsupported metric
    key " followed by the name; the metric names, the full device name and
    the configuration keys are answered without any query to the core,
    whatever the options. *)
Theorem GetMetric_supported
  (getHeteroDevices : string -> list DeviceName) (bad_cast : Exception)
  (this : AutoInferencePlugin) (core : ICore) (name : string)
  (options : gmap string IE_Parameter) :
  GetMetric getHeteroDevices bad_cast this core KEY_SUPPORTED_METRICS options
  = ([], Ok (Param_strings ["SUPPORTED_METRICS"; "FULL_DEVICE_NAME";
                            "SUPPORTED_CONFIG_KEYS";
                            "OPTIMIZATION_CAPABILITIES"]))
  /\ (~ In name ["SUPPORTED_METRICS"; "FULL_DEVICE_NAME";
                 "SUPPORTED_CONFIG_KEYS"; "OPTIMIZATION_CAPABILITIES"] ->
      GetMetric getHeteroDevices bad_cast this core name options
      = ([], Throw (GeneralError
                      (String.append "Unsupported metric key " name))))
  /\ (In name ["SUPPORTED_METRICS"; "FULL_DEVICE_NAME";
               "SUPPORTED_CONFIG_KEYS"] ->
      exists value,
        GetMetric getHeteroDevices bad_cast this core name options
        = ([], Ok value))
  /\ (name = "OPTIMIZATION_CAPABILITIES" ->
      GetMetric getHeteroDevices bad_cast this core name options
      = bind (GetOptimizationCapabilities getHeteroDevices bad_cast this core
                options)
             (fun capabilities => ret (Param_strings capabilities))).
Proof.
  split; [reflexivity|]. split; [|split].
  - intros Hno. unfold GetMetric.
    destruct (String.eqb_spec name KEY_SUPPORTED_METRICS) as [->|_];
      [exfalso; apply Hno; simpl; tauto|].
    destruct (String.eqb_spec name KEY_FULL_DEVICE_NAME) as [->|_];
      [exfalso; apply Hno; simpl; tauto|].
    destruct (String.eqb_spec name KEY_SUPPORTED_CONFIG_KEYS) as [->|_];
      [exfalso; apply Hno; simpl; tauto|].
    destruct (String.eqb_spec name KEY_OPTIMIZATION_CAPABILITIES) as [->|_];
      [exfalso; apply Hno; simpl; tauto|].
    reflexivity.
  - intros [<-|[<-|[<-|[]]]]; eexists; reflexivity.
  - intros ->. reflexivity.
Qed.

Lemma GetMetric_supported_witness :
  GetMetric one_device (GeneralError "bad cast") demo_plugin demo_core
    "AVAILABLE_DEVICES" ∅
  = ([], Throw (GeneralError "Unsupported metric key AVAILABLE_DEVICES"))
  /\ exists value,
       GetMetric one_device (GeneralError "bad cast") demo_plugin demo_core
         "FULL_DEVICE_NAME" ∅
       = ([], Ok value).
Proof.
  split.
  - apply (proj1 (proj2 (GetMetric_supported one_device
                           (GeneralError "bad cast") demo_plugin demo_core
                           "AVAILABLE_DEVICES" ∅))).
    intros [H|[H|[H|[H|[]]]]]; discriminate H.
  - apply (proj1 (proj2 (proj2 (GetMetric_supported one_device
                           (GeneralError "bad cast") demo_plugin demo_core
                           "FULL_DEVICE_NAME" ∅)))).
    right. left. reflexivity.
Defined.

(** ** More on [GetNetworkPrecision] *)

Lemma scan_ops_range (ops : list Node) :
  match scan_ops ops with
  | Ok (Some p) => p = "FP16" \/ p = "FP32"
  | Ok None => forall n, In n ops -> is_convolution_family n = true ->
                 weights_type n <> None
  | Throw e =>
      e = OutOfRange "node input index is out of range"
      /\ exists n, In n ops /\ is_convolution_family n = true
                   /\ weights_type n = None
  end.
Proof.
  induction ops as [|node ops IH]; simpl.
  - intros n [].
  - destruct (is_convolution_family node) eqn:Ec.
    + unfold input_1_type_name. fold (weights_type node).
      destruct (weights_type node) as [ty|] eqn:Ew.
      * destruct (String.eqb ty "f32"); [right; reflexivity|].
        destruct (String.eqb ty "f16"); [left; reflexivity|].
        destruct (scan_ops ops) as [[p|]|e].
        -- exact IH.
        -- intros n [<-|Hn] Hconv; [congruence | apply IH; assumption].
        -- destruct IH as (He & n & Hn & Hconv & Hw).
           split; [exact He|]. exists n. auto using in_cons.
      * split; [reflexivity|]. exists node. auto using in_eq.
    + destruct (scan_ops ops) as [[p|]|e].
      * exact IH.
      * intros n [<-|Hn] Hconv; [congruence | apply IH; assumption].
      * destruct IH as (He & n & Hn & Hconv & Hw).
        split; [exact He|]. exists n. auto using in_cons.
Qed.

(** X17: [GetNetworkPrecision] returns one of "INT8", "FP16" and "FP32"
    and nothing else; it fails only on a graph without FakeQuantize that
    holds a convolution-family node with fewer than two inputs, with the
    out-of-range exception of [input(1)], and succeeds on every graph
    whose convolution-family nodes all have a second input. *)
Theorem GetNetworkPrecision_range (nGraphFunc : Function) :
  (forall p, GetNetworkPrecision nGraphFunc = Ok p ->
     p = "INT8" \/ p = "FP16" \/ p = "FP32")
  /\ (forall e, GetNetworkPrecision nGraphFunc = Throw e ->
        e = OutOfRange "node input index is out of range"
        /\ has_op_with_type_FakeQuantize nGraphFunc = false
        /\ exists n, In n (get_ordered_ops nGraphFunc)
                     /\ is_convolution_family n = true
                     /\ weights_type n = None)
  /\ ((forall n, In n (get_ordered_ops nGraphFunc) ->
         is_convolution_family n = true -> weights_type n <> None) ->
      exists p, GetNetworkPrecision nGraphFunc = Ok p).
Proof.
  unfold GetNetworkPrecision.
  pose proof (scan_ops_range (get_ordered_ops nGraphFunc)) as Hscan.
  destruct (has_op_with_type_FakeQuantize nGraphFunc).
  { split; [intros p [= <-]; auto|]. split; [discriminate | eauto]. }
  destruct (scan_ops (get_ordered_ops nGraphFunc)) as [[p|]|e].
  - split; [intros p' [= <-]; tauto|]. split; [discriminate | eauto].
  - split; [intros p' [= <-]; auto|]. split; [discriminate | eauto].
  - split; [discriminate|]. split.
    + intros e' [= <-]. destruct Hscan as [He Hn]. auto.
    + intros Hall. destruct Hscan as (_ & n & Hn & Hc & Hw).
      destruct (Hall n Hn Hc Hw).
Qed.

Lemma GetNetworkPrecision_range_witness :
  exists p, GetNetworkPrecision {| get_ordered_ops := [relu; conv "u8"] |}
            = Ok p.
Proof.
  apply (proj2 (proj2 (GetNetworkPrecision_range
                         {| get_ordered_ops := [relu; conv "u8"] |}))).
  intros n [<-|[<-|[]]] Hc; discriminate.
Defined.

Lemma scan_ops_relevant (ops : list Node) :
  scan_ops (List.filter relevant_node ops) = scan_ops ops.
Proof.
  induction ops as [|node ops IH]; [reflexivity|].
  simpl List.filter. unfold relevant_node at 1.
  destruct (is_convolution_family node) eqn:Ec.
  - rewrite orb_true_r. simpl. rewrite Ec, IH. reflexivity.
  - rewrite orb_false_r.
    destruct (is_FakeQuantize node); simpl; rewrite Ec; exact IH.
Qed.

Lemma existsb_FakeQuantize_relevant (ops : list Node) :
  existsb is_FakeQuantize (List.filter relevant_node ops)
  = existsb is_FakeQuantize ops.
Proof.
  induction ops as [|node ops IH]; [reflexivity|].
  simpl List.filter. unfold relevant_node at 1.
  destruct (is_FakeQuantize node) eqn:Eq; simpl.
  - rewrite Eq. reflexivity.
  - destruct (is_convolution_family node); simpl; rewrite ?Eq; exact IH.
Qed.

(** X18: only FakeQuantize and convolution-family operators influence
    [GetNetworkPrecision]: removing every other operator from the graph
    changes neither the precision returned nor the failure. *)
Theorem GetNetworkPrecision_relevant_nodes (nGraphFunc : Function) :
  GetNetworkPrecision
    {| get_ordered_ops := List.filter relevant_node (get_ordered_ops nGraphFunc) |}
  = GetNetworkPrecision nGraphFunc.
Proof.
  unfold GetNetworkPrecision, has_op_with_type_FakeQuantize.
  cbn [get_ordered_ops].
  rewrite existsb_FakeQuantize_relevant, scan_ops_relevant. reflexivity.
Qed.

(** ** The layout conversions of the reorder node *)

Section Scatter.

Context {A I : Type}.
Variable src_data : N -> A.
Variable body : I -> (N -> A) -> (N -> A).
(** [writes i o s]: call [i] stores at offset [o] the source element of
    offset [s]. *)
Variable writes : I -> N -> N -> Prop.

Hypothesis body_cases :
  forall i dst o,
    (exists s, writes i o s /\ body i dst o = src_data s)
    \/ ((forall s, ~ writes i o s) /\ body i dst o = dst o).

Lemma fold_cases (calls_made : list I) (dst : N -> A) (o : N) :
  (exists i s, In i calls_made /\ writes i o s
               /\ fold_left (fun m i => body i m) calls_made dst o = src_data s)
  \/ ((forall i s, In i calls_made -> ~ writes i o s)
      /\ fold_left (fun m i => body i m) calls_made dst o = dst o).
Proof.
  induction calls_made as [|i rest IH] using rev_ind.
  - right. split; [intros i s [] | reflexivity].
  - rewrite fold_left_app. simpl.
    destruct (body_cases i (fold_left (fun m i => body i m) rest dst) o)
      as [(s & Hw & Hb)|[Hno Hb]].
    + left. exists i, s. split; [apply in_or_app; right; left; reflexivity|].
      split; assumption.
    + rewrite Hb. destruct IH as [(i' & s & Hin & Hw & Hr)|[Hno' Hr]].
      * left. exists i', s. split; [apply in_or_app; left; exact Hin|].
        split; assumption.
      * right. split; [|exact Hr].
        intros i' s Hin. apply in_app_or in Hin as [Hin|[<-|[]]].
        -- apply Hno', Hin.
        -- apply Hno.
Qed.

End Scatter.

Lemma nth_off_shift (off step : N) (k : nat) :
  nth_off off step (S k) = nth_off (size_t_add off step) step k.
Proof.
  unfold nth_off. induction k as [|k IH]; [reflexivity|].
  simpl in *. rewrite IH. reflexivity.
Qed.

Lemma copy_loop_cases {A} (src_data : N -> A) (step : N) (count : nat) :
  forall (src_off dst_off : N) (dst : N -> A) (o : N),
    (exists k, (k < count)%nat /\ o = nth_off dst_off step k
               /\ copy_loop count src_data src_off dst_off step dst o
                  = src_data (nth_off src_off 1 k))
    \/ ((forall k, (k < count)%nat -> o <> nth_off dst_off step k)
        /\ copy_loop count src_data src_off dst_off step dst o = dst o).
Proof.
  induction count as [|count IH]; intros src_off dst_off dst o.
  - right. split; [intros k Hk; lia | reflexivity].
  - simpl copy_loop.
    destruct (IH (size_t_add src_off 1) (size_t_add dst_off step)
                (store dst dst_off (src_data src_off)) o)
      as [(k & Hk & Ho & Hr)|[Hno Hr]].
    + left. exists (S k). rewrite !nth_off_shift.
      split; [lia|]. split; assumption.
    + rewrite Hr. unfold store.
      destruct (N.eqb_spec o dst_off) as [->|Hne].
      * left. exists 0%nat. split; [lia|]. split; reflexivity.
      * right. split; [|reflexivity].
        intros [|k] Hk; [exact Hne|].
        rewrite nth_off_shift. apply Hno. lia.
Qed.

Lemma size_t_small (x : N) : (x < size_t_modulus)%N -> size_t x = x.
Proof. apply N.mod_small. Qed.

Lemma nth_off_small (off step : N) (k : nat) :
  (off + N.of_nat k * step < size_t_modulus)%N ->
  nth_off off step k = (off + N.of_nat k * step)%N.
Proof.
  induction k as [|k IH]; intros Hs.
  - simpl. lia.
  - unfold nth_off in *. simpl Nat.iter. rewrite IH by lia.
    unfold size_t_add. rewrite size_t_small by lia. lia.
Qed.

Lemma offset_below (D C S b c s : N) :
  (b < D -> c < C -> s < S -> b * (C * S) + c * S + s < D * (C * S))%N.
Proof.
  intros Hb Hc Hs.
  assert (c * S + s < C * S)%N by nia.
  assert ((b + 1) * (C * S) <= D * (C * S))%N by (apply N.mul_le_mono_r; lia).
  lia.
Qed.

Lemma offset_below' (D C S b c s : N) :
  (b < D -> c < C -> s < S -> b * (C * S) + s * C + c < D * (C * S))%N.
Proof.
  intros Hb Hc Hs.
  assert (s * C + c < C * S)%N by nia.
  assert ((b + 1) * (C * S) <= D * (C * S))%N by (apply N.mul_le_mono_r; lia).
  lia.
Qed.

(** An offset names one element: batch, channel and position are
    determined by it. *)
Lemma ncsp_offset_inj (C S b c s b' c' s' : N) :
  (c < C -> s < S -> c' < C -> s' < S ->
   b * (C * S) + c * S + s = b' * (C * S) + c' * S + s' ->
   b = b' /\ c = c' /\ s = s')%N.
Proof.
  intros Hc Hs Hc' Hs' Heq.
  assert (H1 : (C * b + c = C * b' + c' /\ s = s')%N).
  { apply (N.div_mod_unique S); [assumption | assumption | lia]. }
  destruct H1 as [H1 ->].
  apply (N.div_mod_unique C) in H1 as [-> ->]; auto.
Qed.

Lemma nspc_offset_inj (C S b c s b' c' s' : N) :
  (c < C -> s < S -> c' < C -> s' < S ->
   b * (C * S) + s * C + c = b' * (C * S) + s' * C + c' ->
   b = b' /\ c = c' /\ s = s')%N.
Proof.
  intros Hc Hs Hc' Hs' Heq.
  assert (H1 : (S * b + s = S * b' + s' /\ c = c')%N).
  { apply (N.div_mod_unique C); [assumption | assumption | lia]. }
  destruct H1 as [H1 ->].
  apply (N.div_mod_unique S) in H1 as [-> ->]; auto.
Qed.

Lemma size_t_mul3 (a b c : N) :
  (a * b * c < size_t_modulus)%N ->
  size_t_mul (size_t_mul a b) c = (a * b * c)%N.
Proof.
  intros H. unfold size_t_mul, size_t.
  rewrite N.Div0.mul_mod_idemp_l. apply N.mod_small, H.
Qed.

Lemma size_t_mul2 (a b : N) :
  (a * b < size_t_modulus)%N -> size_t_mul a b = (a * b)%N.
Proof. apply size_t_small. Qed.

Lemma size_t_add_small (a b : N) :
  (a + b < size_t_modulus)%N -> size_t_add a b = (a + b)%N.
Proof. apply size_t_small. Qed.

Lemma nspc2ncsp_arith (D C S M b j k : N) :
  (b < D -> j < S -> k < C -> D * (C * S) < M ->
   S < M /\ S * C < M /\ b * (S * C) < M /\ j * C < M
   /\ b * (S * C) + j * C < M /\ b * (S * C) + j < M
   /\ b * (S * C) + j + k * S < M
   /\ b * (S * C) + j * C + k * 1 < M)%N.
Proof.
  intros Hb Hj Hk HM.
  pose proof (offset_below D C S b k j Hb Hk Hj) as H1.
  pose proof (offset_below' D C S b k j Hb Hk Hj) as H2.
  assert (1 * S <= C * S)%N by (apply N.mul_le_mono_r; lia).
  assert (1 * (C * S) <= D * (C * S))%N by (apply N.mul_le_mono_r; lia).
  assert (S * C = C * S)%N by lia.
  assert (j * C <= j * C + k)%N by lia.
  repeat split; nia.
Qed.

Lemma spatial_fits (D C S M b k : N) :
  (b < D -> k < C -> D * (C * S) < M -> S < M /\ C * S < M)%N.
Proof.
  intros Hb Hk HM.
  assert (1 * S <= C * S)%N by (apply N.mul_le_mono_r; lia).
  assert (1 * (C * S) <= D * (C * S))%N by (apply N.mul_le_mono_r; lia).
  split; lia.
Qed.

(** What [optimizedNspc2Ncsp] leaves at an offset: the source element of
    the transposed offset when the offset is one of the tensor, the old
    content otherwise. *)
Lemma optimizedNspc2Ncsp_cases {A} (schedule : Scheduler2) (inDims : list N)
  (src_data dst_data : N -> A) (o : N) :
  fair2 schedule ->
  (element_count inDims < size_t_modulus)%N ->
  (exists b c s,
     (b < DIM0 inDims /\ c < DIM1 inDims /\ s < spatial inDims)%N
     /\ o = ncsp_offset inDims b c s
     /\ optimizedNspc2Ncsp schedule inDims src_data dst_data o
        = src_data (nspc_offset inDims b c s))
  \/ ((forall b c s,
         (b < DIM0 inDims)%N -> (c < DIM1 inDims)%N -> (s < spatial inDims)%N ->
         o <> ncsp_offset inDims b c s)
      /\ optimizedNspc2Ncsp schedule inDims src_data dst_data o = dst_data o).
Proof.
  intros Hfair Hcount.
  unfold optimizedNspc2Ncsp, parallel_for2d, ncsp_offset, nspc_offset.
  unfold element_count in Hcount.
  set (D := DIM0 inDims) in *. set (C := DIM1 inDims) in *.
  fold (spatial inDims). set (S := spatial inDims) in *.
  set (stride1 := size_t_mul (size_t_mul (DIM2 inDims) (DIM3 inDims))
                    (DIM4 inDims)).
  set (stride0 := size_t_mul stride1 C).
  set (src_off := fun idx : N * N =>
         size_t_add (size_t_mul (fst idx) stride0) (size_t_mul (snd idx) C)).
  set (dst_off := fun idx : N * N =>
         size_t_add (size_t_mul (fst idx) stride0) (snd idx)).
  set (body := fun (idx : N * N) (m : N -> A) =>
         copy_loop (N.to_nat C) src_data (src_off idx) (dst_off idx) stride1 m).
  set (writes := fun (idx : N * N) (o s : N) =>
         exists k, (k < N.to_nat C)%nat /\ o = nth_off (dst_off idx) stride1 k
                   /\ s = nth_off (src_off idx) 1 k).
  change (fold_left _ (schedule D stride1) dst_data)
    with (fold_left (fun m i => body i m) (schedule D stride1) dst_data).
  assert (Hbody : forall i dst o',
            (exists s, writes i o' s /\ body i dst o' = src_data s)
            \/ ((forall s, ~ writes i o' s) /\ body i dst o' = dst o')).
  { intros i dst o'. unfold body, writes.
    destruct (copy_loop_cases src_data stride1 (N.to_nat C) (src_off i)
                (dst_off i) dst o') as [(k & Hk & Ho & Hr)|[Hno Hr]].
    - left. eexists. split; [exists k; repeat split; assumption | exact Hr].
    - right. split; [|exact Hr]. intros s (k & Hk & Ho & _).
      exact (Hno k Hk Ho). }
  (* the offsets of a call within the bounds, without wrap-around *)
  assert (Hmath : forall b j k,
            (b < D)%N -> (j < S)%N -> (N.of_nat k < C)%N ->
            stride1 = S
            /\ nth_off (dst_off (b, j)) stride1 k
               = (b * (C * S) + N.of_nat k * S + j)%N
            /\ nth_off (src_off (b, j)) 1 k
               = (b * (C * S) + j * C + N.of_nat k)%N).
  { intros b j k Hb Hj Hk.
    destruct (nspc2ncsp_arith D C S size_t_modulus b j (N.of_nat k)
                Hb Hj Hk Hcount)
      as (HS & HSC & Hb0 & HjC & Hsrc0 & Hdst0 & Hdstk & Hsrck).
    assert (Hs1 : stride1 = S) by (apply size_t_mul3; exact HS).
    assert (Hs0 : stride0 = (S * C)%N).
    { unfold stride0. rewrite Hs1. apply size_t_mul2. exact HSC. }
    split; [exact Hs1|].
    unfold dst_off, src_off. cbn [fst snd]. rewrite Hs0, Hs1.
    rewrite !(size_t_mul2 b (S * C)) by exact Hb0.
    rewrite (size_t_mul2 j C) by exact HjC.
    rewrite !size_t_add_small by assumption.
    rewrite !nth_off_small by assumption.
    clearbody D C S. split; lia. }
  destruct (fold_cases src_data body writes Hbody (schedule D stride1)
              dst_data o) as [([b j] & s & Hin & (k & Hk & Ho & Hs) & Hr)
                             |[Hno Hr]].
  - left. apply Hfair in Hin as [Hb Hj].
    assert (HkC : (N.of_nat k < C)%N) by lia.
    assert (HjS : (j < S)%N).
    { assert (stride1 = S); [|congruence].
      apply size_t_mul3.
      apply (spatial_fits D C S size_t_modulus b (N.of_nat k) Hb HkC Hcount). }
    destruct (Hmath b j k Hb HjS HkC) as (_ & Hd & Hsrc).
    exists b, (N.of_nat k), j. repeat split; try assumption.
    + rewrite Ho, Hd. reflexivity.
    + rewrite Hr, Hs, Hsrc. reflexivity.
  - right. split; [|exact Hr].
    intros b c s Hb Hc Hs Ho.
    assert (HkC : (N.of_nat (N.to_nat c) < C)%N) by lia.
    destruct (Hmath b s (N.to_nat c) Hb Hs HkC) as (Hs1 & Hd & Hsrc).
    apply (Hno (b, s) (nth_off (src_off (b, s)) 1 (N.to_nat c))).
    + apply Hfair. rewrite Hs1. split; assumption.
    + exists (N.to_nat c). split; [lia|]. split; [|reflexivity].
      rewrite Hd, Ho. lia.
Qed.

Lemma offset_decompose (D C S o : N) :
  (o < D * (C * S) ->
   exists b c s, b < D /\ c < C /\ s < S /\ o = b * (C * S) + c * S + s)%N.
Proof.
  intros Ho.
  assert (HCS : (C * S <> 0)%N) by (intros E; rewrite E in Ho; lia).
  assert (HS : (S <> 0)%N) by (intros E; apply HCS; rewrite E; lia).
  pose proof (N.div_mod o (C * S) HCS) as Hdiv.
  pose proof (N.mod_lt o (C * S) HCS) as Hr.
  pose proof (N.div_mod (o mod (C * S)) S HS) as Hdiv2.
  pose proof (N.mod_lt (o mod (C * S)) S HS) as Hr2.
  exists (o / (C * S))%N, ((o mod (C * S)) / S)%N, ((o mod (C * S)) mod S)%N.
  repeat split.
  - apply N.Div0.div_lt_upper_bound. lia.
  - apply N.Div0.div_lt_upper_bound. lia.
  - exact Hr2.
  - lia.
Qed.

(** X19: for a tensor of rank 4 or 5 whose element count fits a [size_t],
    [optimizedNspc2Ncsp] converts the channels-last layout to the
    channels-first one: the destination element of batch b, channel c and
    spatial position s is the source element of the same coordinates;
    these elements fill the offsets below the element count, and nothing
    is written at or beyond it. The result does not depend on the order in
    which the parallel loop makes its calls. *)
Theorem optimizedNspc2Ncsp_layout {A} (schedule : Scheduler2)
  (inDims : list N) (src_data dst_data : N -> A) :
  fair2 schedule ->
  (length inDims = 4 \/ length inDims = 5)%nat ->
  (element_count inDims < size_t_modulus)%N ->
  (forall b c s,
     (b < DIM0 inDims)%N -> (c < DIM1 inDims)%N -> (s < spatial inDims)%N ->
     optimizedNspc2Ncsp schedule inDims src_data dst_data
       (ncsp_offset inDims b c s)
     = src_data (nspc_offset inDims b c s))
  /\ (forall o, (element_count inDims <= o)%N ->
        optimizedNspc2Ncsp schedule inDims src_data dst_data o = dst_data o)
  /\ (forall o, (o < element_count inDims)%N ->
        exists b c s,
          (b < DIM0 inDims /\ c < DIM1 inDims /\ s < spatial inDims)%N
          /\ o = ncsp_offset inDims b c s).
Proof.
  intros Hfair _ Hcount. split; [|split].
  - intros b c s Hb Hc Hs.
    destruct (optimizedNspc2Ncsp_cases schedule inDims src_data dst_data
                (ncsp_offset inDims b c s) Hfair Hcount)
      as [(b' & c' & s' & (Hb' & Hc' & Hs') & Ho & Hr)|[Hno _]].
    + unfold ncsp_offset in Ho.
      destruct (ncsp_offset_inj _ _ b c s b' c' s' Hc Hs Hc' Hs' Ho)
        as (-> & -> & ->).
      exact Hr.
    + destruct (Hno b c s Hb Hc Hs eq_refl).
  - intros o Ho.
    destruct (optimizedNspc2Ncsp_cases schedule inDims src_data dst_data
                o Hfair Hcount)
      as [(b' & c' & s' & (Hb' & Hc' & Hs') & Heq & _)|[_ Hr]]; [|exact Hr].
    exfalso. unfold element_count in Ho.
    pose proof (offset_below _ _ _ _ _ _ Hb' Hc' Hs') as Hlt.
    unfold ncsp_offset in Heq. rewrite <- Heq in Hlt. lia.
  - intros o Ho. unfold element_count in Ho.
    destruct (offset_decompose _ _ _ _ Ho) as (b & c & s & Hb & Hc & Hs & Heq).
    exists b, c, s. repeat split; assumption.
Qed.

Lemma In_below (n i : N) : In i (below n) <-> (i < n)%N.
Proof.
  unfold below. rewrite in_map_iff. split.
  - intros (k & <- & Hk). apply in_seq in Hk. lia.
  - intros Hi. exists (N.to_nat i). split; [lia|]. apply in_seq. lia.
Qed.

Lemma sequential2_fair : fair2 sequential2.
Proof.
  intros D0 D1 i0 i1. unfold sequential2. rewrite in_flat_map. split.
  - intros (x & Hx & Hin). apply in_map_iff in Hin as (y & [= <- <-] & Hy).
    split; apply In_below; assumption.
  - intros [H0 H1]. exists i0. split; [apply In_below, H0|].
    apply in_map_iff. exists i1. split; [reflexivity | apply In_below, H1].
Qed.

Lemma sequential3_fair : fair3 sequential3.
Proof.
  intros D0 D1 D2 i0 i1 i2. unfold sequential3. rewrite in_flat_map. split.
  - intros (x & Hx & Hin). apply in_flat_map in Hin as (y & Hy & Hin).
    apply in_map_iff in Hin as (z & [= <- <- <-] & Hz).
    repeat split; apply In_below; assumption.
  - intros (H0 & H1 & H2). exists i0. split; [apply In_below, H0|].
    apply in_flat_map. exists i1. split; [apply In_below, H1|].
    apply in_map_iff. exists i2. split; [reflexivity | apply In_below, H2].
Qed.

Lemma optimizedNspc2Ncsp_layout_witness :
  optimizedNspc2Ncsp sequential2 [1; 2; 1; 3]%N offsets_buffer zero_buffer
    (ncsp_offset [1; 2; 1; 3]%N 0 1 2)
  = offsets_buffer (nspc_offset [1; 2; 1; 3]%N 0 1 2).
Proof.
  apply (proj1 (optimizedNspc2Ncsp_layout sequential2 [1; 2; 1; 3]%N
                  offsets_buffer zero_buffer sequential2_fair
                  (or_introl eq_refl) eq_refl)); reflexivity.
Defined.

Example optimizedNspc2Ncsp_small :
  List.map (optimizedNspc2Ncsp sequential2 [1; 2; 1; 3]%N
              offsets_buffer zero_buffer) (below 8)
  = [0; 2; 4; 1; 3; 5; 0; 0]%N.
Proof. vm_compute. reflexivity. Qed.

Lemma size_t_mul4 (a b c d : N) :
  (a * b * c * d < size_t_modulus)%N ->
  size_t_mul (size_t_mul (size_t_mul a b) c) d = (a * b * c * d)%N.
Proof.
  intros H. unfold size_t_mul, size_t.
  rewrite N.Div0.mul_mod_idemp_l.
  rewrite <- (N.mul_assoc _ c d), N.Div0.mul_mod_idemp_l, N.mul_assoc.
  apply N.mod_small, H.
Qed.

Lemma ncsp2nspc_arith (D C P W M b c j k : N) :
  (b < D -> c < C -> j < P -> k < W -> D * (C * (P * W)) < M ->
   P < M /\ P * W < M /\ C * P * W < M /\ j * W + k < P * W
   /\ b * (C * P * W) < M /\ j * W < M /\ j * W * C < M /\ c * (P * W) < M
   /\ b * (C * P * W) + j * W < M
   /\ b * (C * P * W) + j * W + c * (P * W) < M
   /\ b * (C * P * W) + j * W * C < M
   /\ b * (C * P * W) + j * W * C + c < M
   /\ b * (C * P * W) + j * W * C + c + k * C < M
   /\ b * (C * P * W) + j * W + c * (P * W) + k * 1 < M)%N.
Proof.
  intros Hb Hc Hj Hk HM.
  assert (Hs : (j * W + k < P * W)%N) by nia.
  pose proof (offset_below D C (P * W) b c (j * W + k) Hb Hc Hs) as H1.
  pose proof (offset_below' D C (P * W) b c (j * W + k) Hb Hc Hs) as H2.
  assert (P * 1 <= P * W)%N by (apply N.mul_le_mono_l; lia).
  assert (1 * (P * W) <= C * (P * W))%N by (apply N.mul_le_mono_r; lia).
  assert (1 * (C * (P * W)) <= D * (C * (P * W)))%N
    by (apply N.mul_le_mono_r; lia).
  assert (C * P * W = C * (P * W))%N by lia.
  assert (j * W * C + k * C = (j * W + k) * C)%N by lia.
  repeat split; nia.
Qed.

Lemma ncsp2nspc_fits (D C P W M b c k : N) :
  (b < D -> c < C -> k < W -> D * (C * (P * W)) < M ->
   P < M /\ P * W < M /\ C * P * W < M)%N.
Proof.
  intros Hb Hc Hk HM.
  assert (P * 1 <= P * W)%N by (apply N.mul_le_mono_l; lia).
  assert (1 * (P * W) <= C * (P * W))%N by (apply N.mul_le_mono_r; lia).
  assert (1 * (C * (P * W)) <= D * (C * (P * W)))%N
    by (apply N.mul_le_mono_r; lia).
  assert (C * P * W = C * (P * W))%N by lia.
  repeat split; lia.
Qed.

(** What [optimizedNcsp2Nspc] leaves at an offset. *)
Lemma optimizedNcsp2Nspc_cases {A} (schedule : Scheduler3) (inDims : list N)
  (src_data dst_data : N -> A) (o : N) :
  fair3 schedule ->
  (element_count inDims < size_t_modulus)%N ->
  (exists b c s,
     (b < DIM0 inDims /\ c < DIM1 inDims /\ s < spatial inDims)%N
     /\ o = nspc_offset inDims b c s
     /\ optimizedNcsp2Nspc schedule inDims src_data dst_data o
        = src_data (ncsp_offset inDims b c s))
  \/ ((forall b c s,
         (b < DIM0 inDims)%N -> (c < DIM1 inDims)%N -> (s < spatial inDims)%N ->
         o <> nspc_offset inDims b c s)
      /\ optimizedNcsp2Nspc schedule inDims src_data dst_data o = dst_data o).
Proof.
  intros Hfair Hcount.
  unfold optimizedNcsp2Nspc, parallel_for3d, ncsp_offset, nspc_offset, spatial.
  unfold element_count, spatial in Hcount.
  set (D := DIM0 inDims) in *. set (C := DIM1 inDims) in *.
  set (W := DIM4 inDims) in *.
  set (P := (DIM2 inDims * DIM3 inDims)%N) in *.
  set (stride0 := size_t_mul (size_t_mul (size_t_mul C (DIM2 inDims))
                                (DIM3 inDims)) W).
  set (stride1 := size_t_mul (size_t_mul (DIM2 inDims) (DIM3 inDims)) W).
  set (stride2 := size_t_mul (DIM2 inDims) (DIM3 inDims)).
  set (src_off := fun idx : N * N * N =>
         size_t_add (size_t_add (size_t_mul (fst (fst idx)) stride0)
                       (size_t_mul (snd idx) W))
                    (size_t_mul (snd (fst idx)) stride1)).
  set (dst_off := fun idx : N * N * N =>
         size_t_add (size_t_add (size_t_mul (fst (fst idx)) stride0)
                       (size_t_mul (size_t_mul (snd idx) W) C))
                    (snd (fst idx))).
  set (body := fun (idx : N * N * N) (m : N -> A) =>
         copy_loop (N.to_nat W) src_data (src_off idx) (dst_off idx) C m).
  set (writes := fun (idx : N * N * N) (o s : N) =>
         exists k, (k < N.to_nat W)%nat /\ o = nth_off (dst_off idx) C k
                   /\ s = nth_off (src_off idx) 1 k).
  change (fold_left _ (schedule D C stride2) dst_data)
    with (fold_left (fun m i => body i m) (schedule D C stride2) dst_data).
  assert (Hbody : forall i dst o',
            (exists s, writes i o' s /\ body i dst o' = src_data s)
            \/ ((forall s, ~ writes i o' s) /\ body i dst o' = dst o')).
  { intros i dst o'. unfold body, writes.
    destruct (copy_loop_cases src_data C (N.to_nat W) (src_off i)
                (dst_off i) dst o') as [(k & Hk & Ho & Hr)|[Hno Hr]].
    - left. eexists. split; [exists k; repeat split; assumption | exact Hr].
    - right. split; [|exact Hr]. intros s (k & Hk & Ho & _).
      exact (Hno k Hk Ho). }
  assert (Hmath : forall b c j k,
            (b < D)%N -> (c < C)%N -> (j < P)%N -> (N.of_nat k < W)%N ->
            stride2 = P
            /\ (j * W + N.of_nat k < P * W)%N
            /\ nth_off (dst_off (b, c, j)) C k
               = (b * (C * (P * W)) + (j * W + N.of_nat k) * C + c)%N
            /\ nth_off (src_off (b, c, j)) 1 k
               = (b * (C * (P * W)) + c * (P * W) + (j * W + N.of_nat k))%N).
  { intros b c j k Hb Hc Hj Hk.
    destruct (ncsp2nspc_arith D C P W size_t_modulus b c j (N.of_nat k)
                Hb Hc Hj Hk Hcount)
      as (HP & HPW & HCPW & Hs & Hb0 & HjW & HjWC & HcS & Hs1 & Hs2 & Hd1
          & Hd2 & Hdk & Hsk).
    assert (E2 : stride2 = P) by (apply size_t_mul2; exact HP).
    assert (E1 : stride1 = (P * W)%N).
    { unfold stride1. fold stride2. rewrite E2. apply size_t_mul2, HPW. }
    assert (E0 : stride0 = (C * P * W)%N).
    { unfold stride0.
      rewrite (size_t_mul4 C (DIM2 inDims) (DIM3 inDims) W).
      - unfold P. lia.
      - replace (C * DIM2 inDims * DIM3 inDims * W)%N with (C * P * W)%N
          by (unfold P; lia).
        exact HCPW. }
    split; [exact E2|]. split; [exact Hs|].
    unfold dst_off, src_off. cbn [fst snd]. rewrite E0, E1.
    rewrite !(size_t_mul2 b (C * P * W)) by exact Hb0.
    rewrite !(size_t_mul2 j W) by exact HjW.
    rewrite (size_t_mul2 (j * W) C) by exact HjWC.
    rewrite (size_t_mul2 c (P * W)) by exact HcS.
    rewrite (size_t_add_small (b * (C * P * W)) (j * W)) by exact Hs1.
    rewrite (size_t_add_small (b * (C * P * W) + j * W)) by exact Hs2.
    rewrite (size_t_add_small (b * (C * P * W)) (j * W * C)) by exact Hd1.
    rewrite (size_t_add_small (b * (C * P * W) + j * W * C)) by exact Hd2.
    rewrite !nth_off_small by assumption.
    clearbody D C P W. split; lia. }
  destruct (fold_cases src_data body writes Hbody (schedule D C stride2)
              dst_data o) as [([[b c] j] & s & Hin & (k & Hk & Ho & Hs) & Hr)
                             |[Hno Hr]].
  - left. apply Hfair in Hin as (Hb & Hc & Hj).
    assert (HkW : (N.of_nat k < W)%N) by lia.
    assert (HjP : (j < P)%N).
    { assert (stride2 = P); [|congruence].
      apply size_t_mul2.
      apply (ncsp2nspc_fits D C P W size_t_modulus b c (N.of_nat k)
               Hb Hc HkW Hcount). }
    destruct (Hmath b c j k Hb Hc HjP HkW) as (_ & Hlt & Hd & Hsrc).
    exists b, c, (j * W + N.of_nat k)%N. repeat split; try assumption.
    + rewrite Ho, Hd. reflexivity.
    + rewrite Hr, Hs, Hsrc. reflexivity.
  - right. split; [|exact Hr].
    intros b c s Hb Hc Hs Ho.
    assert (HW : (W <> 0)%N) by (intros E; rewrite E in Hs; lia).
    pose proof (N.div_mod s W HW) as Hdiv.
    pose proof (N.mod_lt s W HW) as Hmod.
    assert (Hj : (s / W < P)%N)
      by (apply N.Div0.div_lt_upper_bound; lia).
    assert (HkW : (N.of_nat (N.to_nat (s mod W)) < W)%N) by lia.
    destruct (Hmath b c (s / W)%N (N.to_nat (s mod W)) Hb Hc Hj HkW)
      as (E2 & _ & Hd & Hsrc).
    apply (Hno (b, c, (s / W)%N)
               (nth_off (src_off (b, c, (s / W)%N)) 1 (N.to_nat (s mod W)))).
    + apply Hfair. rewrite E2. repeat split; assumption.
    + exists (N.to_nat (s mod W)). split; [lia|]. split; [|reflexivity].
      rewrite Hd, Ho. clearbody D C P W. 
      replace (s / W * W + N.of_nat (N.to_nat (s mod W)))%N with s by lia.
      reflexivity.
Qed.

(** X20: for a tensor of rank 4 or 5 whose element count fits a [size_t],
    [optimizedNcsp2Nspc] converts the channels-first layout to the
    channels-last one: the destination element of batch b, channel c and
    spatial position s is the source element of the same coordinates;
    these elements fill the offsets below the element count, and nothing
    is written at or beyond it. The result does not depend on the order in
    which the parallel loop makes its calls. *)
Theorem optimizedNcsp2Nspc_layout {A} (schedule : Scheduler3)
  (inDims : list N) (src_data dst_data : N -> A) :
  fair3 schedule ->
  (length inDims = 4 \/ length inDims = 5)%nat ->
  (element_count inDims < size_t_modulus)%N ->
  (forall b c s,
     (b < DIM0 inDims)%N -> (c < DIM1 inDims)%N -> (s < spatial inDims)%N ->
     optimizedNcsp2Nspc schedule inDims src_data dst_data
       (nspc_offset inDims b c s)
     = src_data (ncsp_offset inDims b c s))
  /\ (forall o, (element_count inDims <= o)%N ->
        optimizedNcsp2Nspc schedule inDims src_data dst_data o = dst_data o)
  /\ (forall o, (o < element_count inDims)%N ->
        exists b c s,
          (b < DIM0 inDims /\ c < DIM1 inDims /\ s < spatial inDims)%N
          /\ o = nspc_offset inDims b c s).
Proof.
  intros Hfair _ Hcount. split; [|split].
  - intros b c s Hb Hc Hs.
    destruct (optimizedNcsp2Nspc_cases schedule inDims src_data dst_data
                (nspc_offset inDims b c s) Hfair Hcount)
      as [(b' & c' & s' & (Hb' & Hc' & Hs') & Ho & Hr)|[Hno _]].
    + unfold nspc_offset in Ho.
      destruct (nspc_offset_inj _ _ b c s b' c' s' Hc Hs Hc' Hs' Ho)
        as (-> & -> & ->).
      exact Hr.
    + destruct (Hno b c s Hb Hc Hs eq_refl).
  - intros o Ho.
    destruct (optimizedNcsp2Nspc_cases schedule inDims src_data dst_data
                o Hfair Hcount)
      as [(b' & c' & s' & (Hb' & Hc' & Hs') & Heq & _)|[_ Hr]]; [|exact Hr].
    exfalso. unfold element_count in Ho.
    pose proof (offset_below' _ _ _ _ _ _ Hb' Hc' Hs') as Hlt.
    unfold nspc_offset in Heq. rewrite <- Heq in Hlt. lia.
  - intros o Ho. unfold element_count in Ho.
    assert (Ho' : (o < DIM0 inDims * (spatial inDims * DIM1 inDims))%N)
      by lia.
    destruct (offset_decompose _ _ _ _ Ho') as (b & s & c & Hb & Hs & Hc & Heq).
    exists b, c, s. repeat split; try assumption.
    unfold nspc_offset. lia.
Qed.

Lemma optimizedNcsp2Nspc_layout_witness :
  optimizedNcsp2Nspc sequential3 [2; 2; 2; 1; 3]%N offsets_buffer zero_buffer
    (nspc_offset [2; 2; 2; 1; 3]%N 1 1 4)
  = offsets_buffer (ncsp_offset [2; 2; 2; 1; 3]%N 1 1 4).
Proof.
  apply (proj1 (optimizedNcsp2Nspc_layout sequential3 [2; 2; 2; 1; 3]%N
                  offsets_buffer zero_buffer sequential3_fair
                  (or_intror eq_refl) eq_refl)); reflexivity.
Defined.

Example optimizedNcsp2Nspc_small :
  List.map (optimizedNcsp2Nspc sequential3 [1; 2; 1; 3]%N
              offsets_buffer zero_buffer) (below 8)
  = [0; 3; 1; 4; 2; 5; 0; 0]%N.
Proof. vm_compute. reflexivity. Qed.
